(** * Travel Explorer backend (src/backend/src/index.ts and db.ts)

    A shallow embedding of the credential codec, the session registry, the
    password-reset flow, the theme preference handler and the forecast
    aggregation loop, with the properties the specification states about
    them.

    Further on it embeds the rest of the backend: registration and
    profile, the search history, the two provider routes with
    [encodeURIComponent], and the router with its [catch]; and, of the
    weather page, [formatDateShort] and [addFavourite].  The last part of
    the file proves properties read off that code.

    Conventions of the embedding:
    - a JavaScript [number] is an IEEE-754 binary64 value, Rocq's primitive
      [float]; row ids and millisecond timestamps, which are integers, are
      in [Z];
    - a JavaScript string is the sequence of its code units; the embedding
      covers code units below 256, so a string is a [string] of [ascii];
    - a function that may throw returns an [outcome];
    - the session [Map] is a [gmap]; the object [byDay] is the [gmap] of
      its own members, and [inherited] tells the names of the members it
      inherits from [Object.prototype]; the users table is the list of
      its rows;
    - a request handler is a state transformer over the session map, the
      users table and the entropy source, with the clock as an argument;
      the [catch] of the router turns a thrown error into a 500 response. *)

From Stdlib Require Import ZArith String Ascii Strings.Byte List Floats Lia Bool.
From Stdlib Require Import Sorting.Sorted.
From Stdlib Require Import DecimalString.
From stdpp Require Import gmap strings.
Import ListNotations.

Set Warnings "-inexact-float,-register-all".
Local Open Scope string_scope.
Local Open Scope Z_scope.

(* ================================================================== *)
(** * The JavaScript runtime, as far as index.ts uses it *)
(* ================================================================== *)

Module JS.

(** Errors raised by the runtime and by Node's crypto module. *)
Inductive error : Type :=
| ERR_OUT_OF_RANGE (argument : string)
| ERR_CRYPTO_INVALID_DIGEST (digest : string)
| ERR_CRYPTO_TIMING_SAFE_EQUAL_LENGTH
| Error (message : string).

(** Either a returned value or a thrown error. *)
Inductive outcome (A : Type) : Type :=
| Return (a : A)
| Throw (e : error).
Arguments Return {A} a.
Arguments Throw {A} e.

Definition bind {A B} (c : outcome A) (k : A -> outcome B) : outcome B :=
  match c with
  | Return a => k a
  | Throw e => Throw e
  end.

(** ** Strings *)

(** [!s] for a string: only the empty string is falsy. *)
Definition falsy (s : string) : bool :=
  match s with EmptyString => true | _ => false end.

(** [String(x || d)] for a field that is absent or a string. *)
Definition str_or (x : option string) (d : string) : string :=
  match x with
  | Some s => if falsy s then d else s
  | None => d
  end.

(** [s.slice(0, n)] *)
Definition slice_to (n : nat) (s : string) : string := String.substring 0 n s.

(** [s.slice(n)] *)
Fixpoint slice_from (n : nat) (s : string) : string :=
  match n, s with
  | O, _ => s
  | S n', String _ s' => slice_from n' s'
  | S _, EmptyString => EmptyString
  end.

(** [s.startsWith(p)] *)
Definition startsWith (p s : string) : bool := String.prefix p s.

(** White space and line terminators among the code units below 256:
    TAB, LF, VT, FF, CR, SP and NBSP. *)
Definition is_space (c : ascii) : bool :=
  let n := N_of_ascii c in
  ((9 <=? n) && (n <=? 13) || (n =? 32) || (n =? 160))%N.

Fixpoint trimStart (s : string) : string :=
  match s with
  | String c s' => if is_space c then trimStart s' else s
  | EmptyString => EmptyString
  end.

Fixpoint trimEnd (s : string) : string :=
  match s with
  | String c s' =>
      match trimEnd s' with
      | EmptyString => if is_space c then EmptyString else String c EmptyString
      | t => String c t
      end
  | EmptyString => EmptyString
  end.

(** [s.trim()] *)
Definition trim (s : string) : string := trimEnd (trimStart s).

(** [s.toLowerCase()] on code units below 256: A-Z, and the Latin-1
    capitals U+00C0..U+00DE except the multiplication sign U+00D7. *)
Definition lower_char (c : ascii) : ascii :=
  let n := N_of_ascii c in
  if ((65 <=? n) && (n <=? 90) || (192 <=? n) && (n <=? 222) && negb (n =? 215))%N
  then ascii_of_N (n + 32) else c.

Fixpoint toLowerCase (s : string) : string :=
  match s with
  | String c s' => String (lower_char c) (toLowerCase s')
  | EmptyString => EmptyString
  end.

(** [s.split(sep)] for a one-character separator: always at least one
    field. *)
Fixpoint split (sep : ascii) (s : string) : list string :=
  match s with
  | EmptyString => [EmptyString]
  | String c s' =>
      if Ascii.eqb c sep then EmptyString :: split sep s'
      else match split sep s' with
           | f :: fs => String c f :: fs
           | [] => [String c EmptyString]
           end
  end.

(** ** Numbers *)

Definition number := float.

Definition of_spec (x : spec_float) : number := SF2Prim x.

(** The Number value of an integer (rounded to nearest, ties to even);
    [neg] chooses the sign of a zero. *)
Definition of_Z (neg : bool) (z : Z) : number :=
  of_spec (binary_normalize prec emax z 0 neg).

(** The Number value of [m * 10^k] for [m > 0]. *)
Definition of_decimal (neg : bool) (m : positive) (k : Z) : number :=
  match k with
  | Zneg p =>
      of_spec (SFdiv prec emax (S754_finite neg m 0)
                               (S754_finite false (Pos.pow 10 p) 0))
  | _ => of_Z neg (if neg then - (Zpos m * 10 ^ k) else Zpos m * 10 ^ k)
  end.

Definition digit_of (base : Z) (c : ascii) : option Z :=
  let n := Z.of_N (N_of_ascii c) in
  let v := if (48 <=? n) && (n <=? 57) then n - 48
           else if (97 <=? n) && (n <=? 102) then n - 87
           else if (65 <=? n) && (n <=? 70) then n - 55
           else 16 in
  if v <? base then Some v else None.

(** Reads the longest run of digits in [base] at the head of [s],
    continuing the value [acc]; returns the value, the number of digits
    read and the rest of the string. *)
Fixpoint digits (base : Z) (s : string) (acc : Z) (n : nat) : Z * nat * string :=
  match s with
  | String c s' =>
      match digit_of base c with
      | Some d => digits base s' (acc * base + d) (S n)
      | None => (acc, n, s)
      end
  | EmptyString => (acc, n, s)
  end.

Definition sign_prefix (s : string) : bool * string :=
  match s with
  | String "-" s' => (true, s')
  | String "+" s' => (false, s')
  | _ => (false, s)
  end.

(** ExponentPart_opt followed by the end of the string: the exponent, or
    [None] when the text is not of that form. *)
Definition exponent_part (s : string) : option Z :=
  match s with
  | EmptyString => Some 0
  | String c s' =>
      if Ascii.eqb c "e" || Ascii.eqb c "E" then
        let '(neg, t) := sign_prefix s' in
        match digits 10 t 0 O with
        | (_, O, _) => None
        | (e, _, EmptyString) => Some (if neg then - e else e)
        | _ => None
        end
      else None
  end.

(** StrUnsignedDecimalLiteral other than [Infinity]: mantissa and decimal
    exponent. *)
Definition unsigned_decimal (s : string) : option (Z * Z) :=
  let '(i, ni, r) := digits 10 s 0 O in
  let '(m, nf, r') :=
    match r with
    | String "." t => digits 10 t i O
    | _ => (i, O, r)
    end in
  match (ni + nf)%nat with
  | O => None
  | _ =>
      match exponent_part r' with
      | Some e => Some (m, e - Z.of_nat nf)
      | None => None
      end
  end.

(** NonDecimalIntegerLiteral: [0x], [0o] and [0b] literals. *)
Definition non_decimal (s : string) : option Z :=
  match s with
  | String "0" (String c t) =>
      let base :=
        if Ascii.eqb c "x" || Ascii.eqb c "X" then 16
        else if Ascii.eqb c "o" || Ascii.eqb c "O" then 8
        else if Ascii.eqb c "b" || Ascii.eqb c "B" then 2
        else 0 in
      match digits base t 0 O with
      | (_, O, _) => None
      | (v, _, EmptyString) => Some v
      | _ => None
      end
  | _ => None
  end.

(** [Number(s)] for a string (StringToNumber). *)
Definition Number (s : string) : number :=
  let t := trim s in
  if falsy t then zero
  else
    match non_decimal t with
    | Some v => of_Z false v
    | None =>
        let '(neg, u) := sign_prefix t in
        if String.eqb u "Infinity" then (if neg then neg_infinity else infinity)
        else
          match unsigned_decimal u with
          | Some (Zpos m, k) => of_decimal neg m k
          | Some (_, _) => if neg then neg_zero else zero
          | None => nan
          end
    end.

(** [Number.isFinite(x)] *)
Definition isFinite (x : number) : bool := PrimFloat.is_finite x.

(** The mathematical value of a finite Number as a fraction [(n, d)],
    [d] a power of two. *)
Definition fraction (x : number) : option (Z * Z) :=
  match Prim2SF x with
  | S754_zero _ => Some (0, 1)
  | S754_finite s m e =>
      let n := if s then Zneg m else Zpos m in
      if 0 <=? e then Some (n * 2 ^ e, 1) else Some (n, 2 ^ (- e))
  | _ => None
  end.

(** [Number.isInteger(x)], with the integer. *)
Definition integer_value (x : number) : option Z :=
  match fraction x with
  | Some (n, d) => if n mod d =? 0 then Some (n / d) else None
  | None => None
  end.

(** An integral Number from its integer value; [neg] is the sign of a
    zero result. *)
Definition of_integer (neg : bool) (r : Z) : number :=
  match r with
  | Z0 => if neg then neg_zero else zero
  | Zpos p => of_spec (S754_finite false p 0)
  | Zneg p => of_spec (S754_finite true p 0)
  end.

(** [Math.round(x)]: the integer nearest to [x], the one closer to
    +Infinity when two are equally near; a result of zero keeps the sign
    of [x]; NaN, the infinities and integral values are returned as they
    are. *)
Definition Math_round (x : number) : number :=
  match Prim2SF x with
  | S754_finite s m e =>
      if 0 <=? e then x
      else
        let n := if s then Zneg m else Zpos m in
        let d := 2 ^ (- e) in
        of_integer s ((2 * n + d) / (2 * d))
  | _ => x
  end.

Definition is_neg_zero (x : number) : bool :=
  match Prim2SF x with S754_zero true => true | _ => false end.

(** [Math.min(a, b)]: NaN if either is NaN; -0 is below +0. *)
Definition Math_min (a b : number) : number :=
  if PrimFloat.is_nan a || PrimFloat.is_nan b then nan
  else if PrimFloat.ltb a b then a
  else if PrimFloat.ltb b a then b
  else if is_neg_zero a then a else b.

(** [Math.max(a, b)]: NaN if either is NaN; +0 is above -0. *)
Definition Math_max (a b : number) : number :=
  if PrimFloat.is_nan a || PrimFloat.is_nan b then nan
  else if PrimFloat.ltb a b then b
  else if PrimFloat.ltb b a then a
  else if is_neg_zero a then b else a.

(** No white space anywhere in the string. *)
Fixpoint spaceless (s : string) : bool :=
  match s with
  | String c s' => negb (is_space c) && spaceless s'
  | EmptyString => true
  end.

End JS.

(* ================================================================== *)
(** * Node's Buffer and crypto modules, as far as index.ts uses them *)
(* ================================================================== *)

Module Node.
Import JS.

Definition Buffer := list byte.

Definition hex_digit (n : N) : ascii :=
  List.nth (N.to_nat n)
    (list_ascii_of_string "0123456789abcdef") "f"%char.

(** [buf.toString("hex")] *)
Fixpoint toHex (buf : Buffer) : string :=
  match buf with
  | b :: buf' =>
      let n := Byte.to_N b in
      String (hex_digit (n / 16)) (String (hex_digit (n mod 16)) (toHex buf'))
  | [] => EmptyString
  end.

Definition byte_of_nibbles (hi lo : Z) : byte :=
  match Byte.of_N (Z.to_N (hi * 16 + lo)) with
  | Some b => b
  | None => Byte.x00
  end.

(** [Buffer.from(s, "hex")]: decodes pairs of hex digits and stops at
    the first pair that is not one; a trailing single character is
    dropped. *)
Fixpoint fromHex (s : string) : Buffer :=
  match s with
  | String a (String b s') =>
      match digit_of 16 a, digit_of 16 b with
      | Some hi, Some lo => byte_of_nibbles hi lo :: fromHex s'
      | _, _ => []
      end
  | _ => []
  end.

(** The entropy source behind [crypto.randomBytes]: an endless stream of
    bytes, threaded through the calls. *)
Definition entropy := nat -> byte.

(** [crypto.randomBytes(n)] *)
Definition randomBytes (n : nat) (src : entropy) : Buffer * entropy :=
  (map src (seq 0 n), fun i => src (n + i)%nat).

Fixpoint equal_bytes (a b : Buffer) : bool :=
  match a, b with
  | x :: a', y :: b' => Byte.eqb x y && equal_bytes a' b'
  | [], [] => true
  | _, _ => false
  end.

(** [crypto.timingSafeEqual(a, b)] *)
Definition timingSafeEqual (a b : Buffer) : outcome bool :=
  if negb (Nat.eqb (length a) (length b))
  then Throw ERR_CRYPTO_TIMING_SAFE_EQUAL_LENGTH
  else Return (equal_bytes a b).

(** [validateInt32(value, name, min)] of Node's internal validators. *)
Definition validateInt32 (value : number) (name : string) (min : Z) : outcome Z :=
  match integer_value value with
  | None => Throw (ERR_OUT_OF_RANGE name)
  | Some z =>
      if (z <? min) || (2147483647 <? z) then Throw (ERR_OUT_OF_RANGE name)
      else Return z
  end.

(** The key derivation itself is a primitive of the platform: which
    digest names the OpenSSL build knows, and the derived key for a
    password, salt, iteration count, key length and digest. *)
Class Pbkdf2 : Type := {
  known_digest : string -> bool;
  derive : string -> string -> Z -> Z -> string -> Buffer
}.

(** [crypto.pbkdf2Sync(password, salt, iterations, keylen, digest)]:
    Node validates [iterations] (an integer from 1 to 2^31-1) and
    [keylen] (from 0), then the job rejects an unknown digest. *)
Definition pbkdf2Sync `{Pbkdf2} (password salt : string) (iterations keylen : number)
    (digest : string) : outcome Buffer :=
  bind (validateInt32 iterations "iterations" 1) (fun iter =>
  bind (validateInt32 keylen "keylen" 0) (fun klen =>
  if known_digest digest then Return (derive password salt iter klen digest)
  else Throw (ERR_CRYPTO_INVALID_DIGEST digest))).

End Node.

(* ================================================================== *)
(** * Password hashing (index.ts, lines 58-90) *)
(* ================================================================== *)

Module Password.
Import JS Node.

Section Codec.
Context `{Pbkdf2}.

Definition PBKDF2_ITER : number := 120000%float.
Definition KEYLEN : number := 32%float.
Definition DIGEST : string := "sha256".

(** The text of [PBKDF2_ITER] inside the template literal. *)
Definition PBKDF2_ITER_text : string := "120000".

(** [hashPassword(password)]; the salt is drawn from the entropy
    source. *)
Definition hashPassword (password : string) (src : entropy)
    : outcome string * entropy :=
  let '(saltBytes, src') := randomBytes 16 src in
  let salt := toHex saltBytes in
  (bind (pbkdf2Sync password salt PBKDF2_ITER KEYLEN DIGEST) (fun key =>
   Return ("pbkdf2$" ++ DIGEST ++ "$" ++ PBKDF2_ITER_text ++ "$" ++ salt
             ++ "$" ++ toHex key)),
   src').

(** [verifyPassword(password, stored)] *)
Definition verifyPassword (password stored : string) : outcome bool :=
  match split "$" stored with
  | [_; digest; iterStr; salt; hashHex] =>
      let iter := Number iterStr in
      if falsy digest || falsy salt || falsy hashHex || negb (isFinite iter)
      then Return false
      else
        bind (pbkdf2Sync password salt iter KEYLEN digest) (fun calc =>
        let storedBuf := fromHex hashHex in
        if negb (Nat.eqb (length storedBuf) (length calc)) then Return false
        else timingSafeEqual calc storedBuf)
  | _ => Return false
  end.

(** [makeToken(bytes)] *)
Definition makeToken (bytes : nat) (src : entropy) : string * entropy :=
  let '(buf, src') := randomBytes bytes src in (toHex buf, src').

End Codec.
End Password.

(* ================================================================== *)
(** * The users table *)
(* ================================================================== *)

Module Store.

(** A row of the [users] table that [initDb] creates (db.ts): [id INTEGER
    PRIMARY KEY AUTOINCREMENT], [email TEXT NOT NULL UNIQUE], [name],
    [password_hash], [theme TEXT NOT NULL DEFAULT 'system'], and the
    nullable [reset_token TEXT] and [reset_expires INTEGER] (milliseconds).
    The properties below need neither the uniqueness of e-mails nor that
    of ids. *)
Record user : Type := {
  id : Z;
  email : string;
  name : string;
  password_hash : string;
  theme : string;
  reset_token : option string;
  reset_expires : option Z
}.

Definition table := list user.

(** [SELECT ... FROM users WHERE email=?] with [.get]: the first row. *)
Definition select_by_email (e : string) (t : table) : option user :=
  List.find (fun u => String.eqb (email u) e) t.

(** [UPDATE users SET ... WHERE id=?] *)
Definition update_where_id (set : user -> user) (i : Z) (t : table) : table :=
  List.map (fun u => if id u =? i then set u else u) t.

Definition set_reset (token : string) (expires : Z) (u : user) : user :=
  {| id := id u; email := email u; name := name u;
     password_hash := password_hash u; theme := theme u;
     reset_token := Some token; reset_expires := Some expires |}.

Definition set_password_clear_reset (hash : string) (u : user) : user :=
  {| id := id u; email := email u; name := name u;
     password_hash := hash; theme := theme u;
     reset_token := None; reset_expires := None |}.

Definition set_theme (th : string) (u : user) : user :=
  {| id := id u; email := email u; name := name u;
     password_hash := password_hash u; theme := th;
     reset_token := reset_token u; reset_expires := reset_expires u |}.

End Store.

(* ================================================================== *)
(** * Sessions and request handlers (index.ts, lines 92-111, 205-340) *)
(* ================================================================== *)

Module Server.
Import JS Node Password.

(** ** Requests and responses *)

(** A request body: either text that is not JSON, or an object whose
    fields are strings (the shape the clients send).  No body is the empty
    object; a field that is null, false or 0 reads as an absent one under
    [body?.field || default]; other values that are not strings are
    outside the embedding. *)
Inductive payload : Type :=
| Malformed
| Fields (fields : gmap string string).

Record request : Type := {
  method : string;
  authorization : option string;
  body : payload
}.

(** JSON values of the response bodies.  [JMessage e] is the string
    [e.message] of a runtime error, whose text is not spelled out. *)
Inductive json : Type :=
| JBool (b : bool)
| JNum (n : Z)
| JStr (s : string)
| JMessage (e : error)
| JObj (members : list (string * json)).

Record response : Type := { status : Z; content : json }.

(** [sendJson(res, status, obj)] *)
Definition sendJson (st : Z) (obj : json) : response :=
  {| status := st; content := obj |}.

Definition methodNotAllowed : response :=
  sendJson 405 (JObj [("error", JStr "Method not allowed")]).

(** The member names of a response body: its shape. *)
Definition shape (r : response) : list string :=
  match content r with
  | JObj members => List.map fst members
  | _ => []
  end.

(** ** The state of the process and the monad of handlers *)

Record state : Type := {
  sessions : gmap string Z;      (* token -> userId *)
  users : Store.table;
  random : entropy
}.

(** A handler step reads and writes the state and may throw; what it
    wrote before throwing stays written. *)
Definition M (A : Type) : Type := state -> outcome A * state.

Definition ret {A} (a : A) : M A := fun s => (Return a, s).

Definition throw {A} (e : error) : M A := fun s => (Throw e, s).

Definition mbind {A B} (c : M A) (k : A -> M B) : M B :=
  fun s =>
    match c s with
    | (Return a, s') => k a s'
    | (Throw e, s') => (Throw e, s')
    end.

Declare Scope handler_scope.
Delimit Scope handler_scope with handler.
Notation "x <- c ;; k" := (mbind c (fun x => k))
  (at level 100, c at next level, right associativity) : handler_scope.
Notation "c ;;; k" := (mbind c (fun _ => k))
  (at level 100, right associativity) : handler_scope.
Local Open Scope handler_scope.

Definition get_sessions : M (gmap string Z) := fun s => (Return (sessions s), s).

Definition get_users : M Store.table := fun s => (Return (users s), s).

Definition put_sessions (m : gmap string Z) : M unit :=
  fun s => (Return tt, {| sessions := m; users := users s; random := random s |}).

Definition put_users (t : Store.table) : M unit :=
  fun s => (Return tt, {| sessions := sessions s; users := t; random := random s |}).

(** Runs a computation that draws from the entropy source. *)
Definition with_entropy {A} (f : entropy -> A * entropy) : M A :=
  fun s =>
    let '(a, src) := f (random s) in
    (Return a, {| sessions := sessions s; users := users s; random := src |}).

Definition lift {A} (c : outcome A) : M A := fun s => (c, s).

(** [readJsonBody(req)] *)
Definition readJsonBody (req : request) : M (gmap string string) :=
  match body req with
  | Fields f => ret f
  | Malformed => throw (Error "Invalid JSON")
  end.

(** The [catch] of the router (lines 471-473): a thrown error becomes a
    500 response. *)
Definition server_error (e : error) : response :=
  sendJson 500
    (JObj [("error", match e with
                     | Error m => JStr (str_or (Some m) "Server error")
                     | _ => JMessage e
                     end)]).

Definition serve (h : M response) (s : state) : response * state :=
  match h s with
  | (Return r, s') => (r, s')
  | (Throw e, s') => (server_error e, s')
  end.

(** ** Sessions *)

(** [getAuthToken(req)] *)
Definition getAuthToken (req : request) : string :=
  let auth := str_or (authorization req) "" in
  if negb (startsWith "Bearer " auth) then "" else trim (slice_from 7 auth).

(** The lookup and test of [requireAuth]: the user of a token, if the
    token is non-empty and maps to a truthy id. *)
Definition resolve (m : gmap string Z) (token : string) : option Z :=
  match m !! token with
  | Some userId => if falsy token || (userId =? 0) then None else Some userId
  | None => None
  end.

(** [requireAuth(req, res)]: the user id, or the 401 response it sent. *)
Definition requireAuth (req : request) : M (response + Z) :=
  m <- get_sessions ;;
  match resolve m (getAuthToken req) with
  | Some userId => ret (inr userId)
  | None => ret (inl (sendJson 401 (JObj [("error", JStr "Unauthorized")])))
  end.

(** [const token = makeToken(); sessions.set(token, userId)] of the
    register and login handlers. *)
Definition issue (userId : Z) : M string :=
  token <- with_entropy (makeToken 24) ;;
  m <- get_sessions ;;
  put_sessions (<[token := userId]> m) ;;;
  ret token.

Section Handlers.
Context `{Pbkdf2}.

(** POST /auth/login *)
Definition login (req : request) : M response :=
  if negb (String.eqb (method req) "POST") then ret methodNotAllowed
  else
    body <- readJsonBody req ;;
    let email := toLowerCase (trim (str_or (body !! "email") "")) in
    let password := str_or (body !! "password") "" in
    if falsy email || falsy password
    then ret (sendJson 400 (JObj [("error", JStr "email and password required")]))
    else
      t <- get_users ;;
      match Store.select_by_email email t with
      | None => ret (sendJson 401 (JObj [("error", JStr "invalid credentials")]))
      | Some row =>
          ok <- lift (verifyPassword password (Store.password_hash row)) ;;
          if negb ok
          then ret (sendJson 401 (JObj [("error", JStr "invalid credentials")]))
          else
            token <- issue (Store.id row) ;;
            ret (sendJson 200
                   (JObj [("token", JStr token);
                          ("user", JObj [("id", JNum (Store.id row));
                                         ("email", JStr (Store.email row));
                                         ("name", JStr (Store.name row));
                                         ("theme", JStr (Store.theme row))])]))
      end.

(** POST /auth/logout *)
Definition logout (req : request) : M response :=
  if negb (String.eqb (method req) "POST") then ret methodNotAllowed
  else
    let token := getAuthToken req in
    (if falsy token then ret tt
     else m <- get_sessions ;; put_sessions (delete token m)) ;;;
    ret (sendJson 200 (JObj [("success", JBool true)])).

(** POST /auth/request-reset; [now] is [Date.now()].  The console line
    is not part of the state. *)
Definition request_reset (now : Z) (req : request) : M response :=
  if negb (String.eqb (method req) "POST") then ret methodNotAllowed
  else
    body <- readJsonBody req ;;
    let email := toLowerCase (trim (str_or (body !! "email") "")) in
    if falsy email
    then ret (sendJson 400 (JObj [("error", JStr "email is required")]))
    else
      t <- get_users ;;
      match Store.select_by_email email t with
      | None => ret (sendJson 200 (JObj [("success", JBool true)]))
      | Some user =>
          resetToken <- with_entropy (makeToken 16) ;;
          let expires := now + 15 * 60 * 1000 in
          t <- get_users ;;
          put_users (Store.update_where_id (Store.set_reset resetToken expires)
                       (Store.id user) t) ;;;
          ret (sendJson 200 (JObj [("success", JBool true);
                                   ("resetToken", JStr resetToken);
                                   ("expires", JNum expires)]))
      end.

(** Lines 292-309 of POST /auth/reset: the lookup of the pending
    token, its three checks and the update; [now] is [Date.now()]. *)
Definition consume (now : Z) (email resetToken newPassword : string) : M response :=
  t <- get_users ;;
  match Store.select_by_email email t with
  | None => ret (sendJson 400 (JObj [("error", JStr "reset not requested")]))
  | Some row =>
      match Store.reset_token row, Store.reset_expires row with
      | Some token, Some expires =>
          if falsy token || (expires =? 0)
          then ret (sendJson 400 (JObj [("error", JStr "reset not requested")]))
          else if negb (String.eqb token resetToken)
          then ret (sendJson 400 (JObj [("error", JStr "invalid token")]))
          else if expires <? now
          then ret (sendJson 400 (JObj [("error", JStr "token expired")]))
          else
            hashed <- with_entropy (hashPassword newPassword) ;;
            password_hash <- lift hashed ;;
            t <- get_users ;;
            put_users (Store.update_where_id
                         (Store.set_password_clear_reset password_hash)
                         (Store.id row) t) ;;;
            ret (sendJson 200 (JObj [("success", JBool true)]))
      | _, _ => ret (sendJson 400 (JObj [("error", JStr "reset not requested")]))
      end
  end.

(** POST /auth/reset *)
Definition reset (now : Z) (req : request) : M response :=
  if negb (String.eqb (method req) "POST") then ret methodNotAllowed
  else
    body <- readJsonBody req ;;
    let email := toLowerCase (trim (str_or (body !! "email") "")) in
    let resetToken := trim (str_or (body !! "resetToken") "") in
    let newPassword := str_or (body !! "newPassword") "" in
    if falsy email || falsy resetToken || falsy newPassword
    then ret (sendJson 400
                (JObj [("error", JStr "email, resetToken, newPassword required")]))
    else if (String.length newPassword <? 6)%nat
    then ret (sendJson 400
                (JObj [("error", JStr "newPassword must be at least 6 characters")]))
    else consume now email resetToken newPassword.

(** PUT /me/theme *)
Definition me_theme (req : request) : M response :=
  auth <- requireAuth req ;;
  match auth with
  | inl unauthorized => ret unauthorized
  | inr userId =>
      if negb (String.eqb (method req) "PUT") then ret methodNotAllowed
      else
        body <- readJsonBody req ;;
        let theme := str_or (body !! "theme") "system" in
        if negb (existsb (String.eqb theme) ["system"; "light"; "dark"])
        then ret (sendJson 400 (JObj [("error", JStr "theme must be system|light|dark")]))
        else
          t <- get_users ;;
          put_users (Store.update_where_id (Store.set_theme theme) userId t) ;;;
          ret (sendJson 200 (JObj [("success", JBool true); ("theme", JStr theme)]))
  end.

End Handlers.
(** ** Vocabulary of the statements *)

(** The response [{ success: true }] with status 200. *)
Definition success : response := sendJson 200 (JObj [("success", JBool true)]).

(** A 400 response with an error message. *)
Definition failure (message : string) : response :=
  sendJson 400 (JObj [("error", JStr message)]).

Definition with_users (t : Store.table) (s : state) : state :=
  {| sessions := sessions s; users := t; random := random s |}.

Definition with_random (src : entropy) (s : state) : state :=
  {| sessions := sessions s; users := users s; random := src |}.

(** The pending reset request of the account with this e-mail, as
    [consume] reads it: row id, token and expiry, when both columns are
    set and truthy. *)
Definition pending (t : Store.table) (email : string) : option (Z * string * Z) :=
  match Store.select_by_email email t with
  | Some row =>
      match Store.reset_token row, Store.reset_expires row with
      | Some token, Some expires =>
          if falsy token || (expires =? 0) then None
          else Some (Store.id row, token, expires)
      | _, _ => None
      end
  | None => None
  end.

(** The theme names PUT /me/theme accepts. *)
Definition themes : list string := ["system"; "light"; "dark"].

End Server.

(* ================================================================== *)
(** * Forecast aggregation (index.ts, lines 421-461) *)
(* ================================================================== *)

(** One element of [data.list] of the upstream forecast: the fields the
    loop reads, each possibly absent (or null); temperatures are numbers
    and texts are strings, as the provider sends them. *)
Module Item.
Record main_t : Type := {
  temp : option JS.number;
  temp_min : option JS.number;
  temp_max : option JS.number
}.

Record weather_t : Type := {
  description : option string;
  icon : option string
}.

(** An absent [weather] is the empty list. *)
Record sample : Type := {
  dt_txt : option string;
  main : option main_t;
  weather : list weather_t
}.
End Item.

(** A value of [byDay]. *)
Module Day.
Record bucket : Type := {
  min : JS.number;
  max : JS.number;
  descriptions : list string;
  icons : list string
}.
End Day.

Module Forecast.
Import JS.

Record ForecastDay : Type := {
  date : string;        (* YYYY-MM-DD *)
  min : number;
  max : number;
  description : string;
  icon : string
}.

(** [item.dt_txt || ""] cut to its first ten code units. *)
Definition dateKey (item : Item.sample) : string :=
  slice_to 10 (str_or (Item.dt_txt item) "").

(** [Number(item.main?.temp_min ?? item.main?.temp ?? 0)] *)
Definition tmin (item : Item.sample) : number :=
  match Item.main item with
  | Some m =>
      match Item.temp_min m, Item.temp m with
      | Some v, _ => v
      | None, Some v => v
      | None, None => zero
      end
  | None => zero
  end.

(** [Number(item.main?.temp_max ?? item.main?.temp ?? 0)] *)
Definition tmax (item : Item.sample) : number :=
  match Item.main item with
  | Some m =>
      match Item.temp_max m, Item.temp m with
      | Some v, _ => v
      | None, Some v => v
      | None, None => zero
      end
  | None => zero
  end.

(** [String(item.weather?.[0]?.description || "")] *)
Definition desc (item : Item.sample) : string :=
  match Item.weather item with
  | w :: _ => str_or (Item.description w) ""
  | [] => ""
  end.

(** [String(item.weather?.[0]?.icon || "")] *)
Definition icon_of (item : Item.sample) : string :=
  match Item.weather item with
  | w :: _ => str_or (Item.icon w) ""
  | [] => ""
  end.

Definition widen (lo hi : number) (b : Day.bucket) : Day.bucket :=
  {| Day.min := Math_min (Day.min b) lo; Day.max := Math_max (Day.max b) hi;
     Day.descriptions := Day.descriptions b; Day.icons := Day.icons b |}.

Definition push_description (d : string) (b : Day.bucket) : Day.bucket :=
  {| Day.min := Day.min b; Day.max := Day.max b;
     Day.descriptions := Day.descriptions b ++ [d]; Day.icons := Day.icons b |}.

Definition push_icon (i : string) (b : Day.bucket) : Day.bucket :=
  {| Day.min := Day.min b; Day.max := Day.max b;
     Day.descriptions := Day.descriptions b; Day.icons := Day.icons b ++ [i] |}.

(** [byDay] is a plain object, so [byDay[dateKey]] also finds the members
    it inherits from [Object.prototype].  A key has at most ten code
    units, and the inherited members with such a name are these three;
    each of them is an object (two functions and the prototype itself),
    hence truthy, and none has a member [descriptions] or [icons]. *)
Definition inherited (k : string) : bool :=
  existsb (String.eqb k) ["toString"; "valueOf"; "__proto__"].

(** What [undefined.push(...)] throws: a [TypeError], of which the
    [catch] reads the message only; the text is the one of V8 since
    Node 16. *)
Definition no_push : error :=
  Error "Cannot read properties of undefined (reading 'push')".

(** Lines 443-444: the two pushes onto the bucket of the key. *)
Definition pushes (item : Item.sample) (k : string)
    (byDay : gmap string Day.bucket) : gmap string Day.bucket :=
  let byDay2 :=
    if falsy (desc item) then byDay
    else alter (push_description (desc item)) k byDay in
  if falsy (icon_of item) then byDay2
  else alter (push_icon (icon_of item)) k byDay2.

(** The body of the loop over [data.list] (lines 427-444): the own
    members of [byDay] after it, or the exception it throws.  For a key
    that [byDay] does not own but inherits, [!byDay[dateKey]] is false:
    the [else] branch writes [min] and [max] to the inherited object,
    which nothing reads and which leaves the own members as they are,
    and a push of a non-empty description or icon throws. *)
Definition iteration (byDay : gmap string Day.bucket) (item : Item.sample)
    : outcome (gmap string Day.bucket) :=
  let k := dateKey item in
  if falsy k then Return byDay
  else
    match byDay !! k with
    | Some _ => Return (pushes item k (alter (widen (tmin item) (tmax item)) k byDay))
    | None =>
        if inherited k then
          if falsy (desc item) && falsy (icon_of item) then Return byDay
          else Throw no_push
        else
          Return (pushes item k
                    (<[k := {| Day.min := tmin item; Day.max := tmax item;
                               Day.descriptions := []; Day.icons := [] |}]> byDay))
    end.

(** The loop over [data.list]. *)
Fixpoint loop (samples : list Item.sample) (byDay : gmap string Day.bucket)
    : outcome (gmap string Day.bucket) :=
  match samples with
  | [] => Return byDay
  | item :: rest => bind (iteration byDay item) (loop rest)
  end.

(** The own members of [byDay] after the body, however it ends: a body
    that throws has changed none of them. *)
Definition step (byDay : gmap string Day.bucket) (item : Item.sample)
    : gmap string Day.bucket :=
  match iteration byDay item with
  | Return byDay' => byDay'
  | Throw _ => byDay
  end.

(** [byDay] after the bodies of all the samples; it is [byDay] after the
    loop when no body throws. *)
Definition collect (samples : list Item.sample) : gmap string Day.bucket :=
  fold_left step samples ∅.

(** [keys.sort()]: ascending in the order of the code units. *)
Fixpoint insert_key (k : string) (ks : list string) : list string :=
  match ks with
  | k' :: ks' => if String.leb k k' then k :: ks else k' :: insert_key k ks'
  | [] => [k]
  end.

Definition sort (ks : list string) : list string :=
  fold_right insert_key [] ks.

(** [Object.keys(byDay).sort().slice(0, 6)] *)
Definition days (byDay : gmap string Day.bucket) : list string :=
  firstn 6 (sort (map fst (map_to_list byDay))).

(** [Math.round(x * 10) / 10] *)
Definition round1 (x : number) : number :=
  (Math_round (x * 10) / 10)%float.

(** The loop that fills [forecast] (lines 449-461). *)
Definition summarize (byDay : gmap string Day.bucket) (ds : list string)
    : list ForecastDay :=
  flat_map (fun d =>
    match byDay !! d with
    | None => []
    | Some day =>
        [{| date := d;
            min := round1 (Day.min day);
            max := round1 (Day.max day);
            description := str_or (head (Day.descriptions day)) "";
            icon := str_or (head (Day.icons day)) "" |}]
    end) ds.

(** The [forecast] array built from [byDay] for the samples
    [data.list || []]; it is the array sent when the loop does not throw
    ([forecast]). *)
Definition aggregate (samples : list Item.sample) : list ForecastDay :=
  let byDay := collect samples in summarize byDay (days byDay).

(** Lines 421-461: the [forecast] array, or the exception of the loop,
    which the [catch] of the endpoint turns into a 500 response. *)
Definition forecast (samples : list Item.sample) : outcome (list ForecastDay) :=
  bind (loop samples ∅) (fun byDay => Return (summarize byDay (days byDay))).

(** ** Vocabulary of the statements *)

(** The effect of one dated sample on the bucket of its date. *)
Definition update (seen : option Day.bucket) (item : Item.sample) : Day.bucket :=
  let b1 :=
    match seen with
    | None => {| Day.min := tmin item; Day.max := tmax item;
                 Day.descriptions := []; Day.icons := [] |}
    | Some b => widen (tmin item) (tmax item) b
    end in
  let b2 := if falsy (desc item) then b1 else push_description (desc item) b1 in
  if falsy (icon_of item) then b2 else push_icon (icon_of item) b2.

Definition descriptions_of (seen : option Day.bucket) : list string :=
  match seen with Some b => Day.descriptions b | None => [] end.

Definition icons_of (seen : option Day.bucket) : list string :=
  match seen with Some b => Day.icons b | None => [] end.

Definition nonempty (l : list string) : list string :=
  List.filter (fun s => negb (falsy s)) l.

(** The samples of a date, in their order in [data.list]. *)
Definition same_day (d : string) (samples : list Item.sample) : list Item.sample :=
  List.filter (fun item => String.eqb (dateKey item) d) samples.

(** The first non-empty string of a list, or the empty string. *)
Fixpoint first_nonempty (l : list string) : string :=
  match l with
  | [] => ""
  | x :: l' => if falsy x then first_nonempty l' else x
  end.

(** A sample whose body throws: its date is an inherited member and it
    has a description or an icon. *)
Definition faulty (item : Item.sample) : bool :=
  inherited (dateKey item) && negb (falsy (desc item) && falsy (icon_of item)).

(** A sample without a usable [dt_txt]. *)
Definition undated (item : Item.sample) : Prop :=
  Item.dt_txt item = None \/ Item.dt_txt item = Some "".

(** Strictly ascending order of the code units. *)
Definition before (a b : string) : Prop := String.ltb a b = true.

Definition day_before (a b : ForecastDay) : Prop := before (date a) (date b).

End Forecast.

(* ================================================================== *)
(** * Concrete data for the worked cases *)
(* ================================================================== *)

Module Demo.
Import JS Node Password Server Item.

(** A stand-in platform for concrete runs: it knows "sha256" only, and
    its keys are the bytes of password and salt, cut or padded to the key
    length (nothing cryptographic). *)
Definition platform : Pbkdf2 :=
  {| known_digest := String.eqb "sha256";
     derive := fun password salt _ klen _ =>
       firstn (Z.to_nat klen)
         (list_byte_of_string (password ++ salt) ++ repeat Byte.x00 (Z.to_nat klen))%list |}.

Definition alice : Store.user :=
  {| Store.id := 1; Store.email := "alice@example.com"; Store.name := "Alice";
     Store.password_hash := "pbkdf2$sha256$120000$00$00"; Store.theme := "dark";
     Store.reset_token := Some "5f1d0c9a7b3e4d2c8a6f0e1b9c7d5a3f";
     Store.reset_expires := Some 1700000900000 |}.

Definition bob : Store.user :=
  {| Store.id := 2; Store.email := "bob@example.com"; Store.name := "Bob";
     Store.password_hash := "pbkdf2$sha256$0$00ff$00ff"; Store.theme := "system";
     Store.reset_token := None; Store.reset_expires := None |}.

Definition alice_session : string :=
  "000102030405060708090a0b0c0d0e0f1011121314151617".

Definition st : state :=
  {| sessions := {[ alice_session := 1 ]};
     users := [alice; bob];
     random := fun i => match Byte.of_nat i with Some b => b | None => Byte.xff end |}.

Definition post (fields : list (string * string)) : request :=
  {| method := "POST"; authorization := None; body := Fields (list_to_map fields) |}.

Definition put_as (token : string) (fields : list (string * string)) : request :=
  {| method := "PUT"; authorization := Some ("Bearer " ++ token);
     body := Fields (list_to_map fields) |}.

(** Forecast samples. *)

Definition reading (at_time : string) (t : number) : sample :=
  {| dt_txt := Some at_time;
     main := Some {| temp := Some t; temp_min := None; temp_max := None |};
     weather := [] |}.

Definition described (at_time : string) (t : number) (d i : string) : sample :=
  {| dt_txt := Some at_time;
     main := Some {| temp := Some t; temp_min := None; temp_max := None |};
     weather := [{| description := Some d; icon := Some i |}] |}.

Definition two_days : list sample :=
  [ reading "2024-01-01 00:00:00" 2; reading "2024-01-01 03:00:00" 5;
    reading "2024-01-01 06:00:00" 8; reading "2024-01-02 00:00:00" (-1);
    reading "2024-01-02 03:00:00" 3 ]%float.

Definition timeless : sample :=
  {| dt_txt := None;
     main := Some {| temp := Some 40%float; temp_min := None; temp_max := None |};
     weather := [{| description := Some "haze"; icon := Some "50d" |}] |}.

Definition rain_later : list sample :=
  [ reading "2024-01-01 00:00:00" 1%float;
    described "2024-01-01 03:00:00" 2%float "light rain" "10d" ].

Definition cold : list sample := [ reading "2024-01-01 00:00:00" (-1.25)%float ].
End Demo.

(* ================================================================== *)
(** * Shapes of texts *)
(* ================================================================== *)

Module Text.

(** The separator does not occur in the string. *)
Fixpoint free_of (sep : ascii) (s : string) : bool :=
  match s with
  | String c s' => negb (Ascii.eqb c sep) && free_of sep s'
  | EmptyString => true
  end.

(** Only the digits 0-9 and a-f. *)
Fixpoint lower_hex (s : string) : bool :=
  match s with
  | String c s' =>
      existsb (Ascii.eqb c) (list_ascii_of_string "0123456789abcdef") && lower_hex s'
  | EmptyString => true
  end.

End Text.

(* ================================================================== *)
(** * Accounts: registration and profile (index.ts, lines 168-203 and
      312-323; db.ts) *)
(* ================================================================== *)

Module Accounts.
Import JS Node Password Server.
Local Open Scope handler_scope.

(** [SELECT ... FROM users WHERE id=?] with [.get] *)
Definition select_by_id (i : Z) (t : Store.table) : option Store.user :=
  List.find (fun u => Store.id u =? i) t.

(** The rowid an INSERT into [users] gets.  The column is [INTEGER
    PRIMARY KEY AUTOINCREMENT]: one more than the largest rowid the table
    ever held, and 1 for a table that never held a row.  No statement of
    the program deletes a user or sets an id, so that is the largest id
    in the table. *)
Definition next_id (t : Store.table) : Z :=
  1 + fold_right Z.max 0 (List.map Store.id t).

(** The row [INSERT INTO users(email, name, password_hash)] adds: theme
    takes its default ['system'], the reset columns are NULL. *)
Definition new_user (i : Z) (email name password_hash : string) : Store.user :=
  {| Store.id := i; Store.email := email; Store.name := name;
     Store.password_hash := password_hash; Store.theme := "system";
     Store.reset_token := None; Store.reset_expires := None |}.

(** [INSERT INTO users(email, name, password_hash) VALUES(?,?,?)] and
    [Number(info.lastInsertRowid)].  [email] is [UNIQUE]: the statement
    throws when a row has it already. *)
Definition insert_user (email name password_hash : string) : M Z :=
  t <- get_users ;;
  if existsb (fun u => String.eqb (Store.email u) email) t
  then throw (Error "UNIQUE constraint failed: users.email")
  else
    let userId := next_id t in
    put_users (t ++ [new_user userId email name password_hash])%list ;;;
    ret userId.

(** The [user] object of the register, login and profile responses. *)
Definition profile (i : Z) (email name theme : string) : json :=
  JObj [("id", JNum i); ("email", JStr email); ("name", JStr name);
        ("theme", JStr theme)].

Section Handlers.
Context `{Pbkdf2}.

(** POST /auth/register *)
Definition register (req : request) : M response :=
  if negb (String.eqb (method req) "POST") then ret methodNotAllowed
  else
    body <- readJsonBody req ;;
    let email := toLowerCase (trim (str_or (body !! "email") "")) in
    let name := trim (str_or (body !! "name") "") in
    let password := str_or (body !! "password") "" in
    if falsy email || falsy name || falsy password
    then ret (sendJson 400 (JObj [("error", JStr "email, name, password are required")]))
    else if (String.length password <? 6)%nat
    then ret (sendJson 400
                (JObj [("error", JStr "password must be at least 6 characters")]))
    else
      t <- get_users ;;
      match Store.select_by_email email t with
      | Some _ => ret (sendJson 409 (JObj [("error", JStr "user already exists")]))
      | None =>
          hashed <- with_entropy (hashPassword password) ;;
          password_hash <- lift hashed ;;
          userId <- insert_user email name password_hash ;;
          token <- issue userId ;;
          ret (sendJson 201 (JObj [("token", JStr token);
                                   ("user", profile userId email name "system")]))
      end.

End Handlers.

(** GET /me.  [JSON.stringify] leaves out a member whose value is
    [undefined]: without a row the body is the empty object. *)
Definition me (req : request) : M response :=
  if negb (String.eqb (method req) "GET") then ret methodNotAllowed
  else
    auth <- requireAuth req ;;
    match auth with
    | inl unauthorized => ret unauthorized
    | inr userId =>
        t <- get_users ;;
        ret (sendJson 200
               (JObj match select_by_id userId t with
                     | Some user =>
                         [("user", profile (Store.id user) (Store.email user)
                                     (Store.name user) (Store.theme user))]
                     | None => []
                     end))
    end.

(** ** Vocabulary of the statements *)

(** The answer of POST /auth/login to an unknown e-mail and to a wrong
    password. *)
Definition unauthorized_login : response :=
  sendJson 401 (JObj [("error", JStr "invalid credentials")]).

(** The answer of [requireAuth] without a valid session. *)
Definition unauthorized : response :=
  sendJson 401 (JObj [("error", JStr "Unauthorized")]).

(** A row with this id exists. *)
Definition known (t : Store.table) (i : Z) : Prop :=
  exists row, select_by_id i t = Some row.

(** The users table as the schema and the program keep it: e-mails and
    ids are unique and ids are positive. *)
Definition table_ok (t : Store.table) : Prop :=
  NoDup (List.map Store.email t) /\
  NoDup (List.map Store.id t) /\
  List.Forall (fun u => 0 < Store.id u) t.

(** Every session belongs to a row of the users table. *)
Definition sessions_ok (s : state) : Prop :=
  forall token userId, sessions s !! token = Some userId -> known (users s) userId.

End Accounts.

(* ================================================================== *)
(** * Search history (index.ts, lines 342-376; db.ts) *)
(* ================================================================== *)

(** A row of [searches], without its rowid, which no statement reads. *)
Module Search.
Record row : Type := {
  user_id : Z;
  city : string;
  lang : string;
  created_at : Z
}.
End Search.

(** An element of the [history] array: the selected columns. *)
Module HistoryRow.
Record t : Type := {
  city : string;
  lang : string;
  created_at : Z
}.
End HistoryRow.

Module History.

(** The rows in the order of their rowids. *)
Definition table := list Search.row.

Definition columns (r : Search.row) : HistoryRow.t :=
  {| HistoryRow.city := Search.city r; HistoryRow.lang := Search.lang r;
     HistoryRow.created_at := Search.created_at r |}.

(** [ORDER BY created_at DESC]; rows of the same millisecond keep the
    order of their rowids, the order of the index
    [idx_searches_user_time] that serves the query. *)
Fixpoint insert_desc (r : Search.row) (l : list Search.row) : list Search.row :=
  match l with
  | r' :: l' =>
      if Search.created_at r' <=? Search.created_at r then r :: l
      else r' :: insert_desc r l'
  | [] => [r]
  end.

Definition order_desc (l : list Search.row) : list Search.row :=
  fold_right insert_desc [] l.

(** [SELECT city, lang, created_at FROM searches WHERE user_id=? ORDER BY
    created_at DESC LIMIT 50] *)
Definition select_history (userId : Z) (rows : table) : list HistoryRow.t :=
  firstn 50
    (List.map columns
       (order_desc (List.filter (fun r => Search.user_id r =? userId) rows))).

(** ** Vocabulary of the statements *)

(** The searches of a user, oldest first. *)
Definition of_user (userId : Z) (rows : table) : list HistoryRow.t :=
  List.map columns (List.filter (fun r => Search.user_id r =? userId) rows).

Definition newer_or_same (a b : HistoryRow.t) : Prop :=
  HistoryRow.created_at b <= HistoryRow.created_at a.

Definition not_older (a b : Search.row) : Prop :=
  Search.created_at b <= Search.created_at a.

End History.

(* ================================================================== *)
(** * The weather provider (index.ts, lines 116-134 and 378-467) *)
(* ================================================================== *)

Module Upstream.
Import JS Server.

(** ** [encodeURIComponent] on code units below 256 *)

(** The characters left as they are: A-Z a-z 0-9 - _ . ! ~ * ' ( ) *)
Definition unreserved (c : ascii) : bool :=
  let n := N_of_ascii c in
  ((65 <=? n) && (n <=? 90) || (97 <=? n) && (n <=? 122) || (48 <=? n) && (n <=? 57))%N
  || existsb (Ascii.eqb c) (list_ascii_of_string "-_.!~*'()").

Definition upper_hex_digit (n : N) : ascii :=
  List.nth (N.to_nat n) (list_ascii_of_string "0123456789ABCDEF") "F"%char.

(** [%XX] for one octet. *)
Definition escape (octet : N) : string :=
  String "%" (String (upper_hex_digit (octet / 16))
                (String (upper_hex_digit (octet mod 16)) EmptyString)).

(** A code unit below 128 is one octet of UTF-8, one from 128 to 255 is
    two. *)
Definition encode_unit (c : ascii) : string :=
  let n := N_of_ascii c in
  if unreserved c then String c EmptyString
  else if (n <? 128)%N then escape n
  else escape (192 + n / 64) ++ escape (128 + n mod 64).

Fixpoint encodeURIComponent (s : string) : string :=
  match s with
  | String c s' => encode_unit c ++ encodeURIComponent s'
  | EmptyString => EmptyString
  end.

(** ** [encodeURIComponent] on any sequence of UTF-16 code units

    The function reads code points: a high surrogate followed by a low
    one is one code point from 65536 on, a surrogate without its partner
    makes it throw a [URIError].  Each code point that is not an
    unreserved character is written as the escapes of its UTF-8 octets. *)

Definition high_surrogate (n : N) : bool := ((55296 <=? n) && (n <=? 56319))%N.

Definition low_surrogate (n : N) : bool := ((56320 <=? n) && (n <=? 57343))%N.

(** The UTF-8 octets of a code point. *)
Definition utf8 (cp : N) : list N :=
  if (cp <? 128)%N then [cp]
  else if (cp <? 2048)%N then [192 + cp / 64; 128 + cp mod 64]%N
  else if (cp <? 65536)%N
       then [224 + cp / 4096; 128 + (cp / 64) mod 64; 128 + cp mod 64]%N
       else [240 + cp / 262144; 128 + (cp / 4096) mod 64;
             128 + (cp / 64) mod 64; 128 + cp mod 64]%N.

Definition escapes (octets : list N) : string :=
  fold_right (fun octet text => escape octet ++ text) EmptyString octets.

Definition unreserved_unit (n : N) : bool :=
  (n <? 128)%N && unreserved (ascii_of_N n).

Definition malformed : error := Error "URI malformed".

Fixpoint encode_units (units : list N) : outcome string :=
  match units with
  | [] => Return EmptyString
  | n :: rest =>
      if unreserved_unit n
      then bind (encode_units rest) (fun text => Return (String (ascii_of_N n) text))
      else if low_surrogate n then Throw malformed
      else if high_surrogate n then
        match rest with
        | lo :: rest' =>
            if low_surrogate lo
            then bind (encode_units rest')
                   (fun text =>
                      Return (escapes (utf8 (65536 + (n - 55296) * 1024 + (lo - 56320))%N)
                                ++ text))
            else Throw malformed
        | [] => Throw malformed
        end
      else bind (encode_units rest) (fun text => Return (escapes (utf8 n) ++ text))
  end.

(** The code units of a string of the embedding. *)
Definition units_of (s : string) : list N :=
  List.map N_of_ascii (list_ascii_of_string s).

(** ** The provider's documents *)

Record main_now : Type := {
  temp : option number;
  feels_like : option number
}.

(** The JSON object of an answer: the members the handlers read, each
    possibly absent (or null); [samples] is [data.list || []], an absent
    [weather] is the empty list. *)
Record document : Type := {
  name : option string;
  main : option main_now;
  weather : list Item.weather_t;
  samples : list Item.sample
}.

(** What [fetch(url)] and the reading of its response come to. *)
Inductive fetched : Type :=
| Unreachable (e : error)                       (* fetch rejects *)
| Refused (status : N) (text : option string)   (* r.ok is false; no text
                                                   when r.text() rejects *)
| Answered (data : outcome document).           (* r.ok; r.json() *)

(** The decimal digits of a status code. *)
Definition decimal (n : N) : string := NilZero.string_of_uint (N.to_uint n).

(** [owGet(url)] *)
Definition owGet (fetch : string -> fetched) (url : string) : outcome document :=
  match fetch url with
  | Unreachable e => Throw e
  | Refused status text =>
      Throw (Error ("OpenWeather error: " ++ decimal status ++ " "
                      ++ match text with Some t => t | None => "" end))
  | Answered data => data
  end.

(** The configuration and the surroundings of one request: the
    environment variable, the clock and the provider. *)
Record environment : Type := {
  OPENWEATHER_API_KEY : option string;
  now : Z;                              (* Date.now() *)
  fetch : string -> fetched
}.

(** [String(process.env.OPENWEATHER_API_KEY || "").trim()] *)
Definition OW_KEY (env : environment) : string :=
  trim (str_or (OPENWEATHER_API_KEY env) "").

(** [requireOwKey(res)]: the 500 response it sent, if the key is
    missing. *)
Definition requireOwKey (env : environment) : option response :=
  if falsy (OW_KEY env)
  then Some (sendJson 500
               (JObj [("error", JStr "OPENWEATHER_API_KEY missing. Set it in environment and restart backend. Example: OPENWEATHER_API_KEY=xxx npm run dev")]))
  else None.

(** The two request URLs. *)
Definition owUrl (endpoint : string) (env : environment) (city lang : string) : string :=
  "https://api.openweathermap.org/data/2.5/" ++ endpoint ++ "?q="
    ++ encodeURIComponent city ++ "&appid=" ++ OW_KEY env
    ++ "&units=metric&lang=" ++ encodeURIComponent lang.

(** [e?.message || fallback] *)
Definition message_or (e : error) (fallback : string) : json :=
  match e with
  | Error m => JStr (str_or (Some m) fallback)
  | _ => JMessage e
  end.

(** ** Vocabulary of the statements *)

(** An unreserved character or the percent sign. *)
Definition url_safe (c : ascii) : bool :=
  unreserved c || Ascii.eqb c "%".

Fixpoint all_safe (s : string) : bool :=
  match s with
  | String c s' => url_safe c && all_safe s'
  | EmptyString => true
  end.

(** The value of an upper-case hexadecimal digit. *)
Definition hex_value (c : ascii) : option N :=
  let n := N_of_ascii c in
  if ((48 <=? n) && (n <=? 57))%N then Some (n - 48)%N
  else if ((65 <=? n) && (n <=? 70))%N then Some (n - 55)%N
  else None.

(** Reads one [%XX]. *)
Definition unescape (s : string) : option (N * string) :=
  match s with
  | String "%" (String hi (String lo rest)) =>
      match hex_value hi, hex_value lo with
      | Some h, Some l => Some (16 * h + l, rest)%N
      | _, _ => None
      end
  | _ => None
  end.

(** Reads back what [encode_unit] wrote at the head of a text. *)
Definition decode_unit (s : string) : option (ascii * string) :=
  match s with
  | String "%" _ =>
      match unescape s with
      | Some (b, rest) =>
          if (b <? 128)%N then Some (ascii_of_N b, rest)
          else match unescape rest with
               | Some (b', rest') => Some (ascii_of_N ((b - 192) * 64 + (b' - 128)), rest')
               | None => None
               end
      | None => None
      end
  | String c rest => Some (c, rest)
  | EmptyString => None
  end.

End Upstream.

(* ================================================================== *)
(** * The router (index.ts, lines 150-474) *)
(* ================================================================== *)

Module Router.
Import JS Node Password Server Accounts Upstream.

(** The request target after [new URL(req.url || "/", base)]: the
    constructor throws on text that is no URL. *)
Inductive target : Type :=
| Unparsable
| Parsed (pathname : string) (searchParams : list (string * string)).

Record incoming : Type := {
  message : request;
  url : target
}.

(** [url.searchParams.get(name)]: the first value of that name. *)
Definition get (searchParams : list (string * string)) (name : string) : option string :=
  option_map snd (List.find (fun p => String.eqb (fst p) name) searchParams).

(** What the server sends. *)
Inductive reply : Type :=
| NoContent                                     (* 204, no body *)
| Json (r : response)
| HistoryRows (history : list HistoryRow.t)     (* 200 { history } *)
| WeatherNow (city : option string) (temp feels_like : option number)
             (description icon : string)       (* 200 *)
| ForecastDays (city : string) (forecast : list Forecast.ForecastDay).  (* 200 *)

Definition status_of (r : reply) : Z :=
  match r with
  | NoContent => 204
  | Json r => status r
  | HistoryRows _ | WeatherNow _ _ _ _ _ | ForecastDays _ _ => 200
  end.

(** The state of the process and of the database. *)
Record world : Type := {
  core : state;
  searches : History.table
}.

Definition W (A : Type) : Type := world -> outcome A * world.

Definition wret {A} (a : A) : W A := fun w => (Return a, w).

Definition wthrow {A} (e : error) : W A := fun w => (Throw e, w).

Definition wbind {A B} (c : W A) (k : A -> W B) : W B :=
  fun w =>
    match c w with
    | (Return a, w') => k a w'
    | (Throw e, w') => (Throw e, w')
    end.

Declare Scope world_scope.
Delimit Scope world_scope with world.
Notation "x <- c ;; k" := (wbind c (fun x => k))
  (at level 100, c at next level, right associativity) : world_scope.
Notation "c ;;; k" := (wbind c (fun _ => k))
  (at level 100, right associativity) : world_scope.
Local Open Scope world_scope.

(** A handler that touches the sessions and the users only. *)
Definition of_core {A} (c : M A) : W A :=
  fun w =>
    let '(o, s) := c (core w) in
    (o, {| core := s; searches := searches w |}).

Definition get_searches : W History.table := fun w => (Return (searches w), w).

(** [INSERT INTO searches(user_id, city, lang, created_at)]; [user_id]
    references [users(id)], and better-sqlite3 opens a database with
    foreign keys enforced. *)
Definition insert_search (userId : Z) (city lang : string) (created_at : Z) : W unit :=
  fun w =>
    if existsb (fun u => Store.id u =? userId) (users (core w))
    then (Return tt,
          {| core := core w;
             searches := (searches w ++ [{| Search.user_id := userId; Search.city := city;
                                           Search.lang := lang;
                                           Search.created_at := created_at |}])%list |})
    else (Throw (Error "FOREIGN KEY constraint failed"), w).

Definition notFound : response := sendJson 404 (JObj [("error", JStr "Not found")]).

(** GET /history *)
Definition history_get (req : request) : W reply :=
  auth <- of_core (requireAuth req) ;;
  match auth with
  | inl unauthorized => wret (Json unauthorized)
  | inr userId =>
      rows <- get_searches ;;
      wret (HistoryRows (History.select_history userId rows))
  end.

(** POST /history *)
Definition history_post (env : environment) (req : request) : W reply :=
  auth <- of_core (requireAuth req) ;;
  match auth with
  | inl unauthorized => wret (Json unauthorized)
  | inr userId =>
      body <- of_core (readJsonBody req) ;;
      let city := trim (str_or (body !! "city") "") in
      let lang := trim (str_or (body !! "lang") "en") in
      if falsy city
      then wret (Json (sendJson 400 (JObj [("error", JStr "city is required")])))
      else if negb (existsb (String.eqb lang) ["en"; "ru"])
      then wret (Json (sendJson 400 (JObj [("error", JStr "lang must be en|ru")])))
      else
        insert_search userId city lang (now env) ;;;
        wret (Json (sendJson 200 (JObj [("success", JBool true)])))
  end.

(** GET /api/weather *)
Definition api_weather (env : environment) (searchParams : list (string * string)) : reply :=
  match requireOwKey env with
  | Some missing => Json missing
  | None =>
      let city := trim (str_or (get searchParams "city") "") in
      let lang := trim (str_or (get searchParams "lang") "en") in
      if falsy city
      then Json (sendJson 400 (JObj [("error", JStr "city is required")]))
      else
        match owGet (fetch env) (owUrl "weather" env city lang) with
        | Return data =>
            WeatherNow (name data)
              (match main data with Some m => temp m | None => None end)
              (match main data with Some m => feels_like m | None => None end)
              (match weather data with
               | w :: _ => match Item.description w with Some d => d | None => "" end
               | [] => ""
               end)
              (match weather data with
               | w :: _ => match Item.icon w with Some i => i | None => "" end
               | [] => ""
               end)
        | Throw e => Json (sendJson 500 (JObj [("error", message_or e "weather error")]))
        end
  end.

(** GET /api/forecast *)
Definition api_forecast (env : environment) (searchParams : list (string * string)) : reply :=
  match requireOwKey env with
  | Some missing => Json missing
  | None =>
      let city := trim (str_or (get searchParams "city") "") in
      let lang := trim (str_or (get searchParams "lang") "en") in
      if falsy city
      then Json (sendJson 400 (JObj [("error", JStr "city is required")]))
      else
        match bind (owGet (fetch env) (owUrl "forecast" env city lang))
                (fun data => Forecast.forecast (samples data)) with
        | Return forecast => ForecastDays city forecast
        | Throw e => Json (sendJson 500 (JObj [("error", message_or e "forecast error")]))
        end
  end.

(** The [catch] of the request listener (lines 471-473). *)
Definition caught (out : outcome reply * world) : reply * world :=
  match out with
  | (Return r, w') => (r, w')
  | (Throw e, w') => (Json (server_error e), w')
  end.

Section Routes.
Context `{Pbkdf2}.

Definition json (h : M response) : W reply :=
  r <- of_core h ;; wret (Json r).

(** The body of the [try] of the request listener. *)
Definition route (env : environment) (rq : incoming) : W reply :=
  let req := message rq in
  if String.eqb (method req) "OPTIONS" then wret NoContent
  else
    match url rq with
    | Unparsable => wthrow (Error "Invalid URL")
    | Parsed path searchParams =>
        if String.eqb path "/" && String.eqb (method req) "GET"
        then wret (Json (sendJson 200 (JObj [("message", JStr "Backend is working!")])))
        else if String.eqb path "/auth/register" then json (register req)
        else if String.eqb path "/auth/login" then json (login req)
        else if String.eqb path "/auth/logout" then json (logout req)
        else if String.eqb path "/auth/request-reset"
        then json (request_reset (now env) req)
        else if String.eqb path "/auth/reset" then json (reset (now env) req)
        else if String.eqb path "/me" then json (me req)
        else if String.eqb path "/me/theme" then json (me_theme req)
        else if String.eqb path "/history" && String.eqb (method req) "GET"
        then history_get req
        else if String.eqb path "/history" && String.eqb (method req) "POST"
        then history_post env req
        else if String.eqb path "/api/weather" && String.eqb (method req) "GET"
        then wret (api_weather env searchParams)
        else if String.eqb path "/api/forecast" && String.eqb (method req) "GET"
        then wret (api_forecast env searchParams)
        else wret (Json notFound)
    end.

(** The request listener: the [try] and its [catch].  A handler awaits
    the request body and the provider only, and reads and writes the
    sessions and the database in one go after the body has arrived (the
    database calls are synchronous): requests act on the state one after
    the other. *)
Definition listener (env : environment) (rq : incoming) (w : world) : reply * world :=
  caught (route env rq w).

End Routes.

(** ** Vocabulary of the statements *)

(** The invariant of the process: the users table is as the schema keeps
    it, and sessions and searches belong to rows of it. *)
Definition consistent (w : world) : Prop :=
  table_ok (users (core w)) /\
  sessions_ok (core w) /\
  List.Forall (fun r => known (users (core w)) (Search.user_id r)) (searches w).

(** The columns of a user that no statement updates. *)
Definition identity (u : Store.user) : Z * string * string :=
  (Store.id u, Store.email u, Store.name u).

(** What one request may do to the users table: nothing, an UPDATE by
    id that keeps the identity columns, or the INSERT of a row with a new
    e-mail. *)
Inductive users_step (t : Store.table) : Store.table -> Prop :=
| users_same : users_step t t
| users_updated (set : Store.user -> Store.user) (i : Z) :
    (forall u, identity (set u) = identity u) ->
    users_step t (Store.update_where_id set i t)
| users_inserted (email name password_hash : string) :
    Store.select_by_email email t = None ->
    users_step t (t ++ [new_user (next_id t) email name password_hash])%list.

(** To the session map: nothing, a token for a user of the table, or
    the removal of a token. *)
Inductive sessions_step (t : Store.table) (m : gmap string Z) : gmap string Z -> Prop :=
| sessions_same : sessions_step t m m
| sessions_issued (token : string) (userId : Z) :
    known t userId -> sessions_step t m (<[token := userId]> m)
| sessions_revoked (token : string) : sessions_step t m (delete token m).

(** To the searches: nothing, or one more row of a user of the table. *)
Inductive searches_step (t : Store.table) (rows : History.table) : History.table -> Prop :=
| searches_same : searches_step t rows rows
| searches_inserted (r : Search.row) :
    known t (Search.user_id r) -> searches_step t rows (rows ++ [r])%list.

(** A handler of the account routes: one step of the users and one of
    the sessions. *)
Definition core_step (s s' : state) : Prop :=
  users_step (users s) (users s') /\
  sessions_step (users s') (sessions s) (sessions s').

Definition transition (w w' : world) : Prop :=
  users_step (users (core w)) (users (core w')) /\
  sessions_step (users (core w')) (sessions (core w)) (sessions (core w')) /\
  searches_step (users (core w')) (searches w) (searches w').

(** The errors [crypto.pbkdf2Sync] throws. *)
Definition pbkdf2_error (e : error) : Prop :=
  e = ERR_OUT_OF_RANGE "iterations" \/ exists digest, e = ERR_CRYPTO_INVALID_DIGEST digest.

(** What a handler of the account routes throws for a body that arrived
    whole and is either not JSON or an object of strings. *)
Definition core_error (req : request) (e : error) : Prop :=
  e = Error "Invalid JSON" /\ body req = Malformed \/ pbkdf2_error e.

(** The status codes of the answers to a path, for a method other than
    OPTIONS and apart from the 500 of the [catch]. *)
Definition codes (path : string) : list Z :=
  if String.eqb path "/" then [200; 404]
  else if String.eqb path "/auth/register" then [201; 400; 405; 409]
  else if String.eqb path "/auth/login" then [200; 400; 401; 405]
  else if String.eqb path "/auth/logout" then [200; 405]
  else if String.eqb path "/auth/request-reset" then [200; 400; 405]
  else if String.eqb path "/auth/reset" then [200; 400; 405]
  else if String.eqb path "/me" then [200; 401; 405]
  else if String.eqb path "/me/theme" then [200; 400; 401; 405]
  else if String.eqb path "/history" then [200; 400; 401; 404]
  else if String.eqb path "/api/weather" then [200; 400; 404]
  else if String.eqb path "/api/forecast" then [200; 400; 404]
  else [404].

(** What a handler of the account routes did: nothing, or a write on
    its own method, answered with 200 or 201 unless an error was thrown. *)
Definition effect (m : string) (req : request) (s : state)
    (out : outcome response * state) : Prop :=
  snd out = s \/
  (method req = m /\
   match fst out with
   | Return r => status r = 200 \/ status r = 201
   | Throw _ => True
   end).

(** The routes that write: path and method. *)
Definition writers : list (string * string) :=
  [("/auth/register", "POST"); ("/auth/login", "POST"); ("/auth/logout", "POST");
   ("/auth/request-reset", "POST"); ("/auth/reset", "POST"); ("/me/theme", "PUT");
   ("/history", "POST")].

(** Several requests, one after the other. *)
Fixpoint serve_all `{Pbkdf2} (rqs : list (environment * incoming)) (w : world) : world :=
  match rqs with
  | (env, rq) :: rest => serve_all rest (snd (listener env rq w))
  | [] => w
  end.

End Router.

(* ================================================================== *)
(** * The weather page (fronted/app/weather/page.tsx) *)
(* ================================================================== *)

Module Frontend.
Import JS.

(** A template literal prints a missing array element as "undefined". *)
Definition interpolate (x : option string) : string :=
  match x with Some s => s | None => "undefined" end.

(** [formatDateShort(iso)] (lines 89-93) *)
Definition formatDateShort (iso : string) : string :=
  let parts := split "-" iso in
  interpolate (nth_error parts 1) ++ "." ++ interpolate (nth_error parts 2).

(** [set.add(x)] on the insertion order of a [Set]. *)
Definition add (seen : list string) (x : string) : list string :=
  if existsb (String.eqb x) seen then seen else (seen ++ [x])%list.

(** [Array.from(new Set(l))]: the elements in the order of their first
    occurrence. *)
Definition from_set (l : list string) : list string := fold_left add l [].

(** [addFavourite] (lines 303-309): the favourites after the click, for
    the text of the city field. *)
Definition addFavourite (city : string) (favs : list string) : list string :=
  let c := trim city in
  if falsy c then favs
  else firstn 10 (from_set (c :: favs)).

(** [favs.slice(0, 6)], the favourites shown. *)
Definition favourites (favs : list string) : list string := firstn 6 favs.

End Frontend.

(* ================================================================== *)
(** * More concrete data for the worked cases *)
(* ================================================================== *)

Module Sample.
Import JS Node Password Server Accounts Upstream Router.

(** No API key and no network. *)
Definition offline : environment :=
  {| OPENWEATHER_API_KEY := None; now := 1700000000000;
     fetch := fun _ => Unreachable (Error "fetch failed") |}.

Definition world0 : world := {| core := Demo.st; searches := [] |}.

Definition to (path : string) (req : request) : incoming :=
  {| message := req; url := Parsed path [] |}.

Definition get_as (token : string) : request :=
  {| method := "GET"; authorization := Some ("Bearer " ++ token); body := Fields ∅ |}.

Definition post_as (token : string) (fields : list (string * string)) : request :=
  {| method := "POST"; authorization := Some ("Bearer " ++ token);
     body := Fields (list_to_map fields) |}.

(** A provider that knows the forecast of Riga only. *)
Definition online : environment :=
  {| OPENWEATHER_API_KEY := Some " k3y ";
     now := 1700000000000;
     fetch := fun url =>
       if String.eqb url
            "https://api.openweathermap.org/data/2.5/forecast?q=Riga&appid=k3y&units=metric&lang=en"
       then Answered (Return {| name := None; main := None; weather := [];
                                samples := Demo.two_days |})
       else Refused 404 (Some "city not found") |}.

(** A sample whose [dt_txt] names a member that every object inherits. *)
Definition misdated : list Item.sample :=
  [ Demo.reading "2024-01-01 00:00:00" 2%float;
    Demo.described "toString" 3%float "mist" "50d" ].

(** A provider whose documents are a well-dated one for Riga and a
    misdated one for Turku. *)
Definition mixed : environment :=
  {| OPENWEATHER_API_KEY := Some "k3y";
     now := 1700000000000;
     fetch := fun url =>
       if String.eqb url
            "https://api.openweathermap.org/data/2.5/forecast?q=Turku&appid=k3y&units=metric&lang=en"
       then Answered (Return {| name := None; main := None; weather := [];
                                samples := misdated |})
       else Answered (Return {| name := None; main := None; weather := [];
                                samples := Demo.two_days |}) |}.

(** A key, and a provider that cannot be reached. *)
Definition down : environment :=
  {| OPENWEATHER_API_KEY := Some "k3y"; now := 1700000000000;
     fetch := fun _ => Unreachable (Error "fetch failed") |}.

(** A registration, a search of the registered session of the demo
    state, and a login that fails. *)
Definition visit : list (environment * incoming) :=
  [ (offline, to "/auth/register"
                (Demo.post [("email", "Carol@Example.com"); ("name", "Carol");
                            ("password", "correct horse")]));
    (offline, to "/history" (post_as Demo.alice_session [("city", "Riga")]));
    (offline, to "/auth/login"
                (Demo.post [("email", "bob@example.com"); ("password", "guess")])) ].

End Sample.

(* ================================================================== *)
(** * Properties *)
(* ================================================================== *)

Import JS Node Password Server Forecast.

Section Basics.

Lemma falsy_false_ne (s : string) : falsy s = false <-> s <> "".
Proof. destruct s; simpl; split; congruence. Qed.

End Basics.

(** ** The runtime model on known values *)

Section Runtime.

Example Number_decimal :
  (Number "120000", Number " 12 ", Number "1.5", Number "-5", Number "1e3")
  = (120000, 12, 1.5, -5, 1000)%float.
Proof. vm_compute. reflexivity. Qed.

Example Number_empty_is_zero : (Number "", Number "  ") = (0, 0)%float.
Proof. vm_compute. reflexivity. Qed.

Example Number_not_a_number :
  (Number "abc", Number "12px", Number "1e", Number ".", Number "0x") = (nan, nan, nan, nan, nan).
Proof. vm_compute. reflexivity. Qed.

Example Number_radix_and_infinity :
  (Number "0x1F", Number "0b101", Number "Infinity", Number "-Infinity", Number "1e999")
  = (31%float, 5%float, infinity, neg_infinity, infinity).
Proof. vm_compute. reflexivity. Qed.

Example Number_rounds_to_nearest :
  (Number "0.1", Number "9007199254740993", Number "1.00000000000000000001")
  = (0.1, 9007199254740992, 1)%float.
Proof. vm_compute. reflexivity. Qed.

Example isFinite_values :
  map isFinite [Number "0"; Number "1e999"; Number "abc"; Number "-Infinity"]
  = [true; false; false; false].
Proof. vm_compute. reflexivity. Qed.

Example Math_round_values :
  map Math_round [12.5; -12.5; 2.5; -2.5; 0.4; 20; 0.49999999999999994]%float
  = [13; -12; 3; -2; 0; 20; 0]%float.
Proof. vm_compute. reflexivity. Qed.

Example Math_round_negative_zero :
  map (fun x => is_neg_zero (Math_round x)) [-0.4; -0.5; 0.4]%float
  = [true; true; false].
Proof. vm_compute. reflexivity. Qed.

Example Math_min_max_values :
  (Math_min 2 5, Math_max 2 5, Math_min (-1) 3, Math_max (-1) 3)%float
  = (2, 5, -1, 3)%float.
Proof. vm_compute. reflexivity. Qed.

Example split_fields :
  (split "$" "pbkdf2$sha256$120000$ab$cd", split "$" "", split "$" "a$")
  = (["pbkdf2"; "sha256"; "120000"; "ab"; "cd"], [""], ["a"; ""]).
Proof. reflexivity. Qed.

Example trim_and_lower : toLowerCase (trim "  Bob@Example.COM ") = "bob@example.com".
Proof. reflexivity. Qed.

Example hex_round_trip : toHex (fromHex "00ff7A") = "00ff7a".
Proof. reflexivity. Qed.

Example fromHex_stops_at_bad_pair : (toHex (fromHex "1azz22"), toHex (fromHex "abc")) = ("1a", "ab").
Proof. reflexivity. Qed.

Example PBKDF2_ITER_rendering : Number PBKDF2_ITER_text = PBKDF2_ITER.
Proof. vm_compute. reflexivity. Qed.

End Runtime.

(** ** The credential codec *)

Section Credentials.
Context `{Pbkdf2}.

(** The guard on the number of fields. *)
Lemma verifyPassword_field_count password stored :
  length (split "$" stored) <> 5%nat -> verifyPassword password stored = Return false.
Proof.
  unfold verifyPassword.
  destruct (split "$" stored) as [|a [|b [|c [|d [|e [|g l]]]]]]; simpl; congruence.
Qed.

Lemma keylen_valid : validateInt32 KEYLEN "keylen" 0 = Return 32.
Proof. vm_compute. reflexivity. Qed.

Lemma validateInt32_refused x name min :
  (integer_value x = None \/
   exists n, integer_value x = Some n /\ (n < min \/ 2147483647 < n)) ->
  validateInt32 x name min = Throw (ERR_OUT_OF_RANGE name).
Proof.
  unfold validateInt32. intros [-> | (n & -> & Hn)]; [reflexivity|].
  destruct (Z.ltb_spec n min), (Z.ltb_spec 2147483647 n); reflexivity || lia.
Qed.

Lemma validateInt32_accepted x name min n :
  integer_value x = Some n -> min <= n <= 2147483647 ->
  validateInt32 x name min = Return n.
Proof.
  unfold validateInt32. intros -> Hn.
  destruct (Z.ltb_spec n min), (Z.ltb_spec 2147483647 n); reflexivity || lia.
Qed.

Lemma verifyPassword_not_finite password stored a digest iterStr salt hashHex :
  split "$" stored = [a; digest; iterStr; salt; hashHex] ->
  isFinite (Number iterStr) = false ->
  verifyPassword password stored = Return false.
Proof.
  intros Hs Hf. unfold verifyPassword. rewrite Hs, Hf. cbn [negb].
  now rewrite !orb_true_r.
Qed.

(** [verifyPassword] returns a boolean once the iteration count and the
    digest pass Node's checks. *)
Lemma verifyPassword_returns password stored a digest iterStr salt hashHex n :
  split "$" stored = [a; digest; iterStr; salt; hashHex] ->
  validateInt32 (Number iterStr) "iterations" 1 = Return n ->
  known_digest digest = true ->
  exists b, verifyPassword password stored = Return b.
Proof.
  intros Hs Hn Hd. unfold verifyPassword. rewrite Hs.
  destruct (falsy digest || falsy salt || falsy hashHex
            || negb (isFinite (Number iterStr))); [now exists false|].
  unfold pbkdf2Sync. rewrite Hn, keylen_valid, Hd. cbn [bind].
  destruct (negb _) eqn:Hlen; [now exists false|].
  unfold timingSafeEqual. rewrite Nat.eqb_sym, Hlen. eauto.
Qed.

(** When it throws, the error is the one of [pbkdf2Sync]: the iteration
    count or the digest was refused. *)
Lemma verifyPassword_throws password stored e :
  verifyPassword password stored = Throw e ->
  exists a digest iterStr salt hashHex,
    split "$" stored = [a; digest; iterStr; salt; hashHex] /\
    isFinite (Number iterStr) = true /\
    (validateInt32 (Number iterStr) "iterations" 1 = Throw e \/
     known_digest digest = false /\ e = ERR_CRYPTO_INVALID_DIGEST digest).
Proof.
  unfold verifyPassword.
  destruct (split "$" stored) as [|a [|digest [|iterStr [|salt [|hashHex [|g l]]]]]];
    try discriminate.
  destruct (isFinite (Number iterStr)) eqn:Hf;
    [|rewrite !orb_true_r; discriminate].
  destruct (falsy digest || falsy salt || falsy hashHex || negb true);
    [discriminate|].
  intros Ht. exists a, digest, iterStr, salt, hashHex.
  split; [reflexivity|]. split; [exact Hf|].
  unfold pbkdf2Sync in Ht.
  destruct (validateInt32 (Number iterStr) "iterations" 1) as [n|e'] eqn:Hn;
    cbn [bind] in Ht; [|left; congruence].
  rewrite keylen_valid in Ht. cbn [bind] in Ht.
  destruct (known_digest digest) eqn:Hd; cbn [bind] in Ht.
  - destruct (negb _) eqn:Hlen in Ht; [discriminate|].
    unfold timingSafeEqual in Ht. rewrite Nat.eqb_sym, Hlen in Ht. discriminate.
  - right. split; [reflexivity | congruence].
Qed.

End Credentials.

(** POST /auth/login for an account whose stored credential has the
    iteration count 0: the error of [pbkdf2Sync] reaches the router, and
    the answer is 500. *)
Lemma login_answers_500 `{Pbkdf2} :
  Store.password_hash Demo.bob = "pbkdf2$sha256$0$00ff$00ff" /\
  serve (login (Demo.post [("email", "bob@example.com"); ("password", "hunter2")]))
        Demo.st
  = (sendJson 500 (JObj [("error", JMessage (ERR_OUT_OF_RANGE "iterations"))]),
     Demo.st).
Proof. split; [reflexivity | vm_compute; reflexivity]. Qed.

(** C1 (credential verification; the code departs from the
    specification).  On a stored encoding of five fields with a non-empty
    digest, salt and hash and a finite iteration count, [verifyPassword]
    does not return [false] but throws: the range error of [pbkdf2Sync]
    when the count is not an integer or lies outside 1..2^31-1 (zero, a
    negative number, a fraction, the empty field, whose Number is 0), and
    its digest error when the count is accepted and the platform does not
    know the digest name. *)
Theorem verifyPassword_throws_on_malformed `{Pbkdf2}
    password stored a digest iterStr salt hashHex :
  split "$" stored = [a; digest; iterStr; salt; hashHex] ->
  digest <> "" -> salt <> "" -> hashHex <> "" ->
  isFinite (Number iterStr) = true ->
  ((integer_value (Number iterStr) = None \/
    exists n, integer_value (Number iterStr) = Some n /\ (n < 1 \/ 2147483647 < n)) ->
   verifyPassword password stored = Throw (ERR_OUT_OF_RANGE "iterations"))
  /\ (forall n, integer_value (Number iterStr) = Some n -> 1 <= n <= 2147483647 ->
      known_digest digest = false ->
      verifyPassword password stored = Throw (ERR_CRYPTO_INVALID_DIGEST digest)).
Proof.
  intros Hs Hd Hsalt Hh Hf. apply falsy_false_ne in Hd, Hsalt, Hh.
  unfold verifyPassword. rewrite Hs, Hd, Hsalt, Hh, Hf. cbn [orb negb].
  unfold pbkdf2Sync. split.
  - intros Hbad. now rewrite validateInt32_refused.
  - intros n Hn Hrange Hk.
    rewrite (validateInt32_accepted _ _ _ n Hn) by lia.
    cbn [bind]. rewrite keylen_valid. cbn [bind]. now rewrite Hk.
Qed.

(** C1 on the stand-in platform, which does not know "md99": the
    iteration counts 0, -1, 1.5 and the empty field, and an unknown
    digest. *)
Lemma verifyPassword_throws_on_malformed_witness :
  let H := Demo.platform in
  verifyPassword "hunter2" "pbkdf2$sha256$0$00ff$00ff"
    = Throw (ERR_OUT_OF_RANGE "iterations")
  /\ verifyPassword "hunter2" "pbkdf2$sha256$-1$00ff$00ff"
    = Throw (ERR_OUT_OF_RANGE "iterations")
  /\ verifyPassword "hunter2" "pbkdf2$sha256$1.5$00ff$00ff"
    = Throw (ERR_OUT_OF_RANGE "iterations")
  /\ verifyPassword "hunter2" "pbkdf2$sha256$$00ff$00ff"
    = Throw (ERR_OUT_OF_RANGE "iterations")
  /\ verifyPassword "hunter2" "pbkdf2$md99$10$00ff$00ff"
    = Throw (ERR_CRYPTO_INVALID_DIGEST "md99").
Proof.
  intros H.
  assert (Hne : forall c s, String c s <> "") by discriminate.
  assert (Hz : integer_value (Number "0") = Some 0) by (vm_compute; reflexivity).
  assert (Hm : integer_value (Number "-1") = Some (-1)) by (vm_compute; reflexivity).
  assert (Hh : integer_value (Number "1.5") = None) by (vm_compute; reflexivity).
  assert (He : integer_value (Number "") = Some 0) by (vm_compute; reflexivity).
  assert (Ht : integer_value (Number "10") = Some 10) by (vm_compute; reflexivity).
  split; [|split; [|split; [|split]]].
  - apply (verifyPassword_throws_on_malformed "hunter2" "pbkdf2$sha256$0$00ff$00ff"
             "pbkdf2" "sha256" "0" "00ff" "00ff" eq_refl (Hne _ _) (Hne _ _) (Hne _ _)
             eq_refl).
    right. exists 0. split; [exact Hz | lia].
  - apply (verifyPassword_throws_on_malformed "hunter2" "pbkdf2$sha256$-1$00ff$00ff"
             "pbkdf2" "sha256" "-1" "00ff" "00ff" eq_refl (Hne _ _) (Hne _ _) (Hne _ _)
             eq_refl).
    right. exists (-1). split; [exact Hm | lia].
  - apply (verifyPassword_throws_on_malformed "hunter2" "pbkdf2$sha256$1.5$00ff$00ff"
             "pbkdf2" "sha256" "1.5" "00ff" "00ff" eq_refl (Hne _ _) (Hne _ _) (Hne _ _)
             eq_refl).
    left. exact Hh.
  - apply (verifyPassword_throws_on_malformed "hunter2" "pbkdf2$sha256$$00ff$00ff"
             "pbkdf2" "sha256" "" "00ff" "00ff" eq_refl (Hne _ _) (Hne _ _) (Hne _ _)
             eq_refl).
    right. exists 0. split; [exact He | lia].
  - apply (proj2 (verifyPassword_throws_on_malformed "hunter2" "pbkdf2$md99$10$00ff$00ff"
             "pbkdf2" "md99" "10" "00ff" "00ff" eq_refl (Hne _ _) (Hne _ _) (Hne _ _)
             eq_refl) 10 Ht); [lia | reflexivity].
Defined.

(** ** The session registry *)

Section Tokens.

Lemma trimStart_spaceless s : spaceless s = true -> trimStart s = s.
Proof.
  destruct s as [|c s]; simpl; [reflexivity|].
  now destruct (is_space c).
Qed.

Lemma trimEnd_spaceless s : spaceless s = true -> trimEnd s = s.
Proof.
  induction s as [|c s IH]; simpl; [reflexivity|].
  destruct (is_space c) eqn:Hc; simpl; [discriminate|].
  intros Hs. rewrite (IH Hs). now destruct s.
Qed.

Lemma trim_spaceless s : spaceless s = true -> trim s = s.
Proof.
  intros Hs. unfold trim. rewrite trimStart_spaceless by exact Hs.
  now apply trimEnd_spaceless.
Qed.

Lemma hex_digit_not_space n : is_space (hex_digit n) = false.
Proof.
  unfold hex_digit.
  assert (Hall : Forall (fun c => is_space c = false)
                   ("f"%char :: list_ascii_of_string "0123456789abcdef"))
    by (repeat constructor).
  rewrite List.Forall_forall in Hall. apply Hall.
  destruct (nth_in_or_default (N.to_nat n)
              (list_ascii_of_string "0123456789abcdef") "f"%char) as [Hin | Hd].
  - now right.
  - rewrite Hd. now left.
Qed.

Lemma toHex_spaceless buf : spaceless (toHex buf) = true.
Proof.
  induction buf as [|b buf IH]; simpl; [reflexivity|].
  now rewrite !hex_digit_not_space, IH.
Qed.

Lemma toHex_falsy buf : buf <> [] -> falsy (toHex buf) = false.
Proof. destruct buf; [congruence|reflexivity]. Qed.

Lemma bearer_token t :
  spaceless t = true ->
  forall req, authorization req = Some ("Bearer " ++ t) -> getAuthToken req = t.
Proof.
  intros Ht req Hreq. unfold getAuthToken. rewrite Hreq.
  assert (Hs : str_or (Some ("Bearer " ++ t)) "" = "Bearer " ++ t) by reflexivity.
  rewrite Hs. clear Hs.
  assert (Hp : startsWith "Bearer " ("Bearer " ++ t) = true)
    by (unfold startsWith; cbn; now destruct t).
  rewrite Hp. cbn. now apply trim_spaceless.
Qed.

End Tokens.

Section SessionRegistry.

Lemma resolve_insert (m : gmap string Z) t u :
  falsy t = false -> u <> 0 -> resolve (<[t := u]> m) t = Some u.
Proof.
  intros Ht Hu. unfold resolve. rewrite lookup_insert_eq, Ht. simpl.
  now destruct (Z.eqb_spec u 0).
Qed.

(** [requireAuth] takes the id 0 for no user. *)
Lemma resolve_zero (m : gmap string Z) t : resolve (<[t := 0]> m) t = None.
Proof. unfold resolve. rewrite lookup_insert_eq. now rewrite orb_true_r. Qed.

Lemma resolve_delete (m : gmap string Z) t : resolve (delete t m) t = None.
Proof. unfold resolve. now rewrite lookup_delete_eq. Qed.

Lemma resolve_empty_token (m : gmap string Z) : resolve m "" = None.
Proof. unfold resolve. now destruct (m !! ""). Qed.

Lemma logout_post st req :
  method req = "POST" ->
  serve (logout req) st =
    (success,
     if falsy (getAuthToken req) then st
     else {| sessions := delete (getAuthToken req) (sessions st);
             users := users st; random := random st |}).
Proof.
  intros Hm. unfold serve, logout. rewrite Hm. simpl.
  unfold mbind, get_sessions, put_sessions, ret.
  now destruct (falsy (getAuthToken req)).
Qed.

End SessionRegistry.

(** C8 (session registry).  A token just issued for a user maps to that
    user in the session map; for every user id other than 0 (the ids of
    users are AUTOINCREMENT row ids, from 1 on) it resolves to that user,
    also when it is presented to [requireAuth] in a Bearer header.  After POST /auth/logout
    with a token, that token resolves to nothing.  Logging out with a token
    that is absent from the map, or a second time with the same token,
    changes nothing and still answers 200 [{success: true}]. *)
Theorem session_issue_resolve_revoke :
  (forall st u,
     exists t st', issue u st = (Return t, st') /\
       sessions st' !! t = Some u /\
       (u <> 0 ->
        resolve (sessions st') t = Some u /\
        forall req, authorization req = Some ("Bearer " ++ t) ->
          getAuthToken req = t /\ requireAuth req st' = (Return (inr u), st')))
  /\ (forall st req, method req = "POST" ->
     exists st', serve (logout req) st = (success, st') /\
       resolve (sessions st') (getAuthToken req) = None /\
       (sessions st !! getAuthToken req = None -> st' = st) /\
       serve (logout req) st' = (success, st')).
Proof.
  split.
  - intros st u.
    set (t := toHex (map (random st) (seq 0 24))).
    exists t.
    exists {| sessions := <[t := u]> (sessions st); users := users st;
              random := fun i => random st (24 + i)%nat |}.
    split; [reflexivity|]. cbn [sessions].
    split; [apply lookup_insert_eq|]. intros Hu.
    assert (Ht : falsy t = false) by (apply toHex_falsy; discriminate).
    assert (Hr : resolve (<[t := u]> (sessions st)) t = Some u)
      by now apply resolve_insert.
    split; [exact Hr|].
    intros req Hreq.
    assert (Hg : getAuthToken req = t)
      by (apply bearer_token; [apply toHex_spaceless | exact Hreq]).
    split; [exact Hg|].
    unfold requireAuth, mbind, get_sessions, ret. cbn [sessions].
    now rewrite Hg, Hr.
  - intros st req Hm. eexists. split; [now apply logout_post|].
    destruct (falsy (getAuthToken req)) eqn:Hf.
    + destruct (getAuthToken req) eqn:Hg; [|discriminate].
      split; [apply resolve_empty_token|]. split; [reflexivity|].
      rewrite logout_post by exact Hm. now rewrite Hg.
    + cbn [sessions]. split; [apply resolve_delete|]. split.
      * intros Hnone. rewrite delete_id by exact Hnone. now destruct st.
      * rewrite logout_post by exact Hm. rewrite Hf. cbn [sessions users random].
        now rewrite delete_delete_eq.
Qed.

(** C8 on the demo state: a session for user 2, the logout of the session
    of user 1, and a logout with a token that was never issued. *)
Lemma session_issue_resolve_revoke_witness :
  (exists t st', issue 2 Demo.st = (Return t, st') /\
     resolve (sessions st') t = Some 2 /\
     requireAuth {| method := "GET"; authorization := Some ("Bearer " ++ t);
                    body := Fields ∅ |} st' = (Return (inr 2), st'))
  /\ (let req := {| method := "POST";
                    authorization := Some ("Bearer " ++ Demo.alice_session);
                    body := Fields ∅ |} in
      exists st', serve (logout req) Demo.st = (success, st') /\
        resolve (sessions st') (getAuthToken req) = None /\
        serve (logout req) st' = (success, st'))
  /\ (let req := {| method := "POST"; authorization := Some "Bearer 00ff";
                    body := Fields ∅ |} in
      serve (logout req) Demo.st = (success, Demo.st)).
Proof.
  destruct session_issue_resolve_revoke as [Hissue Hrevoke].
  split; [|split].
  - assert (Hu : 2 <> 0) by discriminate.
    destruct (Hissue Demo.st 2) as (t & st' & Hi & _ & Hr).
    destruct (Hr Hu) as [Hr' Hauth].
    exists t, st'. split; [exact Hi|]. split; [exact Hr'|].
    exact (proj2 (Hauth {| method := "GET"; authorization := Some ("Bearer " ++ t);
                           body := Fields ∅ |} eq_refl)).
  - intros req.
    destruct (Hrevoke Demo.st req eq_refl) as (st' & Hl & Hn & _ & Hagain). eauto.
  - intros req.
    assert (Habsent : sessions Demo.st !! getAuthToken req = None)
      by (vm_compute; reflexivity).
    destruct (Hrevoke Demo.st req eq_refl) as (st' & Hl & _ & Hsame & _).
    now rewrite <- (Hsame Habsent) at 2.
Defined.

(** ** The reset flow *)

Section ResetRequest.

(** What POST /auth/request-reset does for a JSON body. *)
Lemma request_reset_run st now req f :
  method req = "POST" -> body req = Fields f ->
  serve (request_reset now req) st =
    let email := toLowerCase (trim (str_or (f !! "email") "")) in
    if falsy email then (failure "email is required", st)
    else
      match Store.select_by_email email (users st) with
      | None => (success, st)
      | Some user =>
          let '(resetToken, src) := makeToken 16 (random st) in
          let expires := now + 15 * 60 * 1000 in
          (sendJson 200 (JObj [("success", JBool true);
                               ("resetToken", JStr resetToken);
                               ("expires", JNum expires)]),
           with_users (Store.update_where_id (Store.set_reset resetToken expires)
                         (Store.id user) (users st)) (with_random src st))
      end.
Proof.
  intros Hm Hb.
  unfold serve, request_reset, readJsonBody, mbind, get_users, put_users, ret,
    with_entropy, with_users, with_random.
  rewrite Hm, Hb. change (negb ("POST" =? "POST")%string) with false.
  cbv beta iota zeta.
  destruct (falsy (toLowerCase (trim (str_or (f !! "email") "")))); [reflexivity|].
  destruct (Store.select_by_email _ (users st)); reflexivity.
Qed.

End ResetRequest.

(** C7 (reset request; the code departs from the specification and from
    its own comment).  For a POST with a JSON body whose e-mail, trimmed
    and lower-cased, is not empty: when no user has that e-mail the answer
    is 200 [{success: true}] and nothing changes; when a user has it the
    answer is 200 with the members [success], [resetToken] and [expires].
    The two bodies differ in shape, so the response tells whether the
    e-mail is registered. *)
Theorem reset_request_shape_reveals_account st now req f :
  method req = "POST" -> body req = Fields f ->
  let email := toLowerCase (trim (str_or (f !! "email") "")) in
  email <> "" ->
  let out := serve (request_reset now req) st in
  (Store.select_by_email email (users st) = None -> out = (success, st))
  /\ (forall user, Store.select_by_email email (users st) = Some user ->
        status (fst out) = 200 /\
        shape (fst out) = ["success"; "resetToken"; "expires"] /\
        shape (fst out) <> shape success).
Proof.
  intros Hm Hb email Hne out. subst out.
  rewrite (request_reset_run st now req f Hm Hb). cbv zeta. fold email.
  apply falsy_false_ne in Hne. rewrite Hne. split.
  - now intros ->.
  - intros user ->. cbn. repeat split. discriminate.
Qed.

(** C7 on the demo state: a registered and an unregistered e-mail. *)
Lemma reset_request_shape_reveals_account_witness :
  let known := serve (request_reset 1700000000000
                        (Demo.post [("email", "Bob@Example.com ")])) Demo.st in
  let unknown := serve (request_reset 1700000000000
                          (Demo.post [("email", "nobody@example.com")])) Demo.st in
  unknown = (success, Demo.st) /\
  status (fst known) = 200 /\
  shape (fst known) = ["success"; "resetToken"; "expires"] /\
  shape (fst known) <> shape success.
Proof.
  intros known unknown.
  assert (Hknown : Store.select_by_email
                     (toLowerCase (trim (str_or
                        ((list_to_map [("email", "Bob@Example.com ")]
                            : gmap string string) !! "email") "")))
                     (users Demo.st) = Some Demo.bob) by (vm_compute; reflexivity).
  assert (Hunknown : Store.select_by_email
                     (toLowerCase (trim (str_or
                        ((list_to_map [("email", "nobody@example.com")]
                            : gmap string string) !! "email") "")))
                     (users Demo.st) = None) by (vm_compute; reflexivity).
  split.
  - refine (proj1 (reset_request_shape_reveals_account Demo.st 1700000000000
                     (Demo.post [("email", "nobody@example.com")]) _ eq_refl eq_refl _)
                  Hunknown).
    vm_compute. discriminate.
  - refine (proj2 (reset_request_shape_reveals_account Demo.st 1700000000000
                     (Demo.post [("email", "Bob@Example.com ")]) _ eq_refl eq_refl _)
                  Demo.bob Hknown).
    vm_compute. discriminate.
Defined.

Section ResetFlow.
Context `{Pbkdf2}.

Lemma select_after_update (set : Store.user -> Store.user) i e t :
  (forall u, Store.email (set u) = Store.email u) ->
  Store.select_by_email e (Store.update_where_id set i t) =
    option_map (fun u => if Store.id u =? i then set u else u)
               (Store.select_by_email e t).
Proof.
  intros Hset. unfold Store.select_by_email, Store.update_where_id.
  induction t as [|u t IH]; simpl; [reflexivity|].
  assert (He : Store.email (if Store.id u =? i then set u else u) = Store.email u)
    by (destruct (Store.id u =? i); auto).
  rewrite He. destruct (String.eqb (Store.email u) e); [reflexivity|exact IH].
Qed.

(** [pending] in terms of the row. *)
Lemma pending_spec t email i tok e :
  pending t email = Some (i, tok, e) <->
  exists row, Store.select_by_email email t = Some row /\ Store.id row = i /\
    Store.reset_token row = Some tok /\ Store.reset_expires row = Some e /\
    tok <> "" /\ e <> 0.
Proof.
  unfold pending. split.
  - destruct (Store.select_by_email email t) as [row|]; [|discriminate].
    destruct (Store.reset_token row) as [tok'|] eqn:Htok; [|discriminate].
    destruct (Store.reset_expires row) as [e'|] eqn:Hexp; [|discriminate].
    destruct (falsy tok') eqn:Hf; [discriminate|].
    destruct (Z.eqb_spec e' 0); [discriminate|]. simpl.
    intros [= <- <- <-]. exists row. apply falsy_false_ne in Hf.
    repeat split; assumption || reflexivity.
  - intros (row & -> & <- & -> & -> & Htok & He).
    apply falsy_false_ne in Htok. rewrite Htok.
    now destruct (Z.eqb_spec e 0).
Qed.

(** What [consume] does, by the pending request of the e-mail. *)
Lemma consume_run now email tok pw st :
  serve (consume now email tok pw) st =
    match pending (users st) email with
    | None => (failure "reset not requested", st)
    | Some (i, token, expires) =>
        if negb (String.eqb token tok) then (failure "invalid token", st)
        else if expires <? now then (failure "token expired", st)
        else
          match hashPassword pw (random st) with
          | (Return h, src) =>
              (success,
               with_users (Store.update_where_id (Store.set_password_clear_reset h)
                             i (users st)) (with_random src st))
          | (Throw e, src) => (server_error e, with_random src st)
          end
    end.
Proof.
  unfold serve, consume, pending, mbind, get_users, ret, with_entropy, lift,
    put_users, with_users, with_random.
  cbv beta iota.
  destruct (Store.select_by_email email (users st)) as [row|]; [|reflexivity].
  destruct (Store.reset_token row) as [token|]; [|reflexivity].
  destruct (Store.reset_expires row) as [expires|]; [|reflexivity].
  destruct (falsy token || (expires =? 0)); [reflexivity|].
  destruct (negb (String.eqb token tok)); [reflexivity|].
  destruct (expires <? now); [reflexivity|].
  destruct (hashPassword pw (random st)) as [[h|e] src]; reflexivity.
Qed.

Lemma pending_cleared email i h t :
  (exists tok e, pending t email = Some (i, tok, e)) ->
  pending (Store.update_where_id (Store.set_password_clear_reset h) i t) email = None
  /\ exists row, Store.select_by_email email
                   (Store.update_where_id (Store.set_password_clear_reset h) i t)
                 = Some row
       /\ Store.password_hash row = h
       /\ Store.reset_token row = None /\ Store.reset_expires row = None.
Proof.
  intros (tok & e & Hp). unfold pending in *.
  rewrite select_after_update by reflexivity.
  destruct (Store.select_by_email email t) as [row|]; [|discriminate]. simpl.
  assert (Hi : Store.id row = i).
  { destruct (Store.reset_token row), (Store.reset_expires row); try discriminate.
    destruct (falsy _ || _); [discriminate|]. congruence. }
  rewrite Hi, Z.eqb_refl. simpl. split; [reflexivity|]. eexists. eauto.
Qed.

(** POST /auth/reset hands the trimmed token and the lower-cased e-mail
    to [consume]. *)
Lemma reset_run st now req f :
  method req = "POST" -> body req = Fields f ->
  let email := toLowerCase (trim (str_or (f !! "email") "")) in
  let resetToken := trim (str_or (f !! "resetToken") "") in
  let newPassword := str_or (f !! "newPassword") "" in
  email <> "" -> resetToken <> "" -> (6 <= String.length newPassword)%nat ->
  serve (reset now req) st = serve (consume now email resetToken newPassword) st.
Proof.
  intros Hm Hb email resetToken newPassword He Ht Hp.
  apply falsy_false_ne in He, Ht.
  assert (Hn : falsy newPassword = false) by (destruct newPassword; [simpl in Hp; lia|reflexivity]).
  unfold serve, reset, readJsonBody, mbind, ret. rewrite Hm, Hb.
  change (negb ("POST" =? "POST")%string) with false. cbv beta iota.
  fold email resetToken newPassword. rewrite He, Ht, Hn. cbn [orb].
  destruct (Nat.ltb_spec (String.length newPassword) 6); [lia|reflexivity].
Qed.

End ResetFlow.

(** C3 (reset token, lines 292-309).  [consume] answers 200 only when
    the account has a pending token equal to the presented one and
    [now <= expires]; in that one update the credential becomes the fresh
    hash of the new password and the token and its expiry are cleared, the
    sessions are untouched, and presenting the same token again, at any
    time and with any password, answers 400 and changes nothing.  With
    the right token but [now > expires] the answer is 400 and nothing
    changes. *)
Theorem reset_token_single_use `{Pbkdf2} st now email tok pw :
  let out := serve (consume now email tok pw) st in
  (status (fst out) = 200 ->
     exists i e h,
       pending (users st) email = Some (i, tok, e) /\ now <= e /\
       fst (hashPassword pw (random st)) = Return h /\
       users (snd out)
         = Store.update_where_id (Store.set_password_clear_reset h) i (users st) /\
       sessions (snd out) = sessions st /\
       pending (users (snd out)) email = None /\
       (exists row, Store.select_by_email email (users (snd out)) = Some row /\
          Store.password_hash row = h /\
          Store.reset_token row = None /\ Store.reset_expires row = None) /\
       forall now' pw',
         serve (consume now' email tok pw') (snd out)
           = (failure "reset not requested", snd out))
  /\ (forall i e, pending (users st) email = Some (i, tok, e) -> e < now ->
        out = (failure "token expired", st)).
Proof.
  intros out. subst out. rewrite consume_run. split.
  - destruct (pending (users st) email) as [[[i token] e]|] eqn:Hp;
      [|discriminate].
    destruct (String.eqb_spec token tok) as [->|Hne]; [|discriminate]. cbn [negb].
    destruct (e <? now) eqn:Hexp; [discriminate|].
    destruct (hashPassword pw (random st)) as [[h|err] src] eqn:Hh; [|discriminate].
    intros _. exists i, e, h. cbn [fst snd with_users with_random users sessions].
    destruct (pending_cleared email i h (users st)) as [Hnone Hrow]; [eauto|].
    repeat split; auto; [lia|].
    intros now' pw'. rewrite consume_run. cbn [users with_users]. now rewrite Hnone.
  - intros i e Hp He. rewrite Hp, String.eqb_refl. cbn [negb].
    now destruct (Z.ltb_spec e now); [|lia].
Qed.

(** C3 on the demo state: a reset in time, its replay, and a reset after
    the expiry. *)
Lemma reset_token_single_use_witness :
  let H := Demo.platform in
  let token := "5f1d0c9a7b3e4d2c8a6f0e1b9c7d5a3f" in
  let out := serve (consume 1700000000000 "alice@example.com" token "new-secret") Demo.st in
  (status (fst out) = 200 /\ pending (users Demo.st) "alice@example.com" = Some (1, token, 1700000900000))
  /\ pending (users (snd out)) "alice@example.com" = None
  /\ serve (consume 1700000000001 "alice@example.com" token "other-secret") (snd out)
       = (failure "reset not requested", snd out)
  /\ serve (consume 1700000900001 "alice@example.com" token "new-secret") Demo.st
       = (failure "token expired", Demo.st).
Proof.
  intros H token out.
  assert (Hok : status (fst out) = 200) by (vm_compute; reflexivity).
  assert (Hp : pending (users Demo.st) "alice@example.com" = Some (1, token, 1700000900000))
    by (vm_compute; reflexivity).
  destruct (reset_token_single_use Demo.st 1700000000000 "alice@example.com" token
              "new-secret") as [Hsuccess _].
  destruct (Hsuccess Hok) as (i & e & h & _ & _ & _ & _ & _ & Hnone & _ & Hreplay).
  destruct (reset_token_single_use Demo.st 1700000900001 "alice@example.com" token
              "new-secret") as [_ Hexpired].
  split; [split; [exact Hok | exact Hp]|].
  split; [exact Hnone|]. split; [apply Hreplay|].
  apply (Hexpired 1 1700000900000 Hp). lia.
Defined.

(** C4, counterexample.  Three failing calls of [consume] on the same
    state: no pending token, a wrong token, an expired token.  Each
    answers 400, with three different bodies. *)
Lemma reset_failures_differ :
  let H := Demo.platform in
  let token := "5f1d0c9a7b3e4d2c8a6f0e1b9c7d5a3f" in
  let none := fst (serve (consume 1700000000000 "bob@example.com" token "new-secret") Demo.st) in
  let mismatch := fst (serve (consume 1700000000000 "alice@example.com" "0000" "new-secret") Demo.st) in
  let expired := fst (serve (consume 1700000900001 "alice@example.com" token "new-secret") Demo.st) in
  none = failure "reset not requested" /\
  mismatch = failure "invalid token" /\
  expired = failure "token expired" /\
  none <> mismatch /\ mismatch <> expired /\ none <> expired.
Proof.
  intros H token none mismatch expired.
  assert (H1 : none = failure "reset not requested") by (vm_compute; reflexivity).
  assert (H2 : mismatch = failure "invalid token") by (vm_compute; reflexivity).
  assert (H3 : expired = failure "token expired") by (vm_compute; reflexivity).
  rewrite H1, H2, H3. repeat split; discriminate.
Qed.

(** C4, as amended.  Every failing [consume] answers 400 and leaves the
    state as it was, and the message names the failed check: "reset not
    requested" without a pending token, "invalid token" on a mismatch,
    "token expired" once [now > expires]; a 400 answer is always one of
    these three. *)
Theorem reset_failure_names_check `{Pbkdf2} st now email tok pw :
  let out := serve (consume now email tok pw) st in
  (pending (users st) email = None -> out = (failure "reset not requested", st))
  /\ (forall i t e, pending (users st) email = Some (i, t, e) -> t <> tok ->
        out = (failure "invalid token", st))
  /\ (forall i e, pending (users st) email = Some (i, tok, e) -> e < now ->
        out = (failure "token expired", st))
  /\ (status (fst out) = 400 ->
        out = (failure "reset not requested", st) \/
        out = (failure "invalid token", st) \/
        out = (failure "token expired", st)).
Proof.
  intros out. subst out. rewrite consume_run. repeat split.
  - now intros ->.
  - intros i t e -> Hne. now destruct (String.eqb_spec t tok).
  - intros i e -> He. rewrite String.eqb_refl. cbn [negb].
    now destruct (Z.ltb_spec e now); [|lia].
  - destruct (pending (users st) email) as [[[i token] e]|]; [|now left].
    destruct (negb (String.eqb token tok)); [now right; left|].
    destruct (e <? now); [now right; right|].
    destruct (hashPassword pw (random st)) as [[h|err] src]; discriminate.
Qed.

(** C4 on the demo state: the three failures. *)
Lemma reset_failure_names_check_witness :
  let H := Demo.platform in
  let token := "5f1d0c9a7b3e4d2c8a6f0e1b9c7d5a3f" in
  let none := serve (consume 1700000000000 "bob@example.com" token "new-secret") Demo.st in
  none = (failure "reset not requested", Demo.st)
  /\ serve (consume 1700000000000 "alice@example.com" "0000" "new-secret") Demo.st
    = (failure "invalid token", Demo.st)
  /\ serve (consume 1700000900001 "alice@example.com" token "new-secret") Demo.st
    = (failure "token expired", Demo.st)
  /\ (none = (failure "reset not requested", Demo.st) \/
      none = (failure "invalid token", Demo.st) \/
      none = (failure "token expired", Demo.st)).
Proof.
  intros H token none.
  assert (Hb : pending (users Demo.st) "bob@example.com" = None)
    by (vm_compute; reflexivity).
  assert (Ha : pending (users Demo.st) "alice@example.com"
               = Some (1, token, 1700000900000))
    by (vm_compute; reflexivity).
  assert (H400 : status (fst none) = 400) by (vm_compute; reflexivity).
  split; [|split; [|split]].
  - exact (proj1 (reset_failure_names_check Demo.st 1700000000000 "bob@example.com"
                    token "new-secret") Hb).
  - refine (proj1 (proj2 (reset_failure_names_check Demo.st 1700000000000
                    "alice@example.com" "0000" "new-secret")) _ _ _ Ha _).
    discriminate.
  - refine (proj1 (proj2 (proj2 (reset_failure_names_check Demo.st 1700000900001
                    "alice@example.com" token "new-secret"))) _ _ Ha _).
    lia.
  - exact (proj2 (proj2 (proj2 (reset_failure_names_check Demo.st 1700000000000
                    "bob@example.com" token "new-secret"))) H400).
Defined.

(** ** The theme preference *)

Section Preferences.

Lemma theme_listed t : existsb (String.eqb t) themes = true <-> In t themes.
Proof.
  rewrite existsb_exists. split.
  - intros (x & Hin & Heq). apply String.eqb_eq in Heq. now subst.
  - intros Hin. exists t. split; [exact Hin | apply String.eqb_refl].
Qed.

(** What PUT /me/theme does for an authenticated request with a JSON
    body. *)
Lemma me_theme_run st req u f :
  resolve (sessions st) (getAuthToken req) = Some u ->
  method req = "PUT" ->
  body req = Fields f ->
  serve (me_theme req) st =
    let theme := str_or (f !! "theme") "system" in
    if existsb (String.eqb theme) themes
    then (sendJson 200 (JObj [("success", JBool true); ("theme", JStr theme)]),
          with_users (Store.update_where_id (Store.set_theme theme) u (users st)) st)
    else (failure "theme must be system|light|dark", st).
Proof.
  intros Hauth Hm Hb.
  unfold serve, me_theme, requireAuth, readJsonBody, mbind, get_sessions,
    get_users, put_users, ret, with_users.
  cbv beta iota. rewrite Hauth. cbv beta iota. rewrite Hm, Hb.
  change (negb ("PUT" =? "PUT")%string) with false. cbv beta iota.
  fold themes.
  now destruct (existsb (String.eqb (str_or (f !! "theme") "system")) themes).
Qed.

Lemma update_theme_rows th u t row :
  In row (Store.update_where_id (Store.set_theme th) u t) ->
  Store.id row = u -> Store.theme row = th.
Proof.
  unfold Store.update_where_id. rewrite in_map_iff.
  intros (r & <- & _). destruct (Z.eqb_spec (Store.id r) u); simpl; congruence.
Qed.

End Preferences.

(** C9 (PUT /me/theme).  For an authenticated PUT with a JSON body: when
    the [theme] field is missing or empty the answer is 200
    [{success: true, theme: "system"}] and "system" is persisted: the
    table afterwards is the table before, row by row and in the same
    order, where each row of that user has its theme replaced by "system"
    and every other column kept, and each other row is kept; so every row
    of the user is still there with the theme "system", and the sessions
    are as before.  A listed theme is persisted in the same way.  The
    answer is 400 exactly when [theme] is present, not empty and none of
    system, light, dark, and then nothing is written. *)
Theorem theme_defaults_to_system st req u f :
  resolve (sessions st) (getAuthToken req) = Some u ->
  method req = "PUT" ->
  body req = Fields f ->
  let out := serve (me_theme req) st in
  let stored := fun (th : string) (row : Store.user) =>
    {| Store.id := Store.id row; Store.email := Store.email row;
       Store.name := Store.name row;
       Store.password_hash := Store.password_hash row; Store.theme := th;
       Store.reset_token := Store.reset_token row;
       Store.reset_expires := Store.reset_expires row |} in
  ((f !! "theme" = None \/ f !! "theme" = Some "") ->
     out = (sendJson 200 (JObj [("success", JBool true); ("theme", JStr "system")]),
            with_users (Store.update_where_id (Store.set_theme "system") u (users st)) st)
     /\ (forall row, In row (users (snd out)) -> Store.id row = u ->
          Store.theme row = "system")
     /\ users (snd out)
          = List.map (fun row => if Store.id row =? u then stored "system" row else row)
              (users st)
     /\ (forall row, In row (users st) -> Store.id row = u ->
          In (stored "system" row) (users (snd out)))
     /\ (forall row, In row (users st) -> Store.id row <> u ->
          In row (users (snd out)))
     /\ sessions (snd out) = sessions st)
  /\ (status (fst out) = 400 <->
        exists t, f !! "theme" = Some t /\ t <> "" /\ ~ In t themes)
  /\ (forall t, f !! "theme" = Some t -> In t themes ->
        fst out = sendJson 200 (JObj [("success", JBool true); ("theme", JStr t)])
        /\ users (snd out)
             = List.map (fun row => if Store.id row =? u then stored t row else row)
                 (users st)
        /\ sessions (snd out) = sessions st)
  /\ (status (fst out) = 400 -> snd out = st).
Proof.
  intros Hauth Hm Hb out stored. subst out.
  rewrite (me_theme_run st req u f Hauth Hm Hb).
  cbv zeta. split; [|split; [|split]].
  - intros Hmissing.
    assert (Hs : str_or (f !! "theme") "system" = "system")
      by (destruct Hmissing as [-> | ->]; reflexivity).
    rewrite Hs. change (existsb (String.eqb "system") themes) with true.
    cbv beta iota. split; [reflexivity|].
    cbn [snd users sessions with_users].
    split; [intros row; apply update_theme_rows|].
    split; [reflexivity|].
    unfold Store.update_where_id.
    split; [|split; [|reflexivity]].
    + intros row Hin Hid. apply in_map_iff. exists row. split; [|exact Hin].
      apply Z.eqb_eq in Hid. now rewrite Hid.
    + intros row Hin Hid. apply in_map_iff. exists row. split; [|exact Hin].
      apply Z.eqb_neq in Hid. now rewrite Hid.
  - destruct (existsb (String.eqb (str_or (f !! "theme") "system")) themes) eqn:Hv.
    + split; [discriminate|]. intros (t & Ht & Hne & Hnot). exfalso.
      rewrite Ht in Hv. apply Hnot, theme_listed.
      destruct t; [congruence | exact Hv].
    + split; [|reflexivity]. intros _.
      destruct (f !! "theme") as [t|]; [|discriminate Hv].
      destruct t as [|c t]; [discriminate Hv|].
      exists (String c t). split; [reflexivity|]. split; [discriminate|].
      intros Hin. apply theme_listed in Hin.
      change (str_or (Some (String c t)) "system") with (String c t) in Hv.
      congruence.
  - intros t Ht Hin.
    assert (Hs : str_or (f !! "theme") "system" = t).
    { rewrite Ht. destruct t; [|reflexivity].
      unfold themes in Hin. simpl in Hin. intuition discriminate. }
    rewrite Hs. apply theme_listed in Hin. rewrite Hin.
    cbn [fst snd users sessions with_users]. repeat split.
  - destruct (existsb (String.eqb (str_or (f !! "theme") "system")) themes);
      [discriminate|reflexivity].
Qed.

(** C9 on the demo state: a body without a [theme] field.  Alice's row,
    whose theme was "dark", is afterwards the same row with the theme
    "system"; Bob's row and the session are as before. *)
Lemma theme_defaults_to_system_witness :
  let req := Demo.put_as Demo.alice_session [("accent", "blue")] in
  let out := serve (me_theme req) Demo.st in
  let alice_system :=
    {| Store.id := 1; Store.email := "alice@example.com"; Store.name := "Alice";
       Store.password_hash := "pbkdf2$sha256$120000$00$00"; Store.theme := "system";
       Store.reset_token := Some "5f1d0c9a7b3e4d2c8a6f0e1b9c7d5a3f";
       Store.reset_expires := Some 1700000900000 |} in
  out = (sendJson 200 (JObj [("success", JBool true); ("theme", JStr "system")]),
         with_users (Store.update_where_id (Store.set_theme "system") 1 (users Demo.st))
           Demo.st)
  /\ (forall row, In row (users (snd out)) -> Store.id row = 1 ->
        Store.theme row = "system")
  /\ (In Demo.alice (users Demo.st) /\ Store.theme Demo.alice = "dark")
  /\ users (snd out) = [alice_system; Demo.bob]
  /\ In alice_system (users (snd out))
  /\ In Demo.bob (users (snd out))
  /\ sessions (snd out) = sessions Demo.st
  /\ (status (fst out) = 400 <->
        exists t, (list_to_map [("accent", "blue")] : gmap string string) !! "theme" = Some t
                  /\ t <> "" /\ ~ In t themes).
Proof.
  intros req out alice_system.
  assert (Hauth : resolve (sessions Demo.st) (getAuthToken req) = Some 1)
    by (vm_compute; reflexivity).
  assert (Hnone : (list_to_map [("accent", "blue")] : gmap string string) !! "theme" = None)
    by (vm_compute; reflexivity).
  destruct (theme_defaults_to_system Demo.st req 1 (list_to_map [("accent", "blue")])
              Hauth eq_refl eq_refl) as (Hdefault & H400 & _ & _).
  destruct (Hdefault (or_introl Hnone)) as (Hout & Hrows & Hmap & Hmine & Hothers & Hsessions).
  split; [exact Hout|]. split; [exact Hrows|].
  split; [split; [left; reflexivity | reflexivity]|].
  split; [exact Hmap|].
  split; [exact (Hmine Demo.alice (or_introl eq_refl) eq_refl)|].
  split; [refine (Hothers Demo.bob (or_intror (or_introl eq_refl)) _); discriminate|].
  split; [exact Hsessions | exact H400].
Defined.

(** ** The forecast aggregator *)

Section StringOrder.

Lemma ascii_compare_lt_trans (a b c : ascii) :
  Ascii.compare a b = Lt -> Ascii.compare b c = Lt -> Ascii.compare a c = Lt.
Proof.
  unfold Ascii.compare. rewrite !N.compare_lt_iff. lia.
Qed.

Lemma ascii_compare_refl (a : ascii) : Ascii.compare a a = Eq.
Proof. unfold Ascii.compare. apply N.compare_refl. Qed.

Lemma string_compare_lt_trans (s1 s2 s3 : string) :
  String.compare s1 s2 = Lt -> String.compare s2 s3 = Lt ->
  String.compare s1 s3 = Lt.
Proof.
  revert s2 s3.
  induction s1 as [|a s1 IH]; intros [|b s2] [|c s3]; simpl; try congruence.
  destruct (Ascii.compare a b) eqn:Hab; try discriminate;
    destruct (Ascii.compare b c) eqn:Hbc; try discriminate; intros H12 H23.
  - apply Ascii.compare_eq_iff in Hab, Hbc. subst.
    rewrite ascii_compare_refl. eauto.
  - apply Ascii.compare_eq_iff in Hab. subst. now rewrite Hbc.
  - apply Ascii.compare_eq_iff in Hbc. subst. now rewrite Hab.
  - now rewrite (ascii_compare_lt_trans _ _ _ Hab Hbc).
Qed.

Lemma string_ltb_trans (s1 s2 s3 : string) :
  String.ltb s1 s2 = true -> String.ltb s2 s3 = true -> String.ltb s1 s3 = true.
Proof.
  unfold String.ltb.
  destruct (String.compare s1 s2) eqn:H12; try discriminate.
  destruct (String.compare s2 s3) eqn:H23; try discriminate.
  now rewrite (string_compare_lt_trans _ _ _ H12 H23).
Qed.

Lemma string_leb_ne_ltb (s1 s2 : string) :
  String.leb s1 s2 = true -> s1 <> s2 -> String.ltb s1 s2 = true.
Proof.
  unfold String.leb, String.ltb.
  destruct (String.compare s1 s2) eqn:Hc; try discriminate; auto.
  apply String.compare_eq_iff in Hc. congruence.
Qed.

Lemma string_not_leb_ltb (s1 s2 : string) :
  String.leb s1 s2 = false -> String.ltb s2 s1 = true.
Proof.
  unfold String.leb, String.ltb. rewrite (String.compare_antisym s2 s1).
  destruct (String.compare s1 s2); simpl; congruence.
Qed.

End StringOrder.

Section SortKeys.

Lemma insert_key_In (k x : string) (ks : list string) :
  In x (insert_key k ks) <-> x = k \/ In x ks.
Proof.
  induction ks as [|k' ks IH]; simpl.
  - intuition.
  - destruct (String.leb k k'); simpl; rewrite ?IH; intuition.
Qed.

Lemma sort_In (x : string) (ks : list string) : In x (sort ks) <-> In x ks.
Proof.
  induction ks as [|k ks IH]; simpl; [reflexivity|].
  rewrite insert_key_In, IH. intuition.
Qed.

Lemma insert_key_length (k : string) (ks : list string) :
  length (insert_key k ks) = S (length ks).
Proof.
  induction ks as [|k' ks IH]; simpl; [reflexivity|].
  destruct (String.leb k k'); simpl; congruence.
Qed.

Lemma sort_length (ks : list string) : length (sort ks) = length ks.
Proof.
  induction ks as [|k ks IH]; simpl; [reflexivity|].
  rewrite insert_key_length. congruence.
Qed.

(** [sort] keeps the keys: it only reorders them. *)
Lemma insert_key_permutation (k : string) (ks : list string) :
  Permutation (k :: ks) (insert_key k ks).
Proof.
  induction ks as [|k' ks IH]; simpl; [reflexivity|].
  destruct (String.leb k k'); [reflexivity|].
  rewrite perm_swap. now apply perm_skip.
Qed.

Lemma sort_permutation (ks : list string) : Permutation ks (sort ks).
Proof.
  induction ks as [|k ks IH]; simpl; [reflexivity|].
  rewrite <- insert_key_permutation. now apply perm_skip.
Qed.

Lemma insert_key_sorted (k : string) (ks : list string) :
  ~ In k ks -> StronglySorted before ks -> StronglySorted before (insert_key k ks).
Proof.
  induction ks as [|k' ks IH]; simpl; intros Hk Hs.
  - repeat constructor.
  - apply StronglySorted_inv in Hs as [Hs Hall].
    destruct (String.leb k k') eqn:Hle.
    + assert (Hlt : before k k') by (apply string_leb_ne_ltb; intuition).
      constructor; [now constructor|].
      constructor; [exact Hlt|].
      eapply List.Forall_impl; [|exact Hall].
      intros x Hx. exact (string_ltb_trans _ _ _ Hlt Hx).
    + constructor; [apply IH; intuition|].
      rewrite List.Forall_forall in *. intros x Hx.
      apply insert_key_In in Hx as [->|Hx]; [|auto].
      now apply string_not_leb_ltb.
Qed.

Lemma sort_sorted (ks : list string) :
  List.NoDup ks -> StronglySorted before (sort ks).
Proof.
  induction 1 as [|k ks Hk Hnd IH]; simpl; [constructor|].
  apply insert_key_sorted; [|exact IH].
  now rewrite sort_In.
Qed.

Lemma firstn_In {A} (n : nat) (l : list A) (y : A) :
  In y (firstn n l) -> In y l.
Proof.
  revert n. induction l as [|x l IH]; intros [|n]; simpl; try tauto.
  intros [->|Hy]; eauto.
Qed.

Lemma firstn_sorted {A} (R : A -> A -> Prop) (n : nat) (l : list A) :
  StronglySorted R l -> StronglySorted R (firstn n l).
Proof.
  revert n. induction l as [|x l IH]; intros [|n] Hs; simpl; try constructor.
  - apply IH. now apply StronglySorted_inv in Hs.
  - apply StronglySorted_inv in Hs as [_ Hall].
    rewrite List.Forall_forall in *. intros y Hy. apply Hall.
    eapply firstn_In; eauto.
Qed.

End SortKeys.

Section Aggregation.
Implicit Types (m : gmap string Day.bucket) (item : Item.sample).

Lemma undated_dateKey item : undated item -> dateKey item = "".
Proof. unfold dateKey. now intros [-> | ->]. Qed.

Lemma step_skip m item : dateKey item = "" -> step m item = m.
Proof. unfold step, iteration. now intros ->. Qed.

Lemma inherited_ne k : inherited k = true -> k <> "".
Proof. now intros H ->. Qed.

(** A sample dated by an inherited member that [byDay] does not own
    leaves the own members as they are. *)
Lemma step_inherited m item :
  m !! dateKey item = None -> inherited (dateKey item) = true -> step m item = m.
Proof.
  unfold step, iteration. intros -> ->.
  now destruct (falsy (dateKey item)), (falsy (desc item) && falsy (icon_of item)).
Qed.

Lemma step_insert m item :
  falsy (dateKey item) = false ->
  inherited (dateKey item) = false \/ is_Some (m !! dateKey item) ->
  step m item = <[dateKey item := update (m !! dateKey item) item]> m.
Proof.
  intros Hk Hown. unfold step, iteration, pushes, update. rewrite Hk.
  set (k := dateKey item) in *.
  assert (Hcase : match m !! k with Some _ => True | None => inherited k = false end).
  { destruct (m !! k) eqn:Hm; [exact I|].
    destruct Hown as [H|[? H]]; [exact H|discriminate]. }
  clear Hown.
  apply map_eq. intros i.
  destruct (decide (k = i)) as [<-|Hne].
  - rewrite lookup_insert_eq.
    destruct (m !! k) eqn:Hm; [|rewrite Hcase];
      destruct (falsy (desc item)), (falsy (icon_of item));
      repeat (rewrite lookup_alter_eq; simpl);
      rewrite ?lookup_insert_eq, ?Hm; reflexivity.
  - rewrite lookup_insert_ne by done.
    destruct (m !! k) eqn:Hm; [|rewrite Hcase];
      destruct (falsy (desc item)), (falsy (icon_of item));
      repeat (rewrite lookup_alter_ne by done);
      rewrite ?lookup_insert_ne by done; reflexivity.
Qed.

Lemma step_lookup m item k :
  inherited k = false ->
  step m item !! k =
    if decide (dateKey item = k /\ k <> "") then Some (update (m !! k) item)
    else m !! k.
Proof.
  intros Hown.
  destruct (falsy (dateKey item)) eqn:Hk.
  - rewrite step_skip by now destruct (dateKey item).
    case_decide as Hd; [|reflexivity].
    destruct Hd as [<- Hne]. apply falsy_false_ne in Hne. congruence.
  - case_decide as Hd.
    + destruct Hd as [<- _].
      rewrite step_insert by (try exact Hk; now left).
      now rewrite lookup_insert_eq.
    + assert (Hne : dateKey item <> k).
      { intros <-. apply Hd. split; [reflexivity|]. now apply falsy_false_ne. }
      destruct (m !! dateKey item) eqn:Hm.
      * rewrite step_insert by (try exact Hk; right; now rewrite Hm).
        now rewrite lookup_insert_ne.
      * destruct (inherited (dateKey item)) eqn:Hi.
        -- now rewrite step_inherited.
        -- rewrite step_insert by (try exact Hk; now left).
           now rewrite lookup_insert_ne.
Qed.

Lemma collect_no_empty_key samples m :
  m !! "" = None -> fold_left step samples m !! "" = None.
Proof.
  revert m. induction samples as [|item samples IH]; simpl; intros m Hm; [exact Hm|].
  apply IH. rewrite step_lookup by reflexivity.
  case_decide as Hd; [|exact Hm]. now destruct Hd.
Qed.

(** [byDay] never owns a member of an inherited name. *)
Lemma step_no_inherited_key m item k :
  inherited k = true -> m !! k = None ->
  m !! dateKey item = None -> step m item !! k = None.
Proof.
  intros Hk Hm Hd.
  destruct (falsy (dateKey item)) eqn:Hf.
  - rewrite step_skip by now destruct (dateKey item). exact Hm.
  - destruct (inherited (dateKey item)) eqn:Hi.
    + now rewrite step_inherited.
    + rewrite step_insert by (try exact Hf; now left).
      rewrite lookup_insert_ne; [exact Hm|]. intros He. congruence.
Qed.

Lemma step_own m item :
  (forall k, inherited k = true -> m !! k = None) ->
  forall k, inherited k = true -> step m item !! k = None.
Proof.
  intros Hm k Hk.
  destruct (m !! dateKey item) eqn:Hd.
  - destruct (falsy (dateKey item)) eqn:Hf.
    + rewrite step_skip by now destruct (dateKey item). now apply Hm.
    + rewrite step_insert by (try exact Hf; right; now rewrite Hd).
      rewrite lookup_insert_ne; [now apply Hm|].
      intros He. rewrite He, (Hm k Hk) in Hd. discriminate.
  - apply step_no_inherited_key; auto.
Qed.

Lemma collect_no_inherited_key samples m :
  (forall k, inherited k = true -> m !! k = None) ->
  forall k, inherited k = true -> fold_left step samples m !! k = None.
Proof.
  revert m. induction samples as [|item samples IH]; simpl; intros m Hm; [exact Hm|].
  apply IH. now apply step_own.
Qed.

(** The body throws exactly on a faulty sample. *)
Lemma iteration_step m item :
  (forall k, inherited k = true -> m !! k = None) ->
  iteration m item = if faulty item then Throw no_push else Return (step m item).
Proof.
  intros Hm. unfold step, faulty, iteration.
  destruct (falsy (dateKey item)) eqn:Hf.
  - destruct (dateKey item); [reflexivity|discriminate].
  - destruct (inherited (dateKey item)) eqn:Hi.
    + rewrite (Hm _ Hi). simpl.
      now destruct (falsy (desc item) && falsy (icon_of item)).
    + simpl. now destruct (m !! dateKey item).
Qed.

(** The loop throws when a sample is faulty, and otherwise ends with
    [byDay] as [step] builds it. *)
Lemma loop_fold samples m :
  (forall k, inherited k = true -> m !! k = None) ->
  loop samples m =
    if existsb faulty samples then Throw no_push
    else Return (fold_left step samples m).
Proof.
  revert m. induction samples as [|item samples IH]; simpl; intros m Hm; [reflexivity|].
  rewrite iteration_step by exact Hm.
  destruct (faulty item); simpl; [reflexivity|].
  apply IH. now apply step_own.
Qed.

Lemma forecast_aggregate samples :
  forecast samples =
    if existsb faulty samples then Throw no_push else Return (aggregate samples).
Proof.
  unfold forecast. rewrite loop_fold by (intros; apply lookup_empty).
  now destruct (existsb faulty samples).
Qed.

End Aggregation.

Section Buckets.
Implicit Types (m : gmap string Day.bucket) (item : Item.sample).

Lemma update_descriptions seen item :
  Day.descriptions (update seen item)
    = (descriptions_of seen ++ nonempty [desc item])%list.
Proof.
  unfold update, nonempty. simpl.
  destruct seen, (falsy (desc item)), (falsy (icon_of item)); simpl;
    rewrite ?app_nil_r; reflexivity.
Qed.

Lemma update_icons seen item :
  Day.icons (update seen item) = (icons_of seen ++ nonempty [icon_of item])%list.
Proof.
  unfold update, nonempty. simpl.
  destruct seen, (falsy (desc item)), (falsy (icon_of item)); simpl;
    rewrite ?app_nil_r; reflexivity.
Qed.

Lemma nonempty_app (l1 l2 : list string) :
  nonempty (l1 ++ l2) = (nonempty l1 ++ nonempty l2)%list.
Proof. apply List.filter_app. Qed.

(** What the loop has gathered for a date: the non-empty descriptions and
    icon codes of that date's samples, in the order of the samples. *)
Lemma fold_gathers samples m k :
  k <> "" -> inherited k = false ->
  descriptions_of (fold_left step samples m !! k)
    = (descriptions_of (m !! k) ++ nonempty (map desc (same_day k samples)))%list
  /\ icons_of (fold_left step samples m !! k)
    = (icons_of (m !! k) ++ nonempty (map icon_of (same_day k samples)))%list.
Proof.
  intros Hk Hown. revert m.
  induction samples as [|item samples IH]; intros m; simpl.
  - now rewrite !app_nil_r.
  - destruct (IH (step m item)) as [IHd IHi]. rewrite IHd, IHi. clear IH IHd IHi.
    rewrite step_lookup by exact Hown.
    destruct (String.eqb_spec (dateKey item) k) as [He|Hne].
    + rewrite decide_True by (split; congruence).
      unfold same_day, nonempty. simpl.
      rewrite update_descriptions, update_icons. unfold nonempty. simpl.
      destruct (falsy (desc item)), (falsy (icon_of item)); simpl;
        rewrite <- ?app_assoc; simpl; done.
    + rewrite decide_False by tauto. done.
Qed.

Lemma head_nonempty (l : list string) :
  str_or (head (nonempty l)) "" = first_nonempty l.
Proof.
  induction l as [|x l IH]; simpl; [reflexivity|].
  unfold nonempty in *. simpl.
  destruct (falsy x) eqn:Hx; simpl; [exact IH | now rewrite Hx].
Qed.

Lemma summarize_In m ds day :
  In day (summarize m ds) ->
  In (date day) ds /\
  exists b, m !! date day = Some b /\
    min day = round1 (Day.min b) /\ max day = round1 (Day.max b) /\
    description day = str_or (head (Day.descriptions b)) "" /\
    icon day = str_or (head (Day.icons b)) "".
Proof.
  unfold summarize. rewrite in_flat_map. intros (d & Hd & Hday).
  destruct (m !! d) as [b|] eqn:Hm; simpl in Hday; [|tauto].
  destruct Hday as [<-|[]]. simpl. split; [exact Hd|]. exists b. auto.
Qed.

Lemma summarize_length m ds : (length (summarize m ds) <= length ds)%nat.
Proof.
  induction ds as [|d ds IH]; simpl; [lia|].
  rewrite length_app. destruct (m !! d); simpl; lia.
Qed.

Lemma summarize_dates m ds :
  (forall d, In d ds -> is_Some (m !! d)) ->
  map date (summarize m ds) = ds.
Proof.
  induction ds as [|d ds IH]; simpl; intros Hds; [reflexivity|].
  destruct (Hds d) as [b Hb]; [now left|].
  rewrite Hb. simpl. f_equal. apply IH. auto.
Qed.

Lemma sorted_by_date (l : list ForecastDay) :
  StronglySorted before (map date l) -> StronglySorted day_before l.
Proof.
  induction l as [|x l IH]; simpl; intros Hs; [constructor|].
  apply StronglySorted_inv in Hs as [Hs Hall].
  constructor; [auto|].
  rewrite List.Forall_forall in *. intros y Hy. apply Hall. now apply in_map.
Qed.

Lemma keys_In m d : In d (map fst (map_to_list m)) <-> is_Some (m !! d).
Proof.
  rewrite in_map_iff. split.
  - intros ([k b] & <- & Hin). apply list_elem_of_In, elem_of_map_to_list in Hin.
    now exists b.
  - intros [b Hb]. exists (d, b). split; [reflexivity|].
    now apply list_elem_of_In, elem_of_map_to_list.
Qed.

Lemma keys_NoDup m : List.NoDup (map fst (map_to_list m)).
Proof. apply NoDup_ListNoDup, NoDup_fst_map_to_list. Qed.

Lemma days_In m d : In d (days m) -> is_Some (m !! d).
Proof.
  unfold days. intros Hd. apply firstn_In in Hd.
  now apply keys_In, sort_In.
Qed.

Lemma days_sorted m : StronglySorted before (days m).
Proof. apply firstn_sorted, sort_sorted, keys_NoDup. Qed.

Lemma days_length m : (length (days m) <= 6)%nat.
Proof. apply firstn_le_length. Qed.

End Buckets.

Section ForecastProperties.

Lemma aggregate_In samples day :
  In day (aggregate samples) ->
  (date day <> "" /\ inherited (date day) = false) /\
  exists b, collect samples !! date day = Some b /\
    min day = round1 (Day.min b) /\ max day = round1 (Day.max b) /\
    description day = str_or (head (Day.descriptions b)) "" /\
    icon day = str_or (head (Day.icons b)) "".
Proof.
  unfold aggregate. intros Hin. apply summarize_In in Hin as [_ (b & Hb & Hrest)].
  split; [|now exists b]. split.
  - intros He. rewrite He in Hb. unfold collect in Hb.
    rewrite collect_no_empty_key in Hb by apply lookup_empty. discriminate.
  - destruct (inherited (date day)) eqn:Hi; [|reflexivity].
    unfold collect in Hb.
    rewrite (collect_no_inherited_key samples ∅) in Hb;
      [discriminate|intros; apply lookup_empty|exact Hi].
Qed.

Lemma collect_skip l1 item l2 :
  undated item -> collect (l1 ++ item :: l2) = collect (l1 ++ l2).
Proof.
  intros Hu. unfold collect. rewrite !fold_left_app. simpl.
  now rewrite step_skip by now apply undated_dateKey.
Qed.

Lemma collect_undated samples : Forall undated samples -> collect samples = ∅.
Proof.
  unfold collect. intros Hall. generalize (∅ : gmap string Day.bucket).
  induction Hall as [|item samples Hu _ IH]; intros m; simpl; [reflexivity|].
  rewrite step_skip by now apply undated_dateKey. apply IH.
Qed.

Lemma Math_round_nearest x s m e :
  Prim2SF x = S754_finite s m e -> e < 0 ->
  let n := if s then Zneg m else Zpos m in
  let d := 2 ^ (- e) in
  exists r, Math_round x = of_integer s r /\ d * (2 * r - 1) <= 2 * n < d * (2 * r + 1).
Proof.
  intros Hx He n d. unfold Math_round. rewrite Hx.
  destruct (0 <=? e) eqn:Hle; [lia|].
  fold n. fold d. exists ((2 * n + d) / (2 * d)). split; [reflexivity|].
  assert (Hd : 0 < d) by (apply Z.pow_pos_nonneg; lia).
  pose proof (Z.div_mod (2 * n + d) (2 * d) ltac:(lia)) as Hdm.
  pose proof (Z.mod_pos_bound (2 * n + d) (2 * d) ltac:(lia)) as Hb.
  nia.
Qed.

End ForecastProperties.


(** C10 (undated samples).  A sample whose [dt_txt] is absent or empty
    changes nothing wherever it stands in the list: [byDay] and the
    forecast are those of the list without it.  A list of such samples
    alone gives the empty forecast. *)
Theorem aggregate_skips_undated :
  (forall l1 item l2, undated item ->
     collect (l1 ++ item :: l2) = collect (l1 ++ l2) /\
     aggregate (l1 ++ item :: l2) = aggregate (l1 ++ l2))
  /\ (forall samples, Forall undated samples -> aggregate samples = []).
Proof.
  split.
  - intros l1 item l2 Hu. unfold aggregate. rewrite collect_skip by exact Hu. auto.
  - intros samples Hu. unfold aggregate. now rewrite collect_undated.
Qed.

(** C10 on the demo samples. *)
Lemma aggregate_skips_undated_witness :
  undated Demo.timeless /\
  aggregate (Demo.two_days ++ Demo.timeless :: Demo.cold)
    = aggregate (Demo.two_days ++ Demo.cold) /\
  aggregate [Demo.timeless; Demo.timeless] = [].
Proof.
  assert (Hu : undated Demo.timeless) by (left; reflexivity).
  split; [exact Hu|]. split.
  - apply (proj1 aggregate_skips_undated). exact Hu.
  - apply (proj2 aggregate_skips_undated). repeat constructor; exact Hu.
Defined.

(** C6, counterexample.  Two samples of one date, the first without a
    description or icon, the second with "light rain" and "10d": the day
    carries the values of the second sample. *)
Lemma description_of_later_sample :
  map dateKey Demo.rain_later = ["2024-01-01"; "2024-01-01"] /\
  map desc Demo.rain_later = [""; "light rain"] /\
  map description (aggregate Demo.rain_later) = ["light rain"] /\
  map icon (aggregate Demo.rain_later) = ["10d"].
Proof. vm_compute. repeat split; reflexivity. Qed.

(** C6, as amended.  The description of an output day is the first
    non-empty description among the samples of its date, in the order of
    the list, and its icon is the first non-empty icon among them (the
    empty string when there is none). *)
Theorem description_first_nonempty samples day :
  In day (aggregate samples) ->
  description day = first_nonempty (map desc (same_day (date day) samples)) /\
  icon day = first_nonempty (map icon_of (same_day (date day) samples)).
Proof.
  intros Hin. apply aggregate_In in Hin as ([Hne Hown] & b & Hb & _ & _ & Hd & Hi).
  destruct (fold_gathers samples ∅ (date day) Hne Hown) as [Gd Gi].
  fold (collect samples) in Gd, Gi. rewrite Hb, lookup_empty in Gd, Gi.
  simpl in Gd, Gi. rewrite Hd, Hi, Gd, Gi. now rewrite !head_nonempty.
Qed.

(** C6 on the samples of the counterexample. *)
Lemma description_first_nonempty_witness :
  let day := {| date := "2024-01-01"; min := 1; max := 2;
                description := "light rain"; icon := "10d" |}%float in
  In day (aggregate Demo.rain_later) /\
  description day = first_nonempty (map desc (same_day (date day) Demo.rain_later)) /\
  icon day = first_nonempty (map icon_of (same_day (date day) Demo.rain_later)).
Proof.
  intros day.
  assert (Hin : In day (aggregate Demo.rain_later)).
  { assert (Hagg : aggregate Demo.rain_later = [day]) by (vm_compute; reflexivity).
    rewrite Hagg. now left. }
  split; [exact Hin|].
  exact (description_first_nonempty Demo.rain_later day Hin).
Defined.

(** When the first sample of a date has a description, it is the one
    sent. *)
Lemma description_of_first_sample samples day first rest :
  In day (aggregate samples) ->
  same_day (date day) samples = first :: rest ->
  desc first <> "" ->
  description day = desc first.
Proof.
  intros Hin Hsame Hfirst.
  apply aggregate_In in Hin as ([Hne Hown] & b & Hb & _ & _ & Hd & _).
  destruct (fold_gathers samples ∅ (date day) Hne Hown) as [Gd _].
  fold (collect samples) in Gd. rewrite Hb, lookup_empty in Gd. simpl in Gd.
  rewrite Hd, Gd, head_nonempty, Hsame. simpl.
  apply falsy_false_ne in Hfirst. now rewrite Hfirst.
Qed.

(** C5, counterexample.  A single reading of -1.25 gives the minimum
    -1.2, not -1.3. *)
Lemma negative_tie_rounds_up :
  map min (aggregate Demo.cold) = [(-1.2)%float] /\
  map min (aggregate Demo.cold) <> [(-1.3)%float].
Proof.
  assert (Hmin : map min (aggregate Demo.cold) = [(-1.2)%float])
    by (vm_compute; reflexivity).
  split; [exact Hmin|]. rewrite Hmin.
  intros Heq.
  apply (f_equal (fun l => match l with
                           | v :: _ => PrimFloat.ltb v (-1.25)%float
                           | [] => false
                           end)) in Heq.
  vm_compute in Heq. discriminate.
Qed.

(** C5, as amended.  The min and max of every output day are
    [Math.round(x * 10) / 10] of the bucket's values.  [Math.round] leaves
    an integral value as it is and otherwise returns the integer [r] with
    [r - 1/2 <= x < r + 1/2]: the nearest integer, a tie going toward
    +Infinity.  So -1.25 becomes -1.2 and 1.25 becomes 1.3. *)
Theorem rounding_is_half_up :
  (forall samples day, In day (aggregate samples) ->
     exists b, collect samples !! date day = Some b /\
       min day = round1 (Day.min b) /\ max day = round1 (Day.max b))
  /\ (forall x, round1 x = (Math_round (x * 10) / 10)%float)
  /\ (forall x s m e, Prim2SF x = S754_finite s m e ->
        (0 <= e -> Math_round x = x) /\
        (e < 0 ->
           let n := if s then Zneg m else Zpos m in
           let d := 2 ^ (- e) in
           exists r, Math_round x = of_integer s r /\
             d * (2 * r - 1) <= 2 * n < d * (2 * r + 1)))
  /\ round1 (-1.25)%float = (-1.2)%float
  /\ round1 1.25%float = 1.3%float.
Proof.
  split; [|split; [reflexivity|split; [|split; vm_compute; reflexivity]]].
  - intros samples day Hin.
    apply aggregate_In in Hin as (_ & b & Hb & Hmin & Hmax & _). eauto.
  - intros x s m e Hx. split.
    + intros He. unfold Math_round. rewrite Hx.
      destruct (0 <=? e) eqn:Hle; [reflexivity|lia].
    + intros He. now apply Math_round_nearest.
Qed.

(** C5 on the reading of -1.25, on -12.5 and on 2^60. *)
Lemma rounding_is_half_up_witness :
  let day := {| date := "2024-01-01"; min := -1.2; max := -1.2;
                description := ""; icon := "" |}%float in
  (exists b, collect Demo.cold !! date day = Some b /\
     min day = round1 (Day.min b) /\ max day = round1 (Day.max b))
  /\ (let n := Zneg 7036874417766400 in
      let d := 2 ^ (- -49) in
      exists r, Math_round (-12.5)%float = of_integer true r /\
        d * (2 * r - 1) <= 2 * n < d * (2 * r + 1))
  /\ Math_round 1152921504606846976%float = 1152921504606846976%float.
Proof.
  intros day.
  destruct rounding_is_half_up as (Hday & _ & Hround & _).
  split; [|split].
  - apply Hday.
    assert (Hagg : aggregate Demo.cold = [day]) by (vm_compute; reflexivity).
    rewrite Hagg. now left.
  - assert (Hx : Prim2SF (-12.5)%float = S754_finite true 7036874417766400 (-49))
      by (vm_compute; reflexivity).
    apply (proj2 (Hround _ _ _ _ Hx)). lia.
  - assert (Hx : Prim2SF 1152921504606846976%float = S754_finite false 4503599627370496 8)
      by (vm_compute; reflexivity).
    apply (proj1 (Hround _ _ _ _ Hx)). lia.
Defined.

(* ================================================================== *)
(** * Further properties: the handlers, the router, the provider and
      the weather page *)
(* ================================================================== *)

Import Text Accounts Router Frontend.

(** ** Credentials: the codec round trip *)

Section HexCodec.

Lemma hex_byte_round_trip (b : byte) :
  let n := Byte.to_N b in
  match digit_of 16 (hex_digit (n / 16)), digit_of 16 (hex_digit (n mod 16)) with
  | Some hi, Some lo => byte_of_nibbles hi lo = b
  | _, _ => False
  end.
Proof. destruct b; vm_compute; reflexivity. Qed.

Lemma fromHex_toHex (buf : Buffer) : fromHex (toHex buf) = buf.
Proof.
  induction buf as [|b buf IH]; [reflexivity|].
  cbn [toHex fromHex]. pose proof (hex_byte_round_trip b) as Hb. cbv zeta in Hb.
  destruct (digit_of 16 (hex_digit (Byte.to_N b / 16))); [|contradiction].
  destruct (digit_of 16 (hex_digit (Byte.to_N b mod 16))); [|contradiction].
  now rewrite Hb, IH.
Qed.

Lemma toHex_injective (a b : Buffer) : toHex a = toHex b -> a = b.
Proof. intros Heq. rewrite <- (fromHex_toHex a), <- (fromHex_toHex b). now rewrite Heq. Qed.

Lemma toHex_length (buf : Buffer) : String.length (toHex buf) = (2 * length buf)%nat.
Proof. induction buf as [|b buf IH]; simpl; lia. Qed.

Lemma hex_digit_lower n :
  existsb (Ascii.eqb (hex_digit n)) (list_ascii_of_string "0123456789abcdef") = true.
Proof.
  unfold hex_digit.
  assert (Hall : Forall (fun c => existsb (Ascii.eqb c)
                                    (list_ascii_of_string "0123456789abcdef") = true)
                   ("f"%char :: list_ascii_of_string "0123456789abcdef"))
    by (repeat constructor).
  rewrite List.Forall_forall in Hall. apply Hall.
  destruct (nth_in_or_default (N.to_nat n)
              (list_ascii_of_string "0123456789abcdef") "f"%char) as [Hin | Hd].
  - now right.
  - rewrite Hd. now left.
Qed.

Lemma toHex_lower_hex buf : lower_hex (toHex buf) = true.
Proof.
  induction buf as [|b buf IH]; [reflexivity|].
  cbn [toHex lower_hex]. now rewrite !hex_digit_lower, IH.
Qed.

Lemma lower_hex_free_of_dollar s : lower_hex s = true -> free_of "$" s = true.
Proof.
  induction s as [|c s IH]; [reflexivity|]. cbn [lower_hex free_of].
  intros Hs. apply andb_prop in Hs as [Hc Hs]. rewrite (IH Hs), andb_true_r.
  destruct (Ascii.eqb_spec c "$") as [->|]; [discriminate Hc | reflexivity].
Qed.

Lemma split_free sep s : free_of sep s = true -> split sep s = [s].
Proof.
  induction s as [|c s IH]; simpl; [reflexivity|].
  destruct (Ascii.eqb c sep); simpl; [discriminate|].
  intros Hs. now rewrite (IH Hs).
Qed.

Lemma split_cons sep a rest :
  free_of sep a = true -> split sep (a ++ String sep rest) = a :: split sep rest.
Proof.
  induction a as [|c a IH]; simpl.
  - now rewrite Ascii.eqb_refl.
  - destruct (Ascii.eqb c sep); simpl; [discriminate|].
    intros Ha. now rewrite (IH Ha).
Qed.

End HexCodec.

Section CodecRoundTrip.
Context `{Pbkdf2}.

Lemma equal_bytes_eq (a b : Buffer) : equal_bytes a b = true <-> a = b.
Proof.
  revert b. induction a as [|x a IH]; intros [|y b]; simpl; split; try congruence.
  - intros Hxy. apply andb_prop in Hxy as [Hx Ha].
    apply Byte.byte_dec_bl in Hx. apply IH in Ha. congruence.
  - intros [= -> ->]. rewrite Byte.byte_dec_lb by reflexivity. now apply IH.
Qed.

Lemma equal_bytes_length (a b : Buffer) :
  length a <> length b -> equal_bytes a b = false.
Proof.
  intros Hlen. destruct (equal_bytes a b) eqn:He; [|reflexivity].
  apply equal_bytes_eq in He. now subst.
Qed.

(** The result of [verifyPassword] on an encoding that passes the checks
    of [pbkdf2Sync]. *)
Lemma verifyPassword_accepted password stored a digest iterStr salt hashHex n :
  split "$" stored = [a; digest; iterStr; salt; hashHex] ->
  digest <> "" -> salt <> "" -> hashHex <> "" ->
  isFinite (Number iterStr) = true ->
  integer_value (Number iterStr) = Some n -> 1 <= n <= 2147483647 ->
  known_digest digest = true ->
  verifyPassword password stored
    = Return (equal_bytes (derive password salt n 32 digest) (fromHex hashHex)).
Proof.
  intros Hs Hd Hsalt Hh Hf Hn Hrange Hk. apply falsy_false_ne in Hd, Hsalt, Hh.
  unfold verifyPassword. rewrite Hs, Hd, Hsalt, Hh, Hf. cbn [orb negb].
  unfold pbkdf2Sync. rewrite (validateInt32_accepted _ _ _ n Hn) by lia.
  cbn [bind]. rewrite keylen_valid. cbn [bind]. rewrite Hk. cbn [bind].
  set (calc := derive password salt n 32 digest).
  destruct (Nat.eqb_spec (length (fromHex hashHex)) (length calc)) as [Hl|Hl]; cbn [negb].
  - unfold timingSafeEqual. rewrite Hl, Nat.eqb_refl. reflexivity.
  - now rewrite equal_bytes_length by congruence.
Qed.

Lemma iterations_text : 
  isFinite (Number PBKDF2_ITER_text) = true /\
  integer_value (Number PBKDF2_ITER_text) = Some 120000.
Proof. split; vm_compute; reflexivity. Qed.

Lemma iterations_valid : validateInt32 PBKDF2_ITER "iterations" 1 = Return 120000.
Proof. vm_compute. reflexivity. Qed.

(** What [hashPassword] returns. *)
Lemma hashPassword_run password src :
  hashPassword password src =
    (if known_digest "sha256"
     then Return ("pbkdf2$sha256$120000$" ++ toHex (map src (seq 0 16)) ++ "$"
                    ++ toHex (derive password (toHex (map src (seq 0 16))) 120000 32 "sha256"))
     else Throw (ERR_CRYPTO_INVALID_DIGEST "sha256"),
     fun i => src (16 + i)%nat).
Proof.
  unfold hashPassword, randomBytes, pbkdf2Sync.
  rewrite iterations_valid, keylen_valid. cbn [bind].
  unfold DIGEST, PBKDF2_ITER_text. now destruct (known_digest "sha256").
Qed.

Lemma hashed_fields salt hash :
  lower_hex salt = true ->  lower_hex hash = true ->
  split "$" ("pbkdf2$sha256$120000$" ++ salt ++ "$" ++ hash)
    = ["pbkdf2"; "sha256"; "120000"; salt; hash].
Proof.
  intros Hsalt Hhash.
  change ("pbkdf2$sha256$120000$" ++ salt ++ "$" ++ hash)
    with ("pbkdf2" ++ String "$" ("sha256" ++ String "$" ("120000" ++ String "$"
            (salt ++ String "$" hash)))).
  rewrite !split_cons by (reflexivity || now apply lower_hex_free_of_dollar).
  now rewrite split_free by now apply lower_hex_free_of_dollar.
Qed.

(** [verifyPassword] on an encoding of the form [hashPassword] writes. *)
Lemma verifyPassword_hashed salt key pw :
  lower_hex salt = true -> salt <> "" -> key <> [] -> known_digest "sha256" = true ->
  verifyPassword pw ("pbkdf2$sha256$120000$" ++ salt ++ "$" ++ toHex key)
    = Return (equal_bytes (derive pw salt 120000 32 "sha256") key).
Proof.
  intros Hsalt Hne Hkey Hk.
  rewrite <- (fromHex_toHex key) at 2.
  apply (verifyPassword_accepted pw _ "pbkdf2" "sha256" "120000" salt (toHex key) 120000).
  - apply hashed_fields; [exact Hsalt|apply toHex_lower_hex].
  - discriminate.
  - exact Hne.
  - destruct key; [congruence|discriminate].
  - apply iterations_text.
  - apply iterations_text.
  - lia.
  - exact Hk.
Qed.

End CodecRoundTrip.

(** X1 (verifyPassword, lines 73-86).  For a stored text of five
    [$]-separated fields whose digest, salt and hash fields are not empty,
    whose iteration field reads as the integer [n] with
    [1 <= n <= 2^31-1], and whose digest the platform knows,
    [verifyPassword] returns a boolean, and the boolean is true exactly
    when the bytes of the hex hash field are the key derived from the
    password with that salt, [n] iterations, 32 bytes and that digest. *)
Theorem verifyPassword_compares_keys `{Pbkdf2}
    password stored a digest iterStr salt hashHex n :
  split "$" stored = [a; digest; iterStr; salt; hashHex] ->
  digest <> "" -> salt <> "" -> hashHex <> "" ->
  isFinite (Number iterStr) = true ->
  integer_value (Number iterStr) = Some n -> 1 <= n <= 2147483647 ->
  known_digest digest = true ->
  exists ok, verifyPassword password stored = Return ok /\
    (ok = true <-> fromHex hashHex = derive password salt n 32 digest).
Proof.
  intros Hs Hd Hsalt Hh Hf Hn Hrange Hk.
  eexists. split.
  - now apply (verifyPassword_accepted password stored a digest iterStr salt hashHex n).
  - rewrite equal_bytes_eq. split; congruence.
Qed.

(** X1 on a stored text of ten iterations whose hash field is seven
    bytes long: the comparison is the one stated and comes out false. *)
Lemma verifyPassword_compares_keys_witness :
  let H := Demo.platform in
  (exists ok, verifyPassword "hunter2" "pbkdf2$sha256$10$00ff$68756e74657232" = Return ok /\
     (ok = true <-> fromHex "68756e74657232" = derive "hunter2" "00ff" 10 32 "sha256"))
  /\ verifyPassword "hunter2" "pbkdf2$sha256$10$00ff$68756e74657232" = Return false.
Proof.
  intros H.
  assert (Hne : forall c s, String c s <> "") by discriminate.
  assert (Hi : integer_value (Number "10") = Some 10) by (vm_compute; reflexivity).
  split.
  - apply (verifyPassword_compares_keys "hunter2" "pbkdf2$sha256$10$00ff$68756e74657232"
             "pbkdf2" "sha256" "10" "00ff" "68756e74657232" 10 eq_refl
             (Hne _ _) (Hne _ _) (Hne _ _)); [reflexivity | exact Hi | lia | reflexivity].
  - vm_compute. reflexivity.
Defined.

(** X2 (hashPassword and verifyPassword, lines 65-86).  When the
    platform knows sha256 and the derived key is not empty,
    [hashPassword] returns [pbkdf2$sha256$120000$salt$key] with the salt
    and the key in hex, and has drawn exactly 16 bytes of entropy;
    [split] reads the five fields back; [verifyPassword] accepts the
    password the text was made from, and accepts another password exactly
    when that one derives the same key. *)
Theorem hashPassword_verifies `{Pbkdf2} password other src :
  known_digest "sha256" = true ->
  let salt := toHex (map src (seq 0 16)) in
  let key := fun pw => derive pw salt 120000 32 "sha256" in
  key password <> [] ->
  exists stored,
    hashPassword password src = (Return stored, fun i => src (16 + i)%nat) /\
    split "$" stored = ["pbkdf2"; "sha256"; "120000"; salt; toHex (key password)] /\
    verifyPassword password stored = Return true /\
    (verifyPassword other stored = Return true <-> key other = key password).
Proof.
  intros Hk salt key Hkey.
  exists ("pbkdf2$sha256$120000$" ++ salt ++ "$" ++ toHex (key password)).
  assert (Hfields : split "$" ("pbkdf2$sha256$120000$" ++ salt ++ "$" ++ toHex (key password))
                    = ["pbkdf2"; "sha256"; "120000"; salt; toHex (key password)])
    by (apply hashed_fields; apply toHex_lower_hex).
  assert (Hsalt : salt <> "") by (unfold salt; discriminate).
  assert (Hhash : toHex (key password) <> "").
  { destruct (key password); [congruence | discriminate]. }
  assert (Hrun : forall pw,
             verifyPassword pw ("pbkdf2$sha256$120000$" ++ salt ++ "$" ++ toHex (key password))
             = Return (equal_bytes (key pw) (key password))).
  { intros pw. rewrite <- (fromHex_toHex (key password)) at 2.
    apply (verifyPassword_accepted pw _ "pbkdf2" "sha256" "120000" salt
             (toHex (key password)) 120000 Hfields);
      try assumption; try discriminate; try lia; apply iterations_text. }
  split; [|split; [exact Hfields|split]].
  - rewrite hashPassword_run, Hk. reflexivity.
  - rewrite Hrun. f_equal. now apply equal_bytes_eq.
  - rewrite Hrun. split.
    + intros [= He]. now apply equal_bytes_eq.
    + intros He. f_equal. now apply equal_bytes_eq.
Qed.

(** X2 on the stand-in platform: the hash of "hunter2" verifies and
    "hunter3" does not. *)
Lemma hashPassword_verifies_witness :
  let H := Demo.platform in
  exists stored,
    fst (hashPassword "hunter2" (random Demo.st)) = Return stored /\
    verifyPassword "hunter2" stored = Return true /\
    verifyPassword "hunter3" stored <> Return true.
Proof.
  intros H.
  assert (Hkey : derive "hunter2" (toHex (map (random Demo.st) (seq 0 16))) 120000 32 "sha256"
                 <> []) by (vm_compute; discriminate).
  assert (Hknown : known_digest "sha256" = true) by reflexivity.
  destruct (hashPassword_verifies "hunter2" "hunter3" (random Demo.st) Hknown Hkey)
    as (stored & Hrun & _ & Hok & Hother).
  exists stored. split; [now rewrite Hrun|]. split; [exact Hok|].
  intros Hbad. apply Hother in Hbad. vm_compute in Hbad. discriminate.
Defined.

(** X3 (makeToken, lines 88-90).  [makeToken(n)] is a text of [2n]
    characters, all of them digits 0-9 or a-f; it decodes to the [n]
    bytes drawn, [trim] leaves it as it is, the entropy source has moved
    on by [n] bytes, and two sources give the same token only when their
    first [n] bytes are the same. *)
Theorem makeToken_hex (n : nat) (src : entropy) :
  let token := fst (makeToken n src) in
  String.length token = (2 * n)%nat /\
  lower_hex token = true /\
  fromHex token = map src (seq 0 n) /\
  trim token = token /\
  (forall i, snd (makeToken n src) i = src (n + i)%nat) /\
  (forall src', fst (makeToken n src') = token -> map src' (seq 0 n) = map src (seq 0 n)).
Proof.
  cbn. repeat split.
  - now rewrite toHex_length, length_map, length_seq.
  - apply toHex_lower_hex.
  - apply fromHex_toHex.
  - apply trim_spaceless, toHex_spaceless.
  - intros src'. apply toHex_injective.
Qed.

(** ** The bearer token and the login handler *)

Section Trimming.

Lemma trimStart_head s :
  trimStart s = "" \/ exists c t, trimStart s = String c t /\ is_space c = false.
Proof.
  induction s as [|c s IH]; simpl; [now left|].
  destruct (is_space c) eqn:Hc; [exact IH|]. right. eauto.
Qed.

Lemma trimEnd_head c s :
  is_space c = false -> exists t, trimEnd (String c s) = String c t.
Proof.
  intros Hc. simpl. destruct (trimEnd s); rewrite ?Hc; eauto.
Qed.

Lemma trimEnd_idempotent s : trimEnd (trimEnd s) = trimEnd s.
Proof.
  induction s as [|c s IH]; simpl; [reflexivity|].
  destruct (trimEnd s) as [|d t] eqn:Ht.
  - destruct (is_space c) eqn:Hc; simpl; [reflexivity | now rewrite Hc].
  - change (trimEnd (String c (String d t))) with
      (match trimEnd (String d t) with
       | "" => if is_space c then "" else String c ""
       | u => String c u
       end).
    now rewrite IH.
Qed.

Lemma trim_idempotent s : trim (trim s) = trim s.
Proof.
  unfold trim.
  destruct (trimStart_head s) as [-> | (c & t & -> & Hc)]; [reflexivity|].
  destruct (trimEnd_head c t Hc) as [u Hu]. rewrite Hu.
  assert (Hs : trimStart (String c u) = String c u) by (simpl; now rewrite Hc).
  rewrite Hs, <- Hu. apply trimEnd_idempotent.
Qed.

Lemma startsWith_app p t : startsWith p (p ++ t) = true.
Proof.
  unfold startsWith. induction p as [|c p IH]; simpl.
  - now destruct t.
  - destruct (ascii_dec c c); [exact IH | congruence].
Qed.

End Trimming.

(** X4 (getAuthToken, lines 97-101).  Without an Authorization
    header, or with one that does not start with "Bearer " (in this
    spelling), the token is the empty string; for "Bearer " followed by
    [t] it is [t] trimmed; the token has no space at either end; and an
    empty token resolves to no user in any session map. *)
Theorem getAuthToken_cases (req : request) :
  (authorization req = None -> getAuthToken req = "") /\
  (forall h, authorization req = Some h -> startsWith "Bearer " h = false ->
     getAuthToken req = "") /\
  (forall t, authorization req = Some ("Bearer " ++ t) -> getAuthToken req = trim t) /\
  trim (getAuthToken req) = getAuthToken req /\
  (forall m, getAuthToken req = "" -> resolve m (getAuthToken req) = None).
Proof.
  unfold getAuthToken. repeat split.
  - now intros ->.
  - intros h -> Hp. destruct h; simpl in *; [reflexivity | now rewrite Hp].
  - intros t ->.
    assert (Hs : str_or (Some ("Bearer " ++ t)) "" = "Bearer " ++ t) by reflexivity.
    rewrite Hs, startsWith_app. reflexivity.
  - destruct (negb _); [reflexivity | apply trim_idempotent].
  - intros m ->. unfold resolve. now destruct (m !! "").
Qed.

(** X4 on three headers: a lower-case scheme, a token between spaces
    and a token of spaces only. *)
Lemma getAuthToken_cases_witness :
  let header := fun h => {| method := "GET"; authorization := Some h; body := Fields ∅ |} in
  getAuthToken (header "bearer 00ff") = "" /\
  getAuthToken (header "Bearer  00ff ") = trim " 00ff " /\
  resolve (sessions Demo.st) (getAuthToken (header "Bearer   ")) = None.
Proof.
  intros header. split; [|split].
  - apply (proj1 (proj2 (getAuthToken_cases (header "bearer 00ff"))) "bearer 00ff");
      reflexivity.
  - apply (proj1 (proj2 (proj2 (getAuthToken_cases (header "Bearer  00ff ")))) " 00ff ").
    reflexivity.
  - apply (proj2 (proj2 (proj2 (proj2 (getAuthToken_cases (header "Bearer   ")))))).
    reflexivity.
Defined.

Section Login.
Context `{Pbkdf2}.


(** What POST /auth/login does for a JSON body with an e-mail and a
    password. *)
Lemma login_run st req f :
  method req = "POST" -> body req = Fields f ->
  let email := toLowerCase (trim (str_or (f !! "email") "")) in
  let password := str_or (f !! "password") "" in
  email <> "" -> password <> "" ->
  serve (login req) st =
    match Store.select_by_email email (users st) with
    | None => (unauthorized_login, st)
    | Some row =>
        match verifyPassword password (Store.password_hash row) with
        | Throw e => (server_error e, st)
        | Return false => (unauthorized_login, st)
        | Return true =>
            let token := fst (makeToken 24 (random st)) in
            (sendJson 200
               (JObj [("token", JStr token);
                      ("user", JObj [("id", JNum (Store.id row));
                                     ("email", JStr (Store.email row));
                                     ("name", JStr (Store.name row));
                                     ("theme", JStr (Store.theme row))])]),
             {| sessions := <[token := Store.id row]> (sessions st);
                users := users st;
                random := snd (makeToken 24 (random st)) |})
        end
    end.
Proof.
  intros Hm Hb email password He Hp. apply falsy_false_ne in He, Hp.
  unfold serve, login, readJsonBody, issue, mbind, get_users, get_sessions,
    put_sessions, ret, with_entropy, lift.
  rewrite Hm, Hb. change (negb ("POST" =? "POST")%string) with false.
  cbv beta iota. fold email password. rewrite He, Hp. cbn [orb].
  destruct (Store.select_by_email email (users st)) as [row|]; [|reflexivity].
  destruct (verifyPassword password (Store.password_hash row)) as [[|]|e];
    reflexivity.
Qed.

End Login.

(** X5 (POST /auth/login, lines 206-235).  For a POST with a JSON
    body whose e-mail (trimmed, lower-cased) and password are not empty:
    an unknown e-mail and a wrong password get the same answer, 401
    "invalid credentials", and leave the state as it was; when
    [verifyPassword] accepts, the answer is 200 with a token and the id,
    e-mail, name and theme of the row, the users table is unchanged, the
    session map has gained exactly that token for the id of the row, and
    the token resolves to that id when the id is not 0. *)
Theorem login_outcomes `{Pbkdf2} st req f :
  method req = "POST" -> body req = Fields f ->
  let email := toLowerCase (trim (str_or (f !! "email") "")) in
  let password := str_or (f !! "password") "" in
  email <> "" -> password <> "" ->
  let out := serve (login req) st in
  (Store.select_by_email email (users st) = None -> out = (unauthorized_login, st))
  /\ (forall row, Store.select_by_email email (users st) = Some row ->
        verifyPassword password (Store.password_hash row) = Return false ->
        out = (unauthorized_login, st))
  /\ (forall row, Store.select_by_email email (users st) = Some row ->
        verifyPassword password (Store.password_hash row) = Return true ->
        exists token,
          fst out = sendJson 200
                      (JObj [("token", JStr token);
                             ("user", JObj [("id", JNum (Store.id row));
                                            ("email", JStr (Store.email row));
                                            ("name", JStr (Store.name row));
                                            ("theme", JStr (Store.theme row))])]) /\
          users (snd out) = users st /\
          sessions (snd out) = <[token := Store.id row]> (sessions st) /\
          (Store.id row <> 0 -> resolve (sessions (snd out)) token = Some (Store.id row))).
Proof.
  intros Hm Hb email password He Hp out. subst out.
  rewrite (login_run st req f Hm Hb He Hp). fold email password.
  split; [|split].
  - now intros ->.
  - intros row -> Hv. now rewrite Hv.
  - intros row -> Hv. rewrite Hv. cbv zeta.
    exists (fst (makeToken 24 (random st))). cbn [fst snd users sessions].
    repeat split. intros Hid. apply resolve_insert; [|exact Hid].
    apply toHex_falsy. discriminate.
Qed.

(** X5 on a table with one account: an unknown e-mail, a wrong
    password, and the right password with the e-mail in another case. *)
Lemma login_outcomes_witness :
  let H := Demo.platform in
  let alice_ok := {| Store.id := 1; Store.email := "alice@example.com";
                     Store.name := "Alice";
                     Store.password_hash :=
                       "pbkdf2$sha256$120000$00ff$68756e7465723230306666000000000000000000000000000000000000000000";
                     Store.theme := "dark";
                     Store.reset_token := None; Store.reset_expires := None |} in
  let st := {| sessions := ∅; users := [alice_ok]; random := random Demo.st |} in
  fst (serve (login (Demo.post [("email", "nobody@example.com"); ("password", "hunter2")])) st)
    = unauthorized_login
  /\ fst (serve (login (Demo.post [("email", "alice@example.com"); ("password", "wrong")])) st)
    = unauthorized_login
  /\ exists token,
       resolve (sessions (snd (serve (login (Demo.post [("email", " Alice@Example.com");
                                                          ("password", "hunter2")])) st)))
         token = Some 1.
Proof.
  intros H alice_ok st.
  assert (Hne : forall c s, String c s <> "") by discriminate.
  split; [|split].
  - refine (f_equal fst (proj1 (login_outcomes st
              (Demo.post [("email", "nobody@example.com"); ("password", "hunter2")])
              _ eq_refl eq_refl _ _) _)).
    + vm_compute. discriminate.
    + vm_compute. discriminate.
    + vm_compute. reflexivity.
  - refine (f_equal fst (proj1 (proj2 (login_outcomes st
              (Demo.post [("email", "alice@example.com"); ("password", "wrong")])
              _ eq_refl eq_refl _ _)) alice_ok _ _)).
    + vm_compute. discriminate.
    + vm_compute. discriminate.
    + vm_compute. reflexivity.
    + vm_compute. reflexivity.
  - destruct (proj2 (proj2 (login_outcomes st
              (Demo.post [("email", " Alice@Example.com"); ("password", "hunter2")])
              _ eq_refl eq_refl ltac:(vm_compute; discriminate)
              ltac:(vm_compute; discriminate))) alice_ok
              ltac:(vm_compute; reflexivity) ltac:(vm_compute; reflexivity))
      as (token & _ & _ & _ & Hres).
    exists token. apply Hres. discriminate.
Defined.

(** ** A reset request and its use *)

Section ResetComposition.
Context `{Pbkdf2}.

Lemma makeToken_length n src : String.length (fst (makeToken n src)) = (2 * n)%nat.
Proof. cbn. now rewrite toHex_length, length_map, length_seq. Qed.

Lemma makeToken_not_empty n src : n <> 0%nat -> fst (makeToken n src) <> "".
Proof.
  intros Hn Hempty. pose proof (makeToken_length n src) as Hlen.
  rewrite Hempty in Hlen. cbn in Hlen. lia.
Qed.

(** The pending request after POST /auth/request-reset for a registered
    e-mail. *)
Lemma request_reset_pending st now req f user :
  method req = "POST" -> body req = Fields f ->
  let email := toLowerCase (trim (str_or (f !! "email") "")) in
  email <> "" ->
  Store.select_by_email email (users st) = Some user ->
  0 <= now ->
  let st1 := snd (serve (request_reset now req) st) in
  users st1 = Store.update_where_id
                (Store.set_reset (fst (makeToken 16 (random st))) (now + 900000))
                (Store.id user) (users st) /\
  sessions st1 = sessions st /\
  pending (users st1) email
    = Some (Store.id user, fst (makeToken 16 (random st)), now + 900000).
Proof.
  intros Hm Hb email He Hsel Hnow st1. subst st1.
  rewrite (request_reset_run st now req f Hm Hb). cbv zeta. fold email.
  destruct (falsy email) eqn:Hf; [destruct email; [congruence|discriminate]|].
  rewrite Hsel.
  destruct (makeToken 16 (random st)) as [tok src] eqn:Htok.
  change (now + 15 * 60 * 1000) with (now + 900000).
  cbn [fst snd with_users with_random users sessions].
  split; [reflexivity|]. split; [reflexivity|].
  apply pending_spec. exists (Store.set_reset tok (now + 900000) user).
  rewrite select_after_update by reflexivity. rewrite Hsel. cbn [option_map].
  rewrite Z.eqb_refl. cbn [Store.set_reset Store.id Store.reset_token Store.reset_expires].
  split; [reflexivity|]. split; [reflexivity|]. split; [reflexivity|].
  split; [reflexivity|]. split; [|lia].
  pose proof (makeToken_not_empty 16 (random st)) as Hne. rewrite Htok in Hne.
  apply Hne. discriminate.
Qed.

End ResetComposition.

(** X6 (POST /auth/request-reset with lines 292-309 of POST
    /auth/reset).  After a reset request for a registered e-mail at time
    [now >= 0], the account has the pending token [makeToken(16)] of 32
    characters with expiry [now + 900000], whatever was pending before,
    and the sessions are untouched.  From then on another token is
    answered "invalid token", the token presented after the expiry is
    answered "token expired", both without any change; presented up to
    and including the expiry it succeeds, clears the pending request and
    leaves the row of that id with the new hash. *)
Theorem reset_request_then_consume `{Pbkdf2} st now req f user :
  method req = "POST" -> body req = Fields f ->
  let email := toLowerCase (trim (str_or (f !! "email") "")) in
  email <> "" ->
  Store.select_by_email email (users st) = Some user ->
  0 <= now ->
  let tok := fst (makeToken 16 (random st)) in
  let st1 := snd (serve (request_reset now req) st) in
  pending (users st1) email = Some (Store.id user, tok, now + 900000)
  /\ String.length tok = 32%nat
  /\ sessions st1 = sessions st
  /\ (forall now' tok' pw, tok' <> tok ->
        serve (consume now' email tok' pw) st1 = (failure "invalid token", st1))
  /\ (forall now' pw, now + 900000 < now' ->
        serve (consume now' email tok pw) st1 = (failure "token expired", st1))
  /\ (forall now' pw h, now' <= now + 900000 ->
        fst (hashPassword pw (random st1)) = Return h ->
        let out := serve (consume now' email tok pw) st1 in
        fst out = success /\ sessions (snd out) = sessions st /\
        pending (users (snd out)) email = None /\
        exists row, Store.select_by_email email (users (snd out)) = Some row /\
                    Store.id row = Store.id user /\
                    Store.password_hash row = h).
Proof.
  intros Hm Hb email He Hsel Hnow tok st1.
  destruct (request_reset_pending st now req f user Hm Hb He Hsel Hnow)
    as (Husers & Hsess & Hpend).
  fold email in Hpend. fold st1 in Husers, Hsess, Hpend. fold tok in Husers, Hpend.
  split; [exact Hpend|]. split; [apply makeToken_length|]. split; [exact Hsess|].
  split; [|split].
  - intros now' tok' pw Hne. rewrite consume_run, Hpend.
    destruct (String.eqb tok tok') eqn:Heq; [|reflexivity].
    apply String.eqb_eq in Heq. congruence.
  - intros now' pw Hlate. rewrite consume_run, Hpend, String.eqb_refl. cbn [negb].
    destruct (now + 900000 <? now') eqn:Hlt; [reflexivity|]. apply Z.ltb_ge in Hlt. lia.
  - intros now' pw h Hin Hh out. subst out. rewrite consume_run, Hpend, String.eqb_refl.
    cbn [negb].
    destruct (now + 900000 <? now') eqn:Hlt; [apply Z.ltb_lt in Hlt; lia|].
    destruct (hashPassword pw (random st1)) as [[h'|e] src] eqn:Hhash;
      cbn [fst] in Hh; [|discriminate].
    injection Hh as ->.
    cbn [fst snd with_users with_random users sessions].
    split; [reflexivity|]. split; [exact Hsess|].
    destruct (pending_cleared email (Store.id user) h (users st1)) as (Hnone & row & Hrow & Hhash' & _).
    { now exists tok, (now + 900000). }
    split; [exact Hnone|]. exists row. split; [exact Hrow|]. split; [|exact Hhash'].
    rewrite select_after_update in Hrow by reflexivity.
    apply pending_spec in Hpend. destruct Hpend as (row1 & Hsel1 & Hid1 & _).
    rewrite Hsel1 in Hrow. cbn [option_map] in Hrow. rewrite Hid1, Z.eqb_refl in Hrow.
    injection Hrow as <-. exact Hid1.
Qed.

(** X6 on the demo state: Bob asks for a reset and uses the token at the
    last millisecond, and one millisecond late. *)
Lemma reset_request_then_consume_witness :
  let H := Demo.platform in
  let now := 1700000000000 in
  let req := Demo.post [("email", "Bob@Example.com ")] in
  let st1 := snd (serve (request_reset now req) Demo.st) in
  exists tok,
    pending (users st1) "bob@example.com" = Some (2, tok, 1700000900000)
    /\ serve (consume 1700000900001 "bob@example.com" tok "new-secret") st1
         = (failure "token expired", st1)
    /\ fst (serve (consume 1700000900000 "bob@example.com" tok "new-secret") st1) = success.
Proof.
  intros H now req st1.
  assert (Hsel : Store.select_by_email
                   (toLowerCase (trim (str_or
                      ((list_to_map [("email", "Bob@Example.com ")]
                          : gmap string string) !! "email") "")))
                   (users Demo.st) = Some Demo.bob) by (vm_compute; reflexivity).
  assert (He : toLowerCase (trim (str_or
                      ((list_to_map [("email", "Bob@Example.com ")]
                          : gmap string string) !! "email") "")) = "bob@example.com")
    by (vm_compute; reflexivity).
  pose proof (reset_request_then_consume Demo.st now req _ Demo.bob eq_refl eq_refl) as T.
  cbv zeta in T. rewrite He in T.
  specialize (T ltac:(discriminate)). rewrite <- He in T at 1.
  specialize (T Hsel ltac:(unfold now; lia)).
  destruct T as (Hpend & _ & _ & _ & Hlate & Hok).
  exists (fst (makeToken 16 (random Demo.st))).
  split; [exact Hpend|]. split.
  - apply Hlate. unfold now. lia.
  - assert (Hh : exists h, fst (hashPassword "new-secret" (random st1)) = Return h).
    { eexists. vm_compute. reflexivity. }
    destruct Hh as [h Hh].
    exact (proj1 (Hok 1700000900000 "new-secret" h ltac:(unfold now; lia) Hh)).
Defined.

(** ** Login after a reset *)

(** X7 (lines 292-309 of POST /auth/reset, then POST
    /auth/login).  After a reset that succeeded, with a new password
    whose key is not empty, the sessions are as before (a reset logs
    nobody out), a login with that e-mail succeeds with every password
    that derives the key of the new one, and with any other password it
    is answered 401 "invalid credentials" and changes nothing: the old
    password no longer works unless it derives the same key. *)
Theorem reset_then_login `{Pbkdf2} st now email tok pw :
  fst (serve (consume now email tok pw) st) = success ->
  let salt := toHex (List.map (random st) (seq 0 16)) in
  let key := fun p => derive p salt 120000 32 "sha256" in
  key pw <> [] ->
  let st1 := snd (serve (consume now email tok pw) st) in
  sessions st1 = sessions st
  /\ forall req f,
       method req = "POST" -> body req = Fields f ->
       toLowerCase (trim (str_or (f !! "email") "")) = email -> email <> "" ->
       let password := str_or (f !! "password") "" in
       password <> "" ->
       (key password = key pw -> status (fst (serve (login req) st1)) = 200)
       /\ (key password <> key pw ->
           serve (login req) st1 = (unauthorized_login, st1)).
Proof.
  intros Hok salt key Hkey st1. subst st1. revert Hok. rewrite consume_run.
  destruct (pending (users st) email) as [[[i token] expires]|] eqn:Hpend; [|discriminate].
  destruct (negb (String.eqb token tok)); [discriminate|].
  destruct (expires <? now); [discriminate|].
  rewrite hashPassword_run. fold salt. fold (key pw).
  destruct (known_digest "sha256") eqn:Hk;
    [|intros Hbad; apply (f_equal status) in Hbad; discriminate Hbad].
  intros _. cbn [snd]. unfold with_users at 1, with_random at 1. cbn [sessions].
  split; [reflexivity|].
  intros req f Hm Hb He Hne. set (password := str_or (f !! "password") ""). intros Hpw.
  set (h := "pbkdf2$sha256$120000$" ++ salt ++ "$" ++ toHex (key pw)).
  set (st1 := with_users _ _).
  destruct (pending_cleared email i h (users st)) as (_ & row & Hrow & Hhash & _).
  { now exists token, expires. }
  pose proof (login_run st1 req f Hm Hb) as Hlogin. cbv zeta in Hlogin.
  rewrite He in Hlogin. fold password in Hlogin. specialize (Hlogin Hne Hpw).
  assert (Hsel : Store.select_by_email email (users st1) = Some row) by exact Hrow.
  rewrite Hsel, Hhash in Hlogin. unfold h in Hlogin.
  rewrite verifyPassword_hashed in Hlogin;
    [|apply toHex_lower_hex|unfold salt; discriminate|exact Hkey|exact Hk].
  fold (key password) in Hlogin. split.
  - intros Heq. rewrite Heq in Hlogin.
    replace (equal_bytes (key pw) (key pw)) with true in Hlogin
      by (symmetry; now apply equal_bytes_eq).
    now rewrite Hlogin.
  - intros Hdiff.
    replace (equal_bytes (key password) (key pw)) with false in Hlogin; [exact Hlogin|].
    symmetry. destruct (equal_bytes (key password) (key pw)) eqn:Heq; [|reflexivity].
    apply equal_bytes_eq in Heq. contradiction.
Qed.

(** X7 on the demo state: Alice resets her password, logs in with the
    new one and is refused with the old one. *)
Lemma reset_then_login_witness :
  let H := Demo.platform in
  let st1 := snd (serve (consume 1700000000000 "alice@example.com"
                           "5f1d0c9a7b3e4d2c8a6f0e1b9c7d5a3f" "new-secret") Demo.st) in
  status (fst (serve (login (Demo.post [("email", "Alice@example.com");
                                        ("password", "new-secret")])) st1)) = 200
  /\ serve (login (Demo.post [("email", "alice@example.com"); ("password", "hunter2")])) st1
     = (unauthorized_login, st1).
Proof.
  intros H st1.
  assert (Hok : fst (serve (consume 1700000000000 "alice@example.com"
                              "5f1d0c9a7b3e4d2c8a6f0e1b9c7d5a3f" "new-secret") Demo.st)
                = success) by (vm_compute; reflexivity).
  destruct (reset_then_login Demo.st 1700000000000 "alice@example.com"
              "5f1d0c9a7b3e4d2c8a6f0e1b9c7d5a3f" "new-secret" Hok
              ltac:(vm_compute; discriminate)) as [_ Hlogin].
  split.
  - refine (proj1 (Hlogin (Demo.post [("email", "Alice@example.com");
                                      ("password", "new-secret")]) _ eq_refl eq_refl _ _ _) _).
    + vm_compute. reflexivity.
    + discriminate.
    + vm_compute. discriminate.
    + vm_compute. reflexivity.
  - refine (proj2 (Hlogin (Demo.post [("email", "alice@example.com");
                                      ("password", "hunter2")]) _ eq_refl eq_refl _ _ _) _).
    + vm_compute. reflexivity.
    + discriminate.
    + vm_compute. discriminate.
    + vm_compute. discriminate.
Defined.

(** ** What a handler does to the state *)

Ltac run_handler :=
  cbv beta iota zeta
    delta [readJsonBody issue mbind ret throw get_users get_sessions
           put_sessions put_users with_entropy lift requireAuth insert_user];
  repeat (match goal with
          | |- context [match ?x with _ => _ end] =>
              lazymatch x with
              | context [match _ with _ => _ end] => fail
              | _ => destruct x eqn:?
              end
          end; cbv beta iota zeta);
  unfold core_step; cbn [snd fst users sessions random].

Section Lookups.

Lemma known_In t i : known t i <-> In i (List.map Store.id t).
Proof.
  unfold known, select_by_id. split.
  - intros [row Hrow]. apply List.find_some in Hrow as [Hin Hid].
    apply Z.eqb_eq in Hid. subst i. now apply List.in_map.
  - intros Hin. apply List.in_map_iff in Hin as (u & Hid & Hin).
    destruct (List.find (fun u => Store.id u =? i) t) as [row|] eqn:Hfind; [now exists row|].
    exfalso. apply (List.find_none _ _ Hfind) in Hin. rewrite Hid, Z.eqb_refl in Hin.
    discriminate.
Qed.

Lemma select_by_email_In e t u :
  Store.select_by_email e t = Some u -> In u t /\ Store.email u = e.
Proof.
  unfold Store.select_by_email. intros Hfind.
  apply List.find_some in Hfind as [Hin He]. apply String.eqb_eq in He. now split.
Qed.

Lemma select_by_email_known e t u :
  Store.select_by_email e t = Some u -> known t (Store.id u).
Proof.
  intros Hsel. apply known_In. apply select_by_email_In in Hsel as [Hin _].
  now apply List.in_map.
Qed.

Lemma select_by_email_None e t :
  Store.select_by_email e t = None <-> ~ In e (List.map Store.email t).
Proof.
  unfold Store.select_by_email. split.
  - intros Hnone Hin. apply List.in_map_iff in Hin as (u & He & Hin).
    apply (List.find_none _ _ Hnone) in Hin. rewrite He, String.eqb_refl in Hin.
    discriminate.
  - intros Hnot. destruct (List.find _ t) as [u|] eqn:Hfind; [|reflexivity].
    exfalso. apply Hnot. apply List.find_some in Hfind as [Hin He].
    apply String.eqb_eq in He. subst e. now apply List.in_map.
Qed.

Lemma existsb_email e t :
  existsb (fun u => String.eqb (Store.email u) e) t
  = match Store.select_by_email e t with Some _ => true | None => false end.
Proof.
  unfold Store.select_by_email. induction t as [|u t IH]; [reflexivity|].
  cbn. destruct (String.eqb (Store.email u) e); [reflexivity|exact IH].
Qed.

Lemma existsb_id i t :
  existsb (fun u => Store.id u =? i) t = true <-> known t i.
Proof.
  rewrite known_In, List.existsb_exists, List.in_map_iff. split.
  - intros (u & Hin & Hid). apply Z.eqb_eq in Hid. now exists u.
  - intros (u & Hid & Hin). exists u. split; [exact Hin|]. now apply Z.eqb_eq.
Qed.

Lemma update_identity set i t :
  (forall u, identity (set u) = identity u) ->
  List.map identity (Store.update_where_id set i t) = List.map identity t.
Proof.
  intros Hset. unfold Store.update_where_id. rewrite List.map_map.
  apply List.map_ext. intros u. destruct (Store.id u =? i); [apply Hset|reflexivity].
Qed.

Lemma identity_ids t t' :
  List.map identity t' = List.map identity t ->
  List.map Store.id t' = List.map Store.id t /\
  List.map Store.email t' = List.map Store.email t.
Proof.
  intros Heq. split.
  - apply (f_equal (List.map (fun x => fst (fst x)))) in Heq.
    now rewrite !List.map_map in Heq.
  - apply (f_equal (List.map (fun x => snd (fst x)))) in Heq.
    now rewrite !List.map_map in Heq.
Qed.

Lemma next_id_above t : forall i, In i (List.map Store.id t) -> i < next_id t.
Proof.
  unfold next_id. induction t as [|u t IH]; cbn; [tauto|].
  intros i [<-|Hin]; [lia|]. specialize (IH i Hin). lia.
Qed.

Lemma next_id_positive t : 0 < next_id t.
Proof.
  unfold next_id. induction t as [|u t IH]; cbn; lia.
Qed.

End Lookups.

Section Transitions.
Context `{Pbkdf2}.

Ltac same_step := split; [apply users_same | apply sessions_same].

Lemma login_step req s : core_step s (snd (login req s)).
Proof.
  unfold login. run_handler; try same_step.
  split; [apply users_same|]. apply sessions_issued.
  eapply select_by_email_known; eassumption.
Qed.

Lemma logout_step req s : core_step s (snd (logout req s)).
Proof.
  unfold logout. run_handler; try same_step.
  split; [apply users_same | apply sessions_revoked].
Qed.

Lemma request_reset_step now req s : core_step s (snd (request_reset now req s)).
Proof.
  unfold request_reset. run_handler; try same_step.
  split; [|apply sessions_same]. now apply users_updated.
Qed.

Lemma reset_step now req s : core_step s (snd (reset now req s)).
Proof.
  unfold reset, consume. run_handler; try same_step.
  split; [|apply sessions_same]. now apply users_updated.
Qed.

Lemma me_theme_step req s : core_step s (snd (me_theme req s)).
Proof.
  unfold me_theme. run_handler; try same_step.
  split; [|apply sessions_same]. now apply users_updated.
Qed.

Lemma me_step req s : snd (me req s) = s.
Proof.
  unfold me. run_handler; reflexivity.
Qed.

Lemma register_step req s : core_step s (snd (register req s)).
Proof.
  unfold register. run_handler; try same_step.
  split.
  - now apply users_inserted.
  - apply sessions_issued. apply known_In. rewrite List.map_app.
    apply List.in_or_app. right. now left.
Qed.

End Transitions.

(** ** The router, one request at a time *)

Ltac eval_eqb :=
  repeat match goal with
         | |- context [String.eqb ?a ?b] =>
             let v := eval vm_compute in (String.eqb a b) in
             lazymatch v with
             | true => change (String.eqb a b) with true
             | false => change (String.eqb a b) with false
             end
         end;
  cbv beta iota; cbn [andb].


Section RouterSteps.
Context `{Pbkdf2}.

Lemma listener_world env rq w : snd (listener env rq w) = snd (route env rq w).
Proof. unfold listener, caught. now destruct (route env rq w) as [[r|e] w']. Qed.

Lemma json_world (h : M response) w :
  snd (json h w) = {| core := snd (h (core w)); searches := searches w |}.
Proof.
  unfold json, of_core, wbind, wret. now destruct (h (core w)) as [[r|e] s].
Qed.

Lemma world_same w : transition w w.
Proof. split; [apply users_same|]. split; [apply sessions_same | apply searches_same]. Qed.

Lemma core_transition (h : M response) w :
  core_step (core w) (snd (h (core w))) -> transition w (snd (json h w)).
Proof.
  intros [Hu Hs]. rewrite json_world. split; [exact Hu|]. split; [exact Hs|].
  apply searches_same.
Qed.

Lemma requireAuth_run req s :
  requireAuth req s
  = (Return match resolve (sessions s) (getAuthToken req) with
            | Some userId => inr userId
            | None => inl unauthorized
            end, s).
Proof.
  unfold requireAuth, mbind, get_sessions, ret.
  now destruct (resolve (sessions s) (getAuthToken req)).
Qed.

Lemma history_get_run req w :
  history_get req w
  = (Return match resolve (sessions (core w)) (getAuthToken req) with
            | Some userId => HistoryRows (History.select_history userId (searches w))
            | None => Json unauthorized
            end, w).
Proof.
  unfold history_get, wbind, of_core, get_searches, wret. rewrite requireAuth_run.
  destruct w as [s rows]. cbn [core searches].
  now destruct (resolve (sessions s) (getAuthToken req)).
Qed.

Lemma history_post_run env req w :
  history_post env req w
  = match resolve (sessions (core w)) (getAuthToken req) with
    | None => (Return (Json unauthorized), w)
    | Some userId =>
        match body req with
        | Malformed => (Throw (Error "Invalid JSON"), w)
        | Fields f =>
            let city := trim (str_or (f !! "city") "") in
            let lang := trim (str_or (f !! "lang") "en") in
            if falsy city then (Return (Json (failure "city is required")), w)
            else if negb (existsb (String.eqb lang) ["en"; "ru"])
            then (Return (Json (failure "lang must be en|ru")), w)
            else if existsb (fun u => Store.id u =? userId) (users (core w))
            then (Return (Json success),
                  {| core := core w;
                     searches := (searches w ++
                                  [{| Search.user_id := userId; Search.city := city;
                                      Search.lang := lang;
                                      Search.created_at := Upstream.now env |}])%list |})
            else (Throw (Error "FOREIGN KEY constraint failed"), w)
        end
    end.
Proof.
  unfold history_post, wbind, of_core, wret, insert_search. rewrite requireAuth_run.
  destruct w as [s rows]. cbn [core searches].
  destruct (resolve (sessions s) (getAuthToken req)) as [userId|]; [|reflexivity].
  unfold readJsonBody, ret, throw. destruct (body req) as [|f]; [reflexivity|].
  cbv zeta.
  destruct (falsy (trim (str_or (f !! "city") ""))); [reflexivity|].
  destruct (negb _); [reflexivity|].
  cbn [core users searches].
  now destruct (existsb _ (users s)).
Qed.

Lemma history_post_transition env req w : transition w (snd (history_post env req w)).
Proof.
  rewrite history_post_run.
  destruct (resolve _ _) as [userId|]; [|apply world_same].
  destruct (body req) as [|f]; [apply world_same|]. cbv zeta.
  destruct (falsy _); [apply world_same|].
  destruct (negb _); [apply world_same|].
  destruct (existsb _ (users (core w))) eqn:Hex; [|apply world_same].
  cbn [snd]. split; [apply users_same|]. split; [apply sessions_same|].
  cbn [core searches]. apply searches_inserted. now apply existsb_id.
Qed.

Lemma route_transition env rq w : transition w (snd (route env rq w)).
Proof.
  unfold route. cbv zeta.
  destruct (String.eqb (method (message rq)) "OPTIONS"); [apply world_same|].
  destruct (url rq) as [|path searchParams]; [apply world_same|].
  repeat match goal with
         | |- context [if ?c then _ else _] => destruct c
         end;
    try apply world_same; try (apply core_transition).
  - apply register_step.
  - apply login_step.
  - apply logout_step.
  - apply request_reset_step.
  - apply reset_step.
  - rewrite me_step. split; [apply users_same | apply sessions_same].
  - apply me_theme_step.
  - rewrite history_get_run. apply world_same.
  - apply history_post_transition.
Qed.

Lemma listener_transition env rq w : transition w (snd (listener env rq w)).
Proof. rewrite listener_world. apply route_transition. Qed.

End RouterSteps.

Section Invariant.

Lemma users_step_identity t t' :
  users_step t t' -> exists added, List.map identity t' = (List.map identity t ++ added)%list.
Proof.
  intros [|set i Hset|e n h Hfresh].
  - exists []. now rewrite List.app_nil_r.
  - exists []. rewrite List.app_nil_r. now apply update_identity.
  - eexists. now rewrite List.map_app.
Qed.

Lemma users_step_known t t' i : users_step t t' -> known t i -> known t' i.
Proof.
  intros Hstep. rewrite !known_In. destruct (users_step_identity t t' Hstep) as [added Heq].
  intros Hin.
  assert (Hids : List.map Store.id t'
                 = (List.map Store.id t ++ List.map (fun x => fst (fst x)) added)%list).
  { apply (f_equal (List.map (fun x => fst (fst x)))) in Heq.
    now rewrite List.map_app, !List.map_map in Heq. }
  rewrite Hids. apply List.in_or_app. now left.
Qed.

Lemma users_step_ok t t' : users_step t t' -> table_ok t -> table_ok t'.
Proof.
  intros [|set i Hset|e n h Hfresh] (Hemails & Hids & Hpos); [now repeat split| |].
  - destruct (identity_ids _ _ (update_identity set i t Hset)) as [Hi He].
    unfold table_ok. rewrite Hi, He. split; [exact Hemails|]. split; [exact Hids|].
    apply List.Forall_forall. intros u Hin.
    assert (Hin' : In (Store.id u) (List.map Store.id t)).
    { rewrite <- Hi. now apply List.in_map. }
    apply List.in_map_iff in Hin' as (u' & Heq & Hin').
    rewrite <- Heq. exact (proj1 (List.Forall_forall _ _) Hpos u' Hin').
  - unfold table_ok. rewrite !List.map_app. cbn [List.map new_user Store.email Store.id].
    split; [|split].
    + apply NoDup_app. split; [exact Hemails|]. split.
      * intros x Hx Hx'. apply list_elem_of_In in Hx.
        apply list_elem_of_singleton in Hx'. subst x.
        now apply select_by_email_None in Hfresh.
      * apply NoDup_singleton.
    + apply NoDup_app. split; [exact Hids|]. split.
      * intros x Hx Hx'. apply list_elem_of_In in Hx.
        apply list_elem_of_singleton in Hx'. subst x.
        apply next_id_above in Hx. lia.
      * apply NoDup_singleton.
    + apply List.Forall_app. split; [exact Hpos|]. constructor; [|constructor].
      cbn. apply next_id_positive.
Qed.

Lemma transition_consistent w w' : transition w w' -> consistent w -> consistent w'.
Proof.
  intros (Hu & Hs & Hr) (Htable & Hsess & Hrows).
  split; [now apply (users_step_ok _ _ Hu)|]. split.
  - intros token userId Hlook. inversion Hs as [Heq|tok i Hknown Heq|tok Heq];
      rewrite <- Heq in Hlook.
    + apply (users_step_known _ _ _ Hu). now apply (Hsess token).
    + destruct (decide (tok = token)) as [->|Hne].
      * rewrite lookup_insert_eq in Hlook. now injection Hlook as <-.
      * rewrite lookup_insert_ne in Hlook by exact Hne.
        apply (users_step_known _ _ _ Hu). now apply (Hsess token).
    + destruct (decide (tok = token)) as [->|Hne].
      * now rewrite lookup_delete_eq in Hlook.
      * rewrite lookup_delete_ne in Hlook by exact Hne.
        apply (users_step_known _ _ _ Hu). now apply (Hsess token).
  - assert (Hold : List.Forall (fun r => known (users (core w')) (Search.user_id r))
                     (searches w)).
    { eapply List.Forall_impl; [|exact Hrows]. intros r. apply (users_step_known _ _ _ Hu). }
    inversion Hr as [Heq|r Hknown Heq]; [exact Hold|].
    apply List.Forall_app. split; [exact Hold|]. now constructor.
Qed.

End Invariant.

(** ** Sequences of requests *)

Section Sequences.
Context `{Pbkdf2}.

Lemma serve_all_transitions (P : world -> world -> Prop) :
  (forall w, P w w) ->
  (forall w1 w2 w3, P w1 w2 -> transition w2 w3 -> P w1 w3) ->
  forall rqs w, P w (serve_all rqs w).
Proof.
  intros Hrefl Hstep rqs.
  assert (Hgen : forall w0 w, P w0 w -> P w0 (serve_all rqs w)).
  { induction rqs as [|[env rq] rest IH]; intros w0 w Hw; [exact Hw|].
    cbn [serve_all]. apply IH. apply (Hstep _ w); [exact Hw|].
    apply listener_transition. }
  intros w. apply Hgen, Hrefl.
Qed.

End Sequences.

(** X8 (the request listener, lines 150-474, with the schema of
    db.ts).  Consistency is an invariant of the server: if e-mails and ids
    are unique, ids are positive and every session and every search
    belongs to a row of the users table, then the same holds after any
    sequence of requests.  In such a state a token that resolves does so
    to the positive id of an existing row, and the row [SELECT ... WHERE
    email=?] returns is the only row with that e-mail. *)
Theorem requests_keep_consistent `{Pbkdf2} rqs w :
  consistent w ->
  let w' := serve_all rqs w in
  consistent w' /\
  (forall token userId,
     resolve (sessions (core w')) token = Some userId ->
     exists row, select_by_id userId (users (core w')) = Some row /\
                 Store.id row = userId /\ 0 < userId) /\
  (forall e row row', Store.select_by_email e (users (core w')) = Some row ->
     In row' (users (core w')) -> Store.email row' = e -> row' = row).
Proof.
  intros Hw w'.
  assert (Hc : consistent w').
  { subst w'. revert Hw. apply (serve_all_transitions (fun w w' => consistent w -> consistent w')).
    - tauto.
    - intros w1 w2 w3 H12 H23 H1. apply (transition_consistent w2 w3 H23). now apply H12. }
  split; [exact Hc|]. destruct Hc as ((Hemails & Hids & Hpos) & Hsess & _). split.
  - intros token userId Hres. unfold resolve in Hres.
    destruct (sessions (core w') !! token) as [i|] eqn:Hlook; [|discriminate].
    destruct (falsy token || (i =? 0)); [discriminate|]. injection Hres as ->.
    destruct (Hsess token userId Hlook) as [row Hrow]. exists row.
    split; [exact Hrow|]. unfold select_by_id in Hrow.
    apply List.find_some in Hrow as [Hin Hid]. apply Z.eqb_eq in Hid.
    split; [exact Hid|]. rewrite <- Hid.
    exact (proj1 (List.Forall_forall _ _) Hpos row Hin).
  - intros e row row' Hsel Hin' He'.
    apply select_by_email_In in Hsel as [Hin He].
    revert Hemails Hin Hin' He He'. generalize (users (core w')). clear.
    intros l. induction l as [|u l IH]; intros Hnd Hin Hin' He He'; [destruct Hin|].
    cbn [List.map] in Hnd. apply NoDup_cons in Hnd as [Hfresh Hnd].
    destruct Hin as [->|Hin], Hin' as [->|Hin']; [reflexivity| | |now apply IH].
    + exfalso. apply Hfresh. apply list_elem_of_In. rewrite He, <- He'.
      now apply List.in_map.
    + exfalso. apply Hfresh. apply list_elem_of_In. rewrite He', <- He.
      now apply List.in_map.
Qed.

(** X8 on the demo state, after a registration, a recorded search and a
    failed login. *)
Lemma requests_keep_consistent_witness :
  let H := Demo.platform in
  consistent (serve_all Sample.visit Sample.world0).
Proof.
  intros H. refine (proj1 (requests_keep_consistent Sample.visit Sample.world0 _)).
  split; [|split].
  - split; [|split].
    + refine (bool_decide_unpack _ _). vm_compute. exact I.
    + refine (bool_decide_unpack _ _). vm_compute. exact I.
    + repeat constructor.
  - intros token userId Hlook. cbn [Sample.world0 core Demo.st sessions] in Hlook.
    apply lookup_singleton_Some in Hlook as [_ <-].
    exists Demo.alice. reflexivity.
  - constructor.
Defined.

(** X9 (the request listener, lines 150-474).  No sequence of
    requests deletes or reorders an account or changes its id, e-mail or
    name, and none deletes or changes a search: the identity columns of
    the users table and the searches before are a prefix of those after,
    and each request adds at most one row to either table. *)
Theorem accounts_and_history_only_grow `{Pbkdf2} rqs w :
  let w' := serve_all rqs w in
  (exists added,
     List.map identity (users (core w')) = (List.map identity (users (core w)) ++ added)%list
     /\ (length added <= length rqs)%nat) /\
  (exists added,
     searches w' = (searches w ++ added)%list /\ (length added <= length rqs)%nat).
Proof.
  revert w. induction rqs as [|[env rq] rest IH]; intros w; cbn [serve_all].
  - split; exists []; now rewrite List.app_nil_r.
  - destruct (IH (snd (listener env rq w))) as ((ua & Hu & Hul) & (sa & Hs & Hsl)).
    destruct (listener_transition env rq w) as (Hus & _ & Hss). split.
    + rewrite Hu. inversion Hus as [Heq|set i Hset Heq|e n h Hfresh Heq].
      * exists ua. split; [reflexivity|]. cbn [length]. lia.
      * rewrite update_identity by exact Hset. exists ua. split; [reflexivity|].
        cbn [length]. lia.
      * rewrite List.map_app, <- List.app_assoc. eexists. split; [reflexivity|].
        cbn [List.map length List.app]. lia.
    + rewrite Hs. inversion Hss as [Heq|r Hknown Heq].
      * exists sa. split; [reflexivity|]. cbn [length]. lia.
      * rewrite <- List.app_assoc. eexists. split; [reflexivity|].
        cbn [length List.app]. lia.
Qed.

(** ** Errors that reach the catch *)

Section Throws.
Context `{Pbkdf2}.

Lemma verifyPassword_error password stored e :
  verifyPassword password stored = Throw e -> pbkdf2_error e.
Proof.
  intros Hthrow. apply verifyPassword_throws in Hthrow
    as (a & digest & iterStr & salt & hashHex & _ & _ & [Hv|[_ ->]]).
  - left. unfold validateInt32 in Hv.
    destruct (integer_value (Number iterStr)) as [z|]; [|congruence].
    destruct ((z <? 1) || (2147483647 <? z)); congruence.
  - right. now exists digest.
Qed.

Lemma hashPassword_error password src e r :
  hashPassword password src = (Throw e, r) -> pbkdf2_error e.
Proof.
  rewrite hashPassword_run.
  destruct (known_digest "sha256"); [discriminate|]. intros [= <- _]. right. now eexists.
Qed.

Ltac thrown :=
  intros Hthrow; try discriminate Hthrow;
  try (injection Hthrow as <-; left; now split);
  try (injection Hthrow as <-; right; eapply verifyPassword_error; eassumption);
  try (injection Hthrow as <-; right; eapply hashPassword_error; eassumption).

Lemma login_throws req s e : fst (login req s) = Throw e -> core_error req e.
Proof. unfold login. run_handler; thrown. Qed.

Lemma logout_throws req s e : fst (logout req s) = Throw e -> core_error req e.
Proof. unfold logout. run_handler; thrown. Qed.

Lemma request_reset_throws now req s e :
  fst (request_reset now req s) = Throw e -> core_error req e.
Proof. unfold request_reset. run_handler; thrown. Qed.

Lemma reset_throws now req s e : fst (reset now req s) = Throw e -> core_error req e.
Proof. unfold reset, consume. run_handler; thrown. Qed.

Lemma me_throws req s e : fst (me req s) = Throw e -> core_error req e.
Proof. unfold me. run_handler; thrown. Qed.

Lemma me_theme_throws req s e : fst (me_theme req s) = Throw e -> core_error req e.
Proof. unfold me_theme. run_handler; thrown. Qed.

Lemma register_throws req s e : fst (register req s) = Throw e -> core_error req e.
Proof.
  unfold register. run_handler; thrown.
  exfalso. rewrite existsb_email in *. cbn [users] in *.
  match goal with
  | Hsel : Store.select_by_email ?e ?t = None,
    Hex : match Store.select_by_email ?e ?t with _ => _ end = true |- _ =>
      rewrite Hsel in Hex; discriminate Hex
  end.
Qed.

Lemma json_throws (h : M response) w e :
  fst (json h w) = Throw e -> fst (h (core w)) = Throw e.
Proof.
  unfold json, of_core, wbind, wret.
  destruct (h (core w)) as [[r|e'] s]; cbv beta iota; cbn [fst]; [discriminate|].
  now intros [= ->].
Qed.

Lemma route_throws env rq w e :
  fst (route env rq w) = Throw e ->
  (e = Error "Invalid URL" /\ url rq = Unparsable)
  \/ core_error (message rq) e
  \/ (e = Error "FOREIGN KEY constraint failed" /\
      exists userId, resolve (sessions (core w)) (getAuthToken (message rq)) = Some userId /\
                     ~ known (users (core w)) userId).
Proof.
  unfold route. cbv zeta.
  destruct (String.eqb (method (message rq)) "OPTIONS"); [discriminate|].
  destruct (url rq) as [|path searchParams]; [intros [= <-]; now left|].
  repeat match goal with
         | |- context [if ?c then _ else _] => destruct c
         end;
    try discriminate; try (intros Hthrow; apply json_throws in Hthrow; right; left;
                           revert Hthrow).
  - apply register_throws.
  - apply login_throws.
  - apply logout_throws.
  - apply request_reset_throws.
  - apply reset_throws.
  - apply me_throws.
  - apply me_theme_throws.
  - now rewrite history_get_run.
  - rewrite history_post_run.
    destruct (resolve _ _) as [userId|] eqn:Hres; [|discriminate].
    destruct (body (message rq)) as [|f] eqn:Hbody.
    { intros [= <-]. right. left. left. now split. }
    cbv zeta. destruct (falsy _); [discriminate|]. destruct (negb _); [discriminate|].
    destruct (existsb _ (users (core w))) eqn:Hex; [discriminate|].
    intros [= <-]. right. right. split; [reflexivity|]. exists userId.
    split; [reflexivity|]. intros Hknown. apply existsb_id in Hknown. congruence.
Qed.

End Throws.

(** X10 (the [try] and [catch] of the listener, lines 151 and
    471-473, with the two INSERT statements).  An error that reaches the
    [catch] is answered by 500 with its message.  It is never the
    violation of the [UNIQUE] constraint on [users.email]: the handler
    has looked the e-mail up before it inserts.  It is the refusal of the
    foreign key of [searches] only in a state that is not consistent: the
    token of the request then resolves to an id that no row of the users
    table has.  For a target that does not parse it is "Invalid URL". *)
Theorem thrown_errors `{Pbkdf2} env rq w e :
  fst (route env rq w) = Throw e ->
  fst (listener env rq w) = Json (server_error e)
  /\ status (server_error e) = 500
  /\ e <> Error "UNIQUE constraint failed: users.email"
  /\ (e = Error "FOREIGN KEY constraint failed" ->
        ~ consistent w /\
        exists userId,
          resolve (sessions (core w)) (getAuthToken (message rq)) = Some userId /\
          ~ known (users (core w)) userId)
  /\ (url rq = Unparsable -> e = Error "Invalid URL").
Proof.
  intros Hthrow. split; [|split; [reflexivity|split; [|split]]].
  - unfold listener, caught.
    destruct (route env rq w) as [[r|e'] w']; cbn [fst] in *; congruence.
  - apply route_throws in Hthrow
      as [[-> _]|[[[-> _]|[->|[digest ->]]]|(-> & _)]]; discriminate.
  - intros ->.
    apply route_throws in Hthrow
      as [[Habs _]|[[[Habs _]|[Habs|[digest Habs]]]|(_ & userId & Hres & Hunknown)]];
      try discriminate Habs.
    split; [|now exists userId].
    intros (_ & Hsess & _).
    apply Hunknown. unfold resolve in Hres.
    destruct (sessions (core w) !! getAuthToken (message rq)) as [i|] eqn:Hlook; [|discriminate].
    destruct (falsy _ || (i =? 0)); [discriminate|]. injection Hres as ->.
    now apply (Hsess (getAuthToken (message rq))).
  - intros Hurl. unfold route in Hthrow. cbv zeta in Hthrow. rewrite Hurl in Hthrow.
    destruct (String.eqb (method (message rq)) "OPTIONS"); [discriminate|].
    now injection Hthrow as <-.
Qed.

(** X10 on a login whose body is not JSON. *)
Lemma thrown_errors_witness :
  let H := Demo.platform in
  let rq := Sample.to "/auth/login"
              {| method := "POST"; authorization := None; body := Malformed |} in
  fst (listener Sample.offline rq Sample.world0)
    = Json (sendJson 500 (JObj [("error", JStr "Invalid JSON")])).
Proof.
  intros H rq.
  exact (proj1 (thrown_errors Sample.offline rq Sample.world0 (Error "Invalid JSON")
                  eq_refl)).
Defined.

(** ** Which requests write *)

Section Effects.
Context `{Pbkdf2}.

Lemma method_is req m : negb (String.eqb (method req) m) = false -> method req = m.
Proof. intros Hneg. apply negb_false_iff in Hneg. now apply String.eqb_eq. Qed.

Ltac effect_done :=
  unfold effect; cbn [fst snd];
  first [ left; reflexivity
        | right; split; [now apply method_is|];
          first [exact I | left; reflexivity | right; reflexivity] ].

Lemma login_effect req s : effect "POST" req s (login req s).
Proof. unfold login. run_handler; effect_done. Qed.

Lemma logout_effect req s : effect "POST" req s (logout req s).
Proof. unfold logout. run_handler; effect_done. Qed.

Lemma request_reset_effect now req s : effect "POST" req s (request_reset now req s).
Proof. unfold request_reset. run_handler; effect_done. Qed.

Lemma reset_effect now req s : effect "POST" req s (reset now req s).
Proof. unfold reset, consume. run_handler; effect_done. Qed.

Lemma me_theme_effect req s : effect "PUT" req s (me_theme req s).
Proof. unfold me_theme. run_handler; effect_done. Qed.

Lemma register_effect req s : effect "POST" req s (register req s).
Proof. unfold register. run_handler; effect_done. Qed.

End Effects.

Section Writers.
Context `{Pbkdf2}.

Lemma json_caught (h : M response) w :
  caught (json h w)
  = (Json (fst (serve h (core w))), {| core := snd (h (core w)); searches := searches w |}).
Proof.
  unfold caught, json, of_core, wbind, wret, serve.
  now destruct (h (core w)) as [[r|e] s].
Qed.

Lemma json_effect m (h : M response) req w :
  effect m req (core w) (h (core w)) ->
  snd (caught (json h w)) = w \/
  (method req = m /\ In (status_of (fst (caught (json h w)))) [200; 201; 500]).
Proof.
  rewrite json_caught. cbn [fst snd status_of]. unfold serve.
  intros [Hsame|[Hm Hst]].
  - left. rewrite Hsame. now destruct w.
  - right. split; [exact Hm|].
    destruct (h (core w)) as [[r|e] s]; cbn [fst] in *.
    + destruct Hst as [->| ->]; cbn; tauto.
    + destruct e; cbn; tauto.
Qed.

End Writers.

(** X11 (the request listener, lines 150-474).  A request leaves
    the state as it was unless it is one of the seven writing routes
    (POST to /auth/register, /auth/login, /auth/logout,
    /auth/request-reset, /auth/reset or /history, PUT to /me/theme) and
    is answered by 200, 201 or 500.  So GET and OPTIONS requests, and
    every request answered by 400, 401, 404, 405 or 409, change
    nothing. *)
Theorem only_writers_write `{Pbkdf2} env rq w :
  snd (listener env rq w) = w \/
  exists path searchParams,
    url rq = Parsed path searchParams /\
    In (path, method (message rq)) writers /\
    In (status_of (fst (listener env rq w))) [200; 201; 500].
Proof.
  unfold listener, route. cbv zeta.
  destruct (String.eqb (method (message rq)) "OPTIONS"); [now left|].
  destruct (url rq) as [|path searchParams]; [now left|].
  assert (Hwriter : forall p m,
            In (p, m) writers ->
            forall h : M response,
              effect m (message rq) (core w) (h (core w)) -> path = p ->
              snd (caught (json h w)) = w \/
              exists path0 searchParams0,
                Parsed path searchParams = Parsed path0 searchParams0 /\
                In (path0, method (message rq)) writers /\
                In (status_of (fst (caught (json h w)))) [200; 201; 500]).
  { intros p m Hin h Heff ->. destruct (json_effect m h (message rq) w Heff) as [Hsame|[Hm Hst]];
      [now left|right]. exists p, searchParams. rewrite Hm. now repeat split. }
  destruct (String.eqb path "/" && String.eqb (method (message rq)) "GET"); [now left|].
  destruct (String.eqb_spec path "/auth/register") as [Hp|_].
  { apply (Hwriter "/auth/register" "POST"); [cbn; tauto|apply register_effect|exact Hp]. }
  destruct (String.eqb_spec path "/auth/login") as [Hp|_].
  { apply (Hwriter "/auth/login" "POST"); [cbn; tauto|apply login_effect|exact Hp]. }
  destruct (String.eqb_spec path "/auth/logout") as [Hp|_].
  { apply (Hwriter "/auth/logout" "POST"); [cbn; tauto|apply logout_effect|exact Hp]. }
  destruct (String.eqb_spec path "/auth/request-reset") as [Hp|_].
  { apply (Hwriter "/auth/request-reset" "POST");
      [cbn; tauto|apply request_reset_effect|exact Hp]. }
  destruct (String.eqb_spec path "/auth/reset") as [Hp|_].
  { apply (Hwriter "/auth/reset" "POST"); [cbn; tauto|apply reset_effect|exact Hp]. }
  destruct (String.eqb_spec path "/me") as [Hp|_].
  { left. rewrite json_caught. cbn [snd]. rewrite me_step. now destruct w. }
  destruct (String.eqb_spec path "/me/theme") as [Hp|_].
  { apply (Hwriter "/me/theme" "PUT"); [cbn; tauto|apply me_theme_effect|exact Hp]. }
  destruct (String.eqb_spec path "/history") as [->|_]; cbn [andb].
  - destruct (String.eqb (method (message rq)) "GET"); [left; now rewrite history_get_run|].
    destruct (String.eqb_spec (method (message rq)) "POST") as [Hm|_]; [|now left].
    rewrite history_post_run.
    destruct (resolve _ _) as [userId|]; [|now left].
    destruct (body (message rq)) as [|f]; [now left|]. cbv zeta.
    destruct (falsy _); [now left|]. destruct (negb _); [now left|].
    destruct (existsb _ _); [|now left].
    right. exists "/history", searchParams. rewrite Hm. cbn. tauto.
  - repeat match goal with
           | |- context [if ?c then _ else _] => destruct c
           end; now left.
Qed.

(** ** Status codes *)

Section Statuses.
Context `{Pbkdf2}.

Ltac listed :=
  cbn [fst status status_of sendJson methodNotAllowed server_error notFound
       unauthorized failure success];
  repeat first [left; reflexivity | right].

Lemma login_status req s :
  In (status (fst (serve (login req) s))) [500; 200; 400; 401; 405].
Proof. unfold serve, login. run_handler; listed. Qed.

Lemma logout_status req s : In (status (fst (serve (logout req) s))) [500; 200; 405].
Proof. unfold serve, logout. run_handler; listed. Qed.

Lemma request_reset_status now req s :
  In (status (fst (serve (request_reset now req) s))) [500; 200; 400; 405].
Proof. unfold serve, request_reset. run_handler; listed. Qed.

Lemma reset_status now req s :
  In (status (fst (serve (reset now req) s))) [500; 200; 400; 405].
Proof. unfold serve, reset, consume. run_handler; listed. Qed.

Lemma me_status req s : In (status (fst (serve (me req) s))) [500; 200; 401; 405].
Proof. unfold serve, me. run_handler; listed. Qed.

Lemma me_theme_status req s :
  In (status (fst (serve (me_theme req) s))) [500; 200; 400; 401; 405].
Proof. unfold serve, me_theme. run_handler; listed. Qed.

Lemma register_status req s :
  In (status (fst (serve (register req) s))) [500; 201; 400; 405; 409].
Proof. unfold serve, register. run_handler; listed. Qed.

Lemma api_weather_status env q : In (status_of (api_weather env q)) [500; 200; 400; 404].
Proof.
  unfold api_weather, Upstream.requireOwKey.
  repeat (match goal with
          | |- context [match ?x with _ => _ end] =>
              lazymatch x with
              | context [match _ with _ => _ end] => fail
              | _ => destruct x
              end
          end; cbv beta iota zeta); listed.
Qed.

Lemma api_forecast_status env q : In (status_of (api_forecast env q)) [500; 200; 400; 404].
Proof.
  unfold api_forecast, Upstream.requireOwKey.
  repeat (match goal with
          | |- context [match ?x with _ => _ end] =>
              lazymatch x with
              | context [match _ with _ => _ end] => fail
              | _ => destruct x
              end
          end; cbv beta iota zeta); listed.
Qed.

End Statuses.

(** X12 (the request listener, lines 150-474).  An OPTIONS request
    is answered by 204 whatever its target; another request whose target
    does not parse by 500; any other by 500 or one of the codes of its
    path: 201, 400, 405, 409 for /auth/register; 200, 400, 401, 405 for
    /auth/login and /me/theme; 200, 405 for /auth/logout; 200, 400, 405
    for the two reset routes; 200, 401, 405 for /me; 200, 400, 401, 404
    for /history; 200, 400, 404 for the two weather routes; 200, 404 for
    the root; 404 alone for every other path. *)
Theorem status_codes `{Pbkdf2} env rq w :
  let code := status_of (fst (listener env rq w)) in
  if String.eqb (method (message rq)) "OPTIONS" then code = 204
  else match url rq with
       | Unparsable => code = 500
       | Parsed path _ => In code (500 :: codes path)
       end.
Proof.
  unfold listener, route, codes. cbv zeta.
  destruct (String.eqb (method (message rq)) "OPTIONS"); [reflexivity|].
  destruct (url rq) as [|path searchParams]; [reflexivity|].
  destruct (String.eqb_spec path "/") as [->|_]; cbn [andb].
  { destruct (String.eqb (method (message rq)) "GET"); [cbn; tauto|].
    eval_eqb. cbn. tauto. }
  destruct (String.eqb path "/auth/register");
    [rewrite json_caught; apply register_status|].
  destruct (String.eqb path "/auth/login"); [rewrite json_caught; apply login_status|].
  destruct (String.eqb path "/auth/logout"); [rewrite json_caught; apply logout_status|].
  destruct (String.eqb path "/auth/request-reset");
    [rewrite json_caught; apply request_reset_status|].
  destruct (String.eqb path "/auth/reset"); [rewrite json_caught; apply reset_status|].
  destruct (String.eqb path "/me"); [rewrite json_caught; apply me_status|].
  destruct (String.eqb path "/me/theme"); [rewrite json_caught; apply me_theme_status|].
  destruct (String.eqb_spec path "/history") as [->|_]; cbn [andb].
  { destruct (String.eqb (method (message rq)) "GET").
    { rewrite history_get_run. destruct (resolve _ _); cbn; tauto. }
    destruct (String.eqb (method (message rq)) "POST"); [|eval_eqb; cbn; tauto].
    rewrite history_post_run. destruct (resolve _ _); [|cbn; tauto].
    destruct (body (message rq)); [cbn; tauto|]. cbv zeta.
    destruct (falsy _); [cbn; tauto|]. destruct (negb _); [cbn; tauto|].
    destruct (existsb _ _); cbn; tauto. }
  destruct (String.eqb_spec path "/api/weather") as [->|_]; cbn [andb].
  { destruct (String.eqb (method (message rq)) "GET");
      [apply api_weather_status|eval_eqb; cbn; tauto]. }
  destruct (String.eqb path "/api/forecast"); cbn [andb].
  { destruct (String.eqb (method (message rq)) "GET"); [apply api_forecast_status|cbn; tauto]. }
  cbn. tauto.
Qed.

(** ** Routing and the protected routes *)

Section Dispatch.
Context `{Pbkdf2}.

Lemma world_eta w : {| core := core w; searches := searches w |} = w.
Proof. now destruct w. Qed.

Lemma not_method req m : method req <> m -> String.eqb (method req) m = false.
Proof. intros Hne. now apply String.eqb_neq. Qed.

Lemma refused_method (h : M response) w :
  h (core w) = (Return methodNotAllowed, core w) ->
  caught (json h w) = (Json methodNotAllowed, w).
Proof.
  intros Hrun. rewrite json_caught. unfold serve. rewrite Hrun. cbn [fst snd].
  now rewrite world_eta.
Qed.

Lemma unauthorized_caught (h : M response) w :
  h (core w) = (Return unauthorized, core w) ->
  caught (json h w) = (Json unauthorized, w).
Proof.
  intros Hrun. rewrite json_caught. unfold serve. rewrite Hrun. cbn [fst snd].
  now rewrite world_eta.
Qed.

Lemma protected_route env rq w path searchParams :
  url rq = Parsed path searchParams ->
  (path = "/me/theme" /\ method (message rq) <> "OPTIONS")
  \/ (path = "/me" /\ method (message rq) = "GET")
  \/ (path = "/history" /\ (method (message rq) = "GET" \/ method (message rq) = "POST")) ->
  resolve (sessions (core w)) (getAuthToken (message rq)) = None ->
  listener env rq w = (Json unauthorized, w).
Proof.
  intros Hurl Hroute Hres. unfold listener, route. cbv zeta. rewrite Hurl.
  destruct Hroute as [[-> Hm]|[[-> Hm]|[-> [Hm|Hm]]]].
  - rewrite (not_method _ _ Hm). eval_eqb. apply unauthorized_caught.
    unfold me_theme, mbind. rewrite requireAuth_run, Hres. reflexivity.
  - rewrite Hm. eval_eqb. apply unauthorized_caught.
    unfold me. rewrite Hm. eval_eqb. cbn [negb]. unfold mbind.
    rewrite requireAuth_run, Hres. reflexivity.
  - rewrite Hm. eval_eqb. rewrite history_get_run, Hres. reflexivity.
  - rewrite Hm. eval_eqb. rewrite history_post_run, Hres. reflexivity.
Qed.

Lemma serve_state (h : M response) s : snd (serve h s) = snd (h s).
Proof. unfold serve. now destruct (h s) as [[r|e] s']. Qed.

Lemma logout_world env rq w q :
  url rq = Parsed "/auth/logout" q -> method (message rq) = "POST" ->
  listener env rq w
  = (Json success,
     if falsy (getAuthToken (message rq)) then w
     else {| core := {| sessions := delete (getAuthToken (message rq)) (sessions (core w));
                        users := users (core w); random := random (core w) |};
             searches := searches w |}).
Proof.
  intros Hurl Hm. unfold listener, route. cbv zeta. rewrite Hurl, Hm. eval_eqb.
  rewrite json_caught, <- serve_state, (logout_post _ _ Hm). cbn [fst snd].
  destruct (falsy (getAuthToken (message rq))); [now rewrite world_eta|reflexivity].
Qed.

End Dispatch.

(** X13 (requireAuth, lines 103-111, in GET /me, /me/theme and
    /history).  On the protected routes (GET /me, any method but OPTIONS
    on /me/theme, GET and POST /history) a request whose token resolves to
    no user is answered 401 "Unauthorized" and changes nothing; on
    /me/theme that comes before the method is looked at.  After POST
    /auth/logout with a token, which answers 200, every such request with
    that token is answered this way. *)
Theorem unauthenticated_requests `{Pbkdf2} env rq w path searchParams :
  url rq = Parsed path searchParams ->
  (path = "/me/theme" /\ method (message rq) <> "OPTIONS")
  \/ (path = "/me" /\ method (message rq) = "GET")
  \/ (path = "/history" /\ (method (message rq) = "GET" \/ method (message rq) = "POST")) ->
  (resolve (sessions (core w)) (getAuthToken (message rq)) = None ->
   listener env rq w = (Json unauthorized, w))
  /\ (forall env0 rq0 q0,
        url rq0 = Parsed "/auth/logout" q0 -> method (message rq0) = "POST" ->
        getAuthToken (message rq0) = getAuthToken (message rq) ->
        let w1 := snd (listener env0 rq0 w) in
        fst (listener env0 rq0 w) = Json success /\
        listener env rq w1 = (Json unauthorized, w1)).
Proof.
  intros Hurl Hroute. split; [now apply (protected_route env rq w path searchParams)|].
  intros env0 rq0 q0 Hurl0 Hm0 Htoken w1. subst w1.
  rewrite (logout_world env0 rq0 w q0 Hurl0 Hm0). cbn [fst snd].
  split; [reflexivity|].
  apply (protected_route env rq _ path searchParams Hurl Hroute).
  rewrite Htoken. destruct (falsy (getAuthToken (message rq))) eqn:Hf.
  - destruct (getAuthToken (message rq)); [apply resolve_empty_token|discriminate].
  - cbn [core sessions]. apply resolve_delete.
Qed.

(** X13 on the demo state: no header, a token that was never issued, and
    the token of a session after its logout. *)
Lemma unauthenticated_requests_witness :
  let H := Demo.platform in
  let anonymous := {| method := "GET"; authorization := None; body := Fields ∅ |} in
  let stale := Sample.post_as "00ff" [("city", "Riga")] in
  let w1 := snd (listener Sample.offline
                    (Sample.to "/auth/logout" (Sample.post_as Demo.alice_session []))
                    Sample.world0) in
  listener Sample.offline (Sample.to "/me" anonymous) Sample.world0
    = (Json unauthorized, Sample.world0)
  /\ listener Sample.offline (Sample.to "/history" stale) Sample.world0
    = (Json unauthorized, Sample.world0)
  /\ listener Sample.offline (Sample.to "/me" (Sample.get_as Demo.alice_session)) w1
    = (Json unauthorized, w1).
Proof.
  intros H anonymous stale w1. split; [|split].
  - apply (unauthenticated_requests Sample.offline (Sample.to "/me" anonymous)
             Sample.world0 "/me" []); [reflexivity| |reflexivity].
    right. left. now split.
  - apply (unauthenticated_requests Sample.offline (Sample.to "/history" stale)
             Sample.world0 "/history" []); [reflexivity| |vm_compute; reflexivity].
    right. right. split; [reflexivity|]. now right.
  - refine (proj2 (proj2 (unauthenticated_requests Sample.offline
                            (Sample.to "/me" (Sample.get_as Demo.alice_session))
                            Sample.world0 "/me" [] eq_refl _)
                     Sample.offline
                     (Sample.to "/auth/logout" (Sample.post_as Demo.alice_session []))
                     [] eq_refl eq_refl _)).
    + right. left. now split.
    + vm_compute. reflexivity.
Defined.

(** X14 (the routing of the listener, lines 155-470).  OPTIONS is
    answered 204 without a look at the target; a target that does not
    parse is answered 500 "Invalid URL".  The five /auth routes called
    with another method than POST, and /me with another than GET, answer
    405; but the root and the two weather routes with another method than
    GET, /history with a method that is neither GET nor POST, and every
    path that is not one of the eleven answer 404.  None of these
    changes the state. *)
Theorem dispatch `{Pbkdf2} env rq w :
  (method (message rq) = "OPTIONS" -> listener env rq w = (NoContent, w))
  /\ (method (message rq) <> "OPTIONS" -> url rq = Unparsable ->
        listener env rq w = (Json (sendJson 500 (JObj [("error", JStr "Invalid URL")])), w))
  /\ (forall path searchParams,
        method (message rq) <> "OPTIONS" -> url rq = Parsed path searchParams ->
        (In path ["/auth/register"; "/auth/login"; "/auth/logout";
                  "/auth/request-reset"; "/auth/reset"] ->
         method (message rq) <> "POST" -> listener env rq w = (Json methodNotAllowed, w))
        /\ (path = "/me" -> method (message rq) <> "GET" ->
            listener env rq w = (Json methodNotAllowed, w))
        /\ (In path ["/"; "/api/weather"; "/api/forecast"] ->
            method (message rq) <> "GET" -> listener env rq w = (Json notFound, w))
        /\ (path = "/history" -> method (message rq) <> "GET" ->
            method (message rq) <> "POST" -> listener env rq w = (Json notFound, w))
        /\ (~ In path ["/"; "/auth/register"; "/auth/login"; "/auth/logout";
                       "/auth/request-reset"; "/auth/reset"; "/me"; "/me/theme";
                       "/history"; "/api/weather"; "/api/forecast"] ->
            listener env rq w = (Json notFound, w))).
Proof.
  unfold listener, route. cbv zeta. split; [|split].
  - intros ->. reflexivity.
  - intros Hm ->. rewrite (not_method _ _ Hm). reflexivity.
  - intros path searchParams Hm ->. rewrite (not_method _ _ Hm).
    split; [|split; [|split; [|split]]].
    + intros Hin Hpost.
      assert (Hneg : negb (String.eqb (method (message rq)) "POST") = true)
        by now rewrite (not_method _ _ Hpost).
      cbn [In] in Hin.
      destruct Hin as [<-|[<-|[<-|[<-|[<-|[]]]]]]; eval_eqb; apply refused_method.
      * unfold register. now rewrite Hneg.
      * unfold login. now rewrite Hneg.
      * unfold logout. now rewrite Hneg.
      * unfold request_reset. now rewrite Hneg.
      * unfold reset. now rewrite Hneg.
    + intros -> Hget. eval_eqb. apply refused_method.
      unfold me. now rewrite (not_method _ _ Hget).
    + intros Hin Hget. cbn [In] in Hin. rewrite (not_method _ _ Hget).
      destruct Hin as [<-|[<-|[<-|[]]]]; eval_eqb; reflexivity.
    + intros -> Hget Hpost. rewrite (not_method _ _ Hget), (not_method _ _ Hpost).
      eval_eqb. reflexivity.
    + intros Hnot. cbn [In] in Hnot.
      repeat match goal with
             | |- context [String.eqb path ?p] =>
                 destruct (String.eqb_spec path p) as [Heq|_];
                   [exfalso; apply Hnot; rewrite Heq; tauto|]
             end.
      reflexivity.
Qed.

(** X14 on four requests: a preflight, GET /auth/login, PUT /history
    and POST /auth. *)
Lemma dispatch_witness :
  let H := Demo.platform in
  let request m := {| method := m; authorization := None; body := Fields ∅ |} in
  listener Sample.offline (Sample.to "/nowhere" (request "OPTIONS")) Sample.world0
    = (NoContent, Sample.world0)
  /\ listener Sample.offline (Sample.to "/auth/login" (request "GET")) Sample.world0
    = (Json methodNotAllowed, Sample.world0)
  /\ listener Sample.offline (Sample.to "/history" (request "PUT")) Sample.world0
    = (Json notFound, Sample.world0)
  /\ listener Sample.offline (Sample.to "/auth" (request "POST")) Sample.world0
    = (Json notFound, Sample.world0).
Proof.
  intros H request.
  assert (Hne : forall a b : string, String.eqb a b = false -> a <> b)
    by (intros a b; apply String.eqb_neq).
  split; [|split; [|split]].
  - exact (proj1 (dispatch Sample.offline (Sample.to "/nowhere" (request "OPTIONS"))
                    Sample.world0) eq_refl).
  - refine (proj1 (proj2 (proj2 (dispatch Sample.offline
                                   (Sample.to "/auth/login" (request "GET")) Sample.world0))
                     "/auth/login" [] _ eq_refl) _ _).
    + now apply Hne.
    + cbn. tauto.
    + now apply Hne.
  - refine (proj1 (proj2 (proj2 (proj2 (proj2 (proj2 (dispatch Sample.offline
                                   (Sample.to "/history" (request "PUT")) Sample.world0))
                     "/history" [] _ eq_refl)))) eq_refl _ _); now apply Hne.
  - refine (proj2 (proj2 (proj2 (proj2 (proj2 (proj2 (dispatch Sample.offline
                                   (Sample.to "/auth" (request "POST")) Sample.world0))
                     "/auth" [] _ eq_refl)))) _).
    + now apply Hne.
    + cbn. intros Hin. repeat destruct Hin as [Hin|Hin]; try discriminate Hin. exact Hin.
Defined.

(** ** Registration and profile *)

Section Registration.
Context `{Pbkdf2}.

Lemma select_by_email_app e t u :
  Store.select_by_email e t = None -> Store.email u = e ->
  Store.select_by_email e (t ++ [u])%list = Some u.
Proof.
  unfold Store.select_by_email. intros Hnone He.
  induction t as [|v t IH]; cbn in *.
  - now rewrite He, String.eqb_refl.
  - destruct (String.eqb (Store.email v) e); [discriminate|]. now apply IH.
Qed.

Lemma select_by_id_app t u :
  Store.id u = next_id t -> select_by_id (next_id t) (t ++ [u])%list = Some u.
Proof.
  intros Hid. unfold select_by_id.
  assert (Hfresh : forall i, In i (List.map Store.id t) -> i < next_id t)
    by apply next_id_above.
  revert Hid Hfresh. generalize (next_id t) as n. intros n Hid.
  induction t as [|v t IH]; intros Hfresh; cbn.
  - now rewrite Hid, Z.eqb_refl.
  - destruct (Z.eqb_spec (Store.id v) n) as [Heq|_].
    + specialize (Hfresh (Store.id v) (or_introl eq_refl)). lia.
    + apply IH. intros i Hin. apply Hfresh. now right.
Qed.

(** What POST /auth/register does for a JSON body with its three
    fields. *)
Lemma register_run st req f :
  method req = "POST" -> body req = Fields f ->
  let email := toLowerCase (trim (str_or (f !! "email") "")) in
  let name := trim (str_or (f !! "name") "") in
  let password := str_or (f !! "password") "" in
  email <> "" -> name <> "" -> (6 <= String.length password)%nat ->
  serve (register req) st =
    match Store.select_by_email email (users st) with
    | Some _ => (sendJson 409 (JObj [("error", JStr "user already exists")]), st)
    | None =>
        match hashPassword password (random st) with
        | (Throw e, src) => (server_error e, with_random src st)
        | (Return h, src) =>
            let userId := next_id (users st) in
            (sendJson 201 (JObj [("token", JStr (fst (makeToken 24 src)));
                                 ("user", profile userId email name "system")]),
             {| sessions := <[fst (makeToken 24 src) := userId]> (sessions st);
                users := (users st ++ [new_user userId email name h])%list;
                random := snd (makeToken 24 src) |})
        end
    end.
Proof.
  intros Hm Hb email name password He Hn Hp.
  apply falsy_false_ne in He, Hn.
  assert (Hpw : falsy password = false) by (destruct password; [cbn in Hp; lia|reflexivity]).
  assert (Hlen : (String.length password <? 6)%nat = false) by now apply Nat.ltb_ge.
  unfold serve, register, readJsonBody, mbind, ret. rewrite Hm, Hb.
  cbn [String.eqb Ascii.eqb Bool.eqb negb andb].
  fold email name password. rewrite He, Hn, Hpw, Hlen. cbn [orb].
  unfold get_users. destruct (Store.select_by_email email (users st)) eqn:Hsel;
    [reflexivity|].
  unfold with_entropy, lift.
  destruct (hashPassword password (random st)) as [[h|e] src]; [|reflexivity].
  unfold insert_user, mbind, get_users, put_users, ret, throw. cbn [users].
  rewrite existsb_email, Hsel.
  unfold issue, mbind, with_entropy, get_sessions, put_sessions, ret. cbn [random].
  destruct (makeToken 24 src) as [token src']. reflexivity.
Qed.

(** What GET /me does. *)
Lemma me_run st req :
  method req = "GET" ->
  serve (me req) st =
    (match resolve (sessions st) (getAuthToken req) with
     | None => unauthorized
     | Some userId =>
         sendJson 200
           (JObj match select_by_id userId (users st) with
                 | Some user =>
                     [("user", profile (Store.id user) (Store.email user)
                                 (Store.name user) (Store.theme user))]
                 | None => []
                 end)
     end, st).
Proof.
  intros Hm. unfold serve, me, mbind. rewrite Hm.
  cbn [String.eqb Ascii.eqb Bool.eqb negb andb]. rewrite requireAuth_run.
  now destruct (resolve (sessions st) (getAuthToken req)).
Qed.

End Registration.

(** X15 (POST /auth/register, lines 169-203, with login and GET
    /me).  For a POST with e-mail, name and a password of at least six
    characters, an e-mail no row has, and a platform that knows sha256
    and derives a key that is not empty: the answer is 201 with a token
    and the new user, whose id is positive and was not in the table and
    whose theme is "system"; the table has gained exactly that row and
    the session map that token.  The same request again is answered 409
    and changes nothing, a login with the same body succeeds, and GET /me
    with the token shows the new user. *)
Theorem register_then_login `{Pbkdf2} st req f :
  method req = "POST" -> body req = Fields f ->
  let email := toLowerCase (trim (str_or (f !! "email") "")) in
  let name := trim (str_or (f !! "name") "") in
  let password := str_or (f !! "password") "" in
  email <> "" -> name <> "" -> (6 <= String.length password)%nat ->
  Store.select_by_email email (users st) = None ->
  known_digest "sha256" = true ->
  derive password (toHex (List.map (random st) (seq 0 16))) 120000 32 "sha256" <> [] ->
  let userId := next_id (users st) in
  let out := serve (register req) st in
  exists token h,
    fst out = sendJson 201 (JObj [("token", JStr token);
                                  ("user", profile userId email name "system")])
    /\ users (snd out) = (users st ++ [new_user userId email name h])%list
    /\ sessions (snd out) = <[token := userId]> (sessions st)
    /\ 0 < userId
    /\ ~ known (users st) userId
    /\ serve (register req) (snd out)
       = (sendJson 409 (JObj [("error", JStr "user already exists")]), snd out)
    /\ status (fst (serve (login req) (snd out))) = 200
    /\ (forall b,
          fst (serve (me {| method := "GET"; authorization := Some ("Bearer " ++ token);
                            body := b |}) (snd out))
          = sendJson 200 (JObj [("user", profile userId email name "system")])).
Proof.
  intros Hm Hb email name password He Hn Hp Hfresh Hk Hkey userId out.
  assert (Hpw : password <> "") by (destruct password; [cbn in Hp; lia|discriminate]).
  pose proof (register_run st req f Hm Hb He Hn Hp) as Hrun.
  cbv zeta in Hrun. fold email name password in Hrun.
  rewrite Hfresh, hashPassword_run, Hk in Hrun. fold userId in Hrun.
  set (salt := toHex (List.map (random st) (seq 0 16))) in *.
  set (key := derive password salt 120000 32 "sha256") in *.
  set (h := "pbkdf2$sha256$120000$" ++ salt ++ "$" ++ toHex key) in *.
  set (src := fun i => random st (16 + i)%nat) in *.
  set (token := fst (makeToken 24 src)) in *.
  subst out. rewrite Hrun. cbn [fst snd users sessions].
  set (row := new_user userId email name h).
  set (st1 := {| sessions := <[token := userId]> (sessions st);
                 users := (users st ++ [row])%list;
                 random := snd (makeToken 24 src) |}).
  assert (Hsel : Store.select_by_email email (users st1) = Some row)
    by now apply select_by_email_app.
  assert (Hpos : 0 < userId) by apply next_id_positive.
  exists token, h. split; [reflexivity|]. split; [reflexivity|]. split; [reflexivity|].
  split; [exact Hpos|]. split; [|split; [|split]].
  - intros Hknown. apply known_In in Hknown. apply next_id_above in Hknown.
    unfold userId in Hknown. lia.
  - pose proof (register_run st1 req f Hm Hb He Hn Hp) as Hagain.
    cbv zeta in Hagain. fold email name password in Hagain.
    now rewrite Hsel in Hagain.
  - pose proof (login_run st1 req f Hm Hb He Hpw) as Hlogin.
    cbv zeta in Hlogin. fold email password in Hlogin. rewrite Hsel in Hlogin.
    unfold row in Hlogin. cbn [new_user Store.password_hash] in Hlogin.
    unfold h in Hlogin.
    rewrite verifyPassword_hashed in Hlogin;
      [|apply toHex_lower_hex|unfold salt; discriminate|exact Hkey|exact Hk].
    fold key in Hlogin.
    replace (equal_bytes key key) with true in Hlogin
      by (symmetry; now apply equal_bytes_eq).
    now rewrite Hlogin.
  - intros b. rewrite me_run by reflexivity.
    rewrite (bearer_token token) by (apply toHex_spaceless || reflexivity).
    cbn [st1 sessions users].
    rewrite resolve_insert; [|apply toHex_falsy; discriminate|lia].
    fold row. unfold userId at 1. rewrite select_by_id_app by reflexivity.
    reflexivity.
Qed.

(** X15 on the demo state: Carol registers with spaces and capitals in
    her e-mail, gets id 3 and can log in. *)
Lemma register_then_login_witness :
  let H := Demo.platform in
  let req := Demo.post [("email", " Carol@Example.com"); ("name", "Carol ");
                        ("password", "correct horse")] in
  let out := serve (register req) Demo.st in
  exists token h,
    fst out = sendJson 201 (JObj [("token", JStr token);
                                  ("user", profile 3 "carol@example.com" "Carol" "system")])
    /\ users (snd out)
       = [Demo.alice; Demo.bob; new_user 3 "carol@example.com" "Carol" h]
    /\ status (fst (serve (login req) (snd out))) = 200.
Proof.
  intros H req out.
  assert (Hne : forall c s, String c s <> "") by discriminate.
  assert (He : toLowerCase (trim (str_or (((list_to_map
                 [("email", " Carol@Example.com"); ("name", "Carol ");
                  ("password", "correct horse")]) : gmap string string) !! "email") ""))
               = "carol@example.com") by (vm_compute; reflexivity).
  assert (Hn : trim (str_or (((list_to_map
                 [("email", " Carol@Example.com"); ("name", "Carol ");
                  ("password", "correct horse")]) : gmap string string) !! "name") "")
               = "Carol") by (vm_compute; reflexivity).
  assert (Hp : str_or (((list_to_map
                 [("email", " Carol@Example.com"); ("name", "Carol ");
                  ("password", "correct horse")]) : gmap string string) !! "password") ""
               = "correct horse") by (vm_compute; reflexivity).
  pose proof (register_then_login Demo.st req _ eq_refl eq_refl) as T.
  cbv zeta in T. rewrite He, Hn, Hp in T.
  specialize (T (Hne _ _) (Hne _ _) ltac:(cbn; lia) ltac:(vm_compute; reflexivity)
                eq_refl ltac:(vm_compute; discriminate)).
  destruct T as (token & h & Hout & Husers & _ & _ & _ & _ & Hlogin & _).
  exists token, h. split; [exact Hout|]. split; [exact Husers|exact Hlogin].
Defined.

Section Profile.

Lemma select_by_id_update (set : Store.user -> Store.user) i j t :
  (forall u, Store.id (set u) = Store.id u) ->
  select_by_id i (Store.update_where_id set j t)
  = option_map (fun u => if Store.id u =? j then set u else u) (select_by_id i t).
Proof.
  intros Hset. unfold select_by_id, Store.update_where_id.
  induction t as [|u t IH]; [reflexivity|]. cbn [List.map List.find].
  assert (Hid : Store.id (if Store.id u =? j then set u else u) = Store.id u)
    by (destruct (Store.id u =? j); [apply Hset|reflexivity]).
  rewrite Hid. destruct (Store.id u =? i); [reflexivity|exact IH].
Qed.

Lemma select_by_id_id i t row : select_by_id i t = Some row -> Store.id row = i.
Proof.
  unfold select_by_id. intros Hfind. apply List.find_some in Hfind as [_ Hid].
  now apply Z.eqb_eq.
Qed.

End Profile.

(** X16 (PUT /me/theme, lines 326-340, with GET /me, lines
    313-323).  After a PUT of a listed theme by a session whose user has a
    row, GET /me with the same token shows that user with the new theme
    and the id, e-mail and name as before; the rows of all other ids and
    the sessions are as they were. *)
Theorem theme_then_me st req f u row :
  resolve (sessions st) (getAuthToken req) = Some u ->
  method req = "PUT" -> body req = Fields f ->
  let theme := str_or (f !! "theme") "system" in
  In theme themes ->
  select_by_id u (users st) = Some row ->
  let st1 := snd (serve (me_theme req) st) in
  (forall req', method req' = "GET" -> getAuthToken req' = getAuthToken req ->
     serve (me req') st1
     = (sendJson 200 (JObj [("user", profile u (Store.email row) (Store.name row) theme)]),
        st1))
  /\ (forall i, i <> u -> select_by_id i (users st1) = select_by_id i (users st))
  /\ sessions st1 = sessions st.
Proof.
  intros Hres Hm Hb theme Hin Hrow st1.
  pose proof (me_theme_run st req u f Hres Hm Hb) as Hrun. cbv zeta in Hrun.
  fold theme in Hrun. apply theme_listed in Hin. rewrite Hin in Hrun.
  subst st1. rewrite Hrun. cbn [snd].
  split; [|split; [|reflexivity]].
  - intros req' Hget Htoken. rewrite me_run by exact Hget.
    unfold with_users. cbn [sessions users]. rewrite Htoken, Hres.
    rewrite select_by_id_update by reflexivity. rewrite Hrow. cbn [option_map].
    rewrite (select_by_id_id _ _ _ Hrow), Z.eqb_refl.
    cbn [Store.set_theme Store.id Store.email Store.name Store.theme].
    now rewrite (select_by_id_id _ _ _ Hrow).
  - intros i Hne. unfold with_users. cbn [users].
    rewrite select_by_id_update by reflexivity.
    destruct (select_by_id i (users st)) as [r|] eqn:Hsel; [|reflexivity].
    cbn [option_map]. rewrite (select_by_id_id _ _ _ Hsel).
    destruct (Z.eqb_spec i u); [contradiction|reflexivity].
Qed.

(** X16 on the demo state: Alice switches to "light". *)
Lemma theme_then_me_witness :
  let st1 := snd (serve (me_theme (Demo.put_as Demo.alice_session [("theme", "light")]))
                    Demo.st) in
  serve (me (Sample.get_as Demo.alice_session)) st1
  = (sendJson 200 (JObj [("user", profile 1 "alice@example.com" "Alice" "light")]), st1).
Proof.
  intros st1.
  assert (Hres : resolve (sessions Demo.st)
                   (getAuthToken (Demo.put_as Demo.alice_session [("theme", "light")]))
                 = Some 1) by (vm_compute; reflexivity).
  assert (Hin : In (str_or (((list_to_map [("theme", "light")]) : gmap string string)
                              !! "theme") "system") themes)
    by (right; left; vm_compute; reflexivity).
  refine (proj1 (theme_then_me Demo.st
                   (Demo.put_as Demo.alice_session [("theme", "light")]) _ 1 Demo.alice
                   Hres eq_refl eq_refl Hin eq_refl)
            (Sample.get_as Demo.alice_session) eq_refl _).
  vm_compute. reflexivity.
Defined.

(** ** Search history *)

Section HistoryOrder.


Lemma insert_desc_perm r l : Permutation (r :: l) (History.insert_desc r l).
Proof.
  induction l as [|r' l IH]; cbn [History.insert_desc]; [reflexivity|].
  destruct (Search.created_at r' <=? Search.created_at r); [reflexivity|].
  rewrite perm_swap. now apply perm_skip.
Qed.

Lemma order_desc_perm l : Permutation l (History.order_desc l).
Proof.
  induction l as [|r l IH]; [reflexivity|]. cbn [History.order_desc fold_right].
  rewrite <- insert_desc_perm. now apply perm_skip.
Qed.

Lemma insert_desc_sorted r l :
  StronglySorted History.not_older l -> StronglySorted History.not_older (History.insert_desc r l).
Proof.
  induction 1 as [|r' l Hs IH Hall]; cbn [History.insert_desc].
  - repeat constructor.
  - destruct (Z.leb_spec (Search.created_at r') (Search.created_at r)) as [Hle|Hlt].
    + constructor; [now constructor|]. constructor; [exact Hle|].
      eapply List.Forall_impl; [|exact Hall]. unfold History.not_older.
      intros x Hx. lia.
    + constructor; [exact IH|].
      apply (Permutation_Forall (insert_desc_perm r l)).
      constructor; [unfold History.not_older; lia|exact Hall].
Qed.

Lemma order_desc_sorted l : StronglySorted History.not_older (History.order_desc l).
Proof.
  induction l as [|r l IH]; [constructor|]. now apply insert_desc_sorted.
Qed.

Lemma map_sorted {A B} (R : A -> A -> Prop) (S : B -> B -> Prop) (g : A -> B) l :
  (forall a b, R a b -> S (g a) (g b)) ->
  StronglySorted R l -> StronglySorted S (List.map g l).
Proof.
  intros Hg. induction 1 as [|a l Hs IH Hall]; cbn; constructor; [exact IH|].
  apply List.Forall_map. eapply List.Forall_impl; [|exact Hall]. intros b. apply Hg.
Qed.

(** A search later than all the searches before it comes first. *)
Lemma order_desc_latest l r :
  List.Forall (fun x => Search.created_at x < Search.created_at r) l ->
  History.order_desc (l ++ [r]) = r :: History.order_desc l.
Proof.
  induction 1 as [|a l Ha Hall IH]; [reflexivity|].
  cbn [List.app History.order_desc fold_right].
  change (fold_right History.insert_desc [] (l ++ [r])) with (History.order_desc (l ++ [r])).
  rewrite IH. cbn [History.insert_desc].
  destruct (Z.leb_spec (Search.created_at r) (Search.created_at a)); [lia|reflexivity].
Qed.

End HistoryOrder.

(** X17 (the SELECT of GET /history, lines 347-351).  The history
    of a user has at most 50 entries, each at least as new as the ones
    after it, each the city, language and time of a search of that user;
    it is the first 50 of an ordering of all searches of the user; and a
    search of another user does not change it. *)
Theorem history_newest_first (userId : Z) (rows : History.table) :
  let history := History.select_history userId rows in
  (length history <= 50)%nat
  /\ StronglySorted History.newer_or_same history
  /\ (forall e, In e history ->
        exists r, In r rows /\ Search.user_id r = userId /\ History.columns r = e)
  /\ (exists sorted,
        Permutation sorted (History.of_user userId rows) /\
        StronglySorted History.newer_or_same sorted /\
        history = firstn 50 sorted)
  /\ (forall r, Search.user_id r <> userId ->
        History.select_history userId (rows ++ [r])%list = history).
Proof.
  unfold History.select_history, History.of_user.
  set (mine := List.filter (fun r => Search.user_id r =? userId) rows).
  assert (Hsorted : StronglySorted History.newer_or_same
                      (List.map History.columns (History.order_desc mine))).
  { apply (map_sorted History.not_older); [tauto|apply order_desc_sorted]. }
  cbv zeta. split; [|split; [|split; [|split]]].
  - apply List.firstn_le_length.
  - now apply firstn_sorted.
  - intros e Hin. apply firstn_In in Hin. apply List.in_map_iff in Hin as (r & <- & Hin).
    apply (Permutation_in _ (Permutation_sym (order_desc_perm mine))) in Hin.
    apply List.filter_In in Hin as [Hin Hu]. apply Z.eqb_eq in Hu. now exists r.
  - exists (List.map History.columns (History.order_desc mine)).
    split; [|split; [exact Hsorted|reflexivity]].
    apply Permutation_map. symmetry. apply order_desc_perm.
  - intros r Hne. rewrite List.filter_app. cbn [List.filter].
    destruct (Z.eqb_spec (Search.user_id r) userId); [contradiction|].
    now rewrite List.app_nil_r.
Qed.

(** X18 (POST /history then GET /history, lines 343-376).  A POST
    /history by a session of an existing user, with a city that is not
    empty after trimming and a language that is en or ru (en when the
    field is missing), answers 200, adds exactly the row of that user,
    the trimmed city, the language and the time of the request, and
    touches nothing else.  When the user's earlier searches are all
    older, GET /history with the same token then shows this search first,
    followed by the first 49 entries of the history before. *)
Theorem search_recorded `{Pbkdf2} env rq w q f userId :
  url rq = Parsed "/history" q -> method (message rq) = "POST" ->
  body (message rq) = Fields f ->
  resolve (sessions (core w)) (getAuthToken (message rq)) = Some userId ->
  known (users (core w)) userId ->
  let city := trim (str_or (f !! "city") "") in
  let lang := trim (str_or (f !! "lang") "en") in
  city <> "" -> In lang ["en"; "ru"] ->
  let entry := {| HistoryRow.city := city; HistoryRow.lang := lang;
                  HistoryRow.created_at := Upstream.now env |} in
  let out := listener env rq w in
  fst out = Json success
  /\ core (snd out) = core w
  /\ searches (snd out)
     = (searches w ++ [{| Search.user_id := userId; Search.city := city;
                          Search.lang := lang;
                          Search.created_at := Upstream.now env |}])%list
  /\ (List.Forall (fun e => HistoryRow.created_at e < Upstream.now env)
        (History.of_user userId (searches w)) ->
      forall env' rq' q',
        url rq' = Parsed "/history" q' -> method (message rq') = "GET" ->
        getAuthToken (message rq') = getAuthToken (message rq) ->
        listener env' rq' (snd out)
        = (HistoryRows (entry :: firstn 49 (History.select_history userId (searches w))),
           snd out)).
Proof.
  intros Hurl Hm Hb Hres Hknown city lang Hcity Hlang entry out.
  assert (Hout : out = (Json success,
                        {| core := core w;
                           searches := (searches w ++
                                        [{| Search.user_id := userId; Search.city := city;
                                            Search.lang := lang;
                                            Search.created_at := Upstream.now env |}])%list |})).
  { subst out. unfold listener, route. cbv zeta. rewrite Hurl, Hm. eval_eqb.
    rewrite history_post_run, Hres, Hb. cbv zeta. fold city lang.
    apply falsy_false_ne in Hcity. rewrite Hcity.
    assert (Hl : existsb (String.eqb lang) ["en"; "ru"] = true).
    { apply List.existsb_exists. exists lang. split; [exact Hlang|apply String.eqb_refl]. }
    rewrite Hl. cbn [negb].
    apply existsb_id in Hknown. rewrite Hknown. reflexivity. }
  rewrite Hout. cbn [fst snd core searches].
  split; [reflexivity|]. split; [reflexivity|]. split; [reflexivity|].
  intros Hlate env' rq' q' Hurl' Hget Htoken.
  unfold listener, route. cbv zeta. rewrite Hurl', Hget. eval_eqb.
  rewrite history_get_run. cbn [core searches caught]. rewrite Htoken, Hres.
  f_equal. f_equal. unfold History.select_history.
  rewrite List.filter_app. cbn [List.filter Search.user_id]. rewrite Z.eqb_refl.
  rewrite order_desc_latest.
  - cbn [List.map firstn]. unfold entry. f_equal.
    rewrite List.firstn_firstn. reflexivity.
  - unfold History.of_user in Hlate. rewrite List.Forall_map in Hlate.
    exact Hlate.
Qed.

(** X18 on the demo state: Alice searches for Riga and reads her
    history. *)
Lemma search_recorded_witness :
  let H := Demo.platform in
  let rq := Sample.to "/history" (Sample.post_as Demo.alice_session [("city", " Riga ")]) in
  let out := listener Sample.offline rq Sample.world0 in
  fst out = Json success
  /\ listener Sample.offline (Sample.to "/history" (Sample.get_as Demo.alice_session))
       (snd out)
     = (HistoryRows [{| HistoryRow.city := "Riga"; HistoryRow.lang := "en";
                        HistoryRow.created_at := 1700000000000 |}], snd out).
Proof.
  intros H rq out.
  assert (Hres : resolve (sessions (core Sample.world0)) (getAuthToken (message rq)) = Some 1)
    by (vm_compute; reflexivity).
  assert (Hcity : trim (str_or (((list_to_map [("city", " Riga ")]) : gmap string string)
                                  !! "city") "") = "Riga") by (vm_compute; reflexivity).
  assert (Hlang : trim (str_or (((list_to_map [("city", " Riga ")]) : gmap string string)
                                  !! "lang") "en") = "en") by (vm_compute; reflexivity).
  pose proof (search_recorded Sample.offline rq Sample.world0 [] _ 1 eq_refl eq_refl eq_refl
                Hres (ex_intro _ Demo.alice eq_refl)) as T.
  cbv zeta in T. rewrite Hcity, Hlang in T.
  specialize (T ltac:(discriminate) ltac:(now left)).
  destruct T as (Hreply & _ & _ & Hget).
  split; [exact Hreply|].
  apply (Hget ltac:(constructor) Sample.offline
           (Sample.to "/history" (Sample.get_as Demo.alice_session)) []);
    [reflexivity|reflexivity|vm_compute; reflexivity].
Defined.

(** ** The weather provider *)

Section Encoding.

Lemma all_safe_app a b :
  Upstream.all_safe (a ++ b) = Upstream.all_safe a && Upstream.all_safe b.
Proof.
  induction a as [|c a IH]; [reflexivity|]. simpl.
  now rewrite IH, andb_assoc.
Qed.

Lemma string_length_app a b :
  String.length (a ++ b) = (String.length a + String.length b)%nat.
Proof. induction a as [|c a IH]; [reflexivity|]. simpl. now rewrite IH. Qed.

Lemma encode_unit_safe c : Upstream.all_safe (Upstream.encode_unit c) = true.
Proof.
  destruct c as [b0 b1 b2 b3 b4 b5 b6 b7].
  destruct b0, b1, b2, b3, b4, b5, b6, b7; vm_compute; reflexivity.
Qed.

Lemma decode_encode_unit c rest :
  Upstream.decode_unit (Upstream.encode_unit c ++ rest) = Some (c, rest).
Proof.
  destruct c as [b0 b1 b2 b3 b4 b5 b6 b7].
  destruct b0, b1, b2, b3, b4, b5, b6, b7; reflexivity.
Qed.

Lemma encodeURIComponent_safe s : Upstream.all_safe (Upstream.encodeURIComponent s) = true.
Proof.
  induction s as [|c s IH]; [reflexivity|]. cbn [Upstream.encodeURIComponent].
  now rewrite all_safe_app, encode_unit_safe, IH.
Qed.

Lemma encodeURIComponent_injective a b :
  Upstream.encodeURIComponent a = Upstream.encodeURIComponent b -> a = b.
Proof.
  revert b. induction a as [|c a IH]; intros [|d b] Heq; cbn [Upstream.encodeURIComponent] in Heq.
  - reflexivity.
  - apply (f_equal Upstream.decode_unit) in Heq. rewrite decode_encode_unit in Heq.
    discriminate Heq.
  - apply (f_equal Upstream.decode_unit) in Heq. rewrite decode_encode_unit in Heq.
    discriminate Heq.
  - apply (f_equal Upstream.decode_unit) in Heq. rewrite !decode_encode_unit in Heq.
    injection Heq as -> Heq. f_equal. now apply IH.
Qed.

Lemma all_safe_free s c :
  Upstream.url_safe c = false -> Upstream.all_safe s = true -> free_of c s = true.
Proof.
  intros Hc. induction s as [|d s IH]; [reflexivity|]. cbn [Upstream.all_safe free_of].
  intros Hs. apply andb_prop in Hs as [Hd Hs]. rewrite (IH Hs), andb_true_r.
  destruct (Ascii.eqb_spec d c) as [->|_]; [congruence|reflexivity].
Qed.

Lemma encodeURIComponent_unreserved s :
  forallb Upstream.unreserved (list_ascii_of_string s) = true ->
  Upstream.encodeURIComponent s = s.
Proof.
  induction s as [|c s IH]; [reflexivity|]. cbn [list_ascii_of_string forallb].
  intros Hs. apply andb_prop in Hs as [Hc Hs].
  cbn [Upstream.encodeURIComponent]. unfold Upstream.encode_unit. rewrite Hc.
  cbn [String.append]. now rewrite IH.
Qed.

Lemma upper_hex_digit_safe n :
  Upstream.url_safe (Upstream.upper_hex_digit n) = true.
Proof.
  unfold Upstream.upper_hex_digit. generalize (N.to_nat n). intros m.
  do 16 (destruct m as [|m]; [reflexivity|]). now destruct m.
Qed.

Lemma escapes_safe octets : Upstream.all_safe (Upstream.escapes octets) = true.
Proof.
  induction octets as [|octet octets IH]; [reflexivity|].
  cbn [Upstream.escapes fold_right]. fold (Upstream.escapes octets).
  rewrite all_safe_app, IH, andb_true_r. unfold Upstream.escape.
  cbn [Upstream.all_safe]. now rewrite !upper_hex_digit_safe.
Qed.

Lemma escapes_length octets :
  String.length (Upstream.escapes octets) = (3 * length octets)%nat.
Proof.
  induction octets as [|octet octets IH]; [reflexivity|].
  cbn [Upstream.escapes fold_right]. fold (Upstream.escapes octets).
  rewrite string_length_app, IH. cbn [length Upstream.escape String.length]. lia.
Qed.

Lemma utf8_length cp :
  (1 <= length (Upstream.utf8 cp) <= 4)%nat
  /\ ((cp < 65536)%N -> (length (Upstream.utf8 cp) <= 3)%nat)
  /\ ((cp < 256)%N -> (length (Upstream.utf8 cp) <= 2)%nat).
Proof.
  unfold Upstream.utf8.
  destruct (N.ltb_spec cp 128); [cbn; lia|].
  destruct (N.ltb_spec cp 2048); [cbn; lia|].
  destruct (N.ltb_spec cp 65536); cbn; lia.
Qed.

Lemma unreserved_unit_safe n :
  Upstream.unreserved_unit n = true -> Upstream.url_safe (ascii_of_N n) = true.
Proof.
  unfold Upstream.unreserved_unit, Upstream.url_safe.
  intros Hn. apply andb_prop in Hn as [_ ->]. reflexivity.
Qed.

(** The surrogate pair makes the recursion skip a code unit, hence the
    induction on a bound of the length. *)
Lemma encode_units_bounds k units text :
  (length units <= k)%nat ->
  List.Forall (fun n => (n < 65536)%N) units ->
  Upstream.encode_units units = Return text ->
  Upstream.all_safe text = true
  /\ (length units <= String.length text <= 9 * length units)%nat.
Proof.
  revert units text. induction k as [|k IH]; intros [|n rest] text Hlen Hall;
    cbn [length] in Hlen; try lia; cbn [Upstream.encode_units].
  - intros [= <-]. cbn. split; [reflexivity|lia].
  - intros [= <-]. cbn. split; [reflexivity|lia].
  - apply List.Forall_cons_iff in Hall as [Hn Hrest].
    destruct (Upstream.unreserved_unit n) eqn:Hu.
    { destruct (Upstream.encode_units rest) as [t|] eqn:Ht; [|discriminate].
      intros [= <-]. destruct (IH rest t ltac:(lia) Hrest Ht) as [Hs Hl].
      cbn [Upstream.all_safe String.length length].
      rewrite (unreserved_unit_safe n Hu), Hs. split; [reflexivity|lia]. }
    destruct (Upstream.low_surrogate n); [discriminate|].
    destruct (Upstream.high_surrogate n).
    + destruct rest as [|lo rest']; [discriminate|].
      destruct (Upstream.low_surrogate lo); [|discriminate].
      apply List.Forall_cons_iff in Hrest as [_ Hrest'].
      cbn [length] in Hlen.
      destruct (Upstream.encode_units rest') as [t|] eqn:Ht; [|discriminate].
      intros [= <-]. destruct (IH rest' t ltac:(lia) Hrest' Ht) as [Hs Hl].
      rewrite all_safe_app, escapes_safe, Hs, string_length_app, escapes_length.
      split; [reflexivity|].
      pose proof (proj1 (utf8_length (65536 + (n - 55296) * 1024 + (lo - 56320))%N)).
      cbn [length]. lia.
    + destruct (Upstream.encode_units rest) as [t|] eqn:Ht; [|discriminate].
      intros [= <-]. destruct (IH rest t ltac:(lia) Hrest Ht) as [Hs Hl].
      rewrite all_safe_app, escapes_safe, Hs, string_length_app, escapes_length.
      split; [reflexivity|].
      pose proof (proj1 (utf8_length n)).
      pose proof (proj1 (proj2 (utf8_length n)) Hn).
      cbn [length]. lia.
Qed.

Lemma below_surrogates n :
  (n < 256)%N -> Upstream.high_surrogate n = false /\ Upstream.low_surrogate n = false.
Proof.
  unfold Upstream.high_surrogate, Upstream.low_surrogate. intros Hn.
  destruct (N.leb_spec 55296 n); [lia|]. destruct (N.leb_spec 56320 n); [lia|].
  now split.
Qed.

Lemma encode_units_narrow units text :
  List.Forall (fun n => (n < 256)%N) units ->
  Upstream.encode_units units = Return text ->
  (String.length text <= 6 * length units)%nat.
Proof.
  revert text. induction units as [|n rest IH]; intros text Hall;
    cbn [Upstream.encode_units].
  - intros [= <-]. cbn. lia.
  - apply List.Forall_cons_iff in Hall as [Hn Hrest].
    destruct (below_surrogates n Hn) as [-> ->].
    destruct (Upstream.encode_units rest) as [t|] eqn:Ht;
      [|destruct (Upstream.unreserved_unit n); discriminate].
    specialize (IH t Hrest eq_refl).
    destruct (Upstream.unreserved_unit n); intros [= <-].
    + cbn [String.length length]. lia.
    + rewrite string_length_app, escapes_length.
      pose proof (proj2 (proj2 (utf8_length n)) Hn). cbn [length]. lia.
Qed.

Lemma encode_units_returns units :
  List.Forall (fun n => Upstream.high_surrogate n = false
                        /\ Upstream.low_surrogate n = false) units ->
  exists text, Upstream.encode_units units = Return text.
Proof.
  induction 1 as [|n rest [Hh Hl] _ [t IH]]; [now exists EmptyString|].
  cbn [Upstream.encode_units]. rewrite Hh, Hl, IH.
  destruct (Upstream.unreserved_unit n); cbn [bind]; eauto.
Qed.

(** On a code unit below 256 the function is [encode_unit]. *)
Lemma encode_units_ascii c rest :
  Upstream.encode_units (N_of_ascii c :: rest)
  = bind (Upstream.encode_units rest)
      (fun text => Return (Upstream.encode_unit c ++ text)).
Proof.
  destruct c as [b0 b1 b2 b3 b4 b5 b6 b7].
  destruct b0, b1, b2, b3, b4, b5, b6, b7; reflexivity.
Qed.

Lemma encode_units_of s :
  Upstream.encode_units (Upstream.units_of s) = Return (Upstream.encodeURIComponent s).
Proof.
  induction s as [|c s IH]; [reflexivity|].
  change (Upstream.units_of (String c s)) with (N_of_ascii c :: Upstream.units_of s).
  rewrite encode_units_ascii, IH. reflexivity.
Qed.

End Encoding.

(** X19 ([encodeURIComponent] in the provider URLs, lines 388-389
    and 415-416).  For a sequence of 16-bit code units: when the function
    returns, the text has only unreserved characters and percent signs,
    hence none of [& = ? # / +] and no space, so city and language cannot
    add a parameter to the provider URL; the text is at least as long as
    the sequence and at most nine times as long, at most six times when
    all code units are below 256.  The function returns when the sequence
    has no surrogate, and throws a [URIError] when it starts with a low
    surrogate or with a high surrogate that no low one follows.  On the
    code units of a string of the embedding it returns what
    [encodeURIComponent] of the embedding does, which is injective and
    leaves a text of unreserved characters as it is. *)
Theorem encodeURIComponent_escapes (units : list N) :
  List.Forall (fun n => (n < 65536)%N) units ->
  (forall text, Upstream.encode_units units = Return text ->
     Upstream.all_safe text = true
     /\ List.Forall (fun c => free_of c text = true)
          (list_ascii_of_string "&=?#/+ ")
     /\ (length units <= String.length text <= 9 * length units)%nat
     /\ (List.Forall (fun n => (n < 256)%N) units ->
           (String.length text <= 6 * length units)%nat))
  /\ (List.Forall (fun n => Upstream.high_surrogate n = false
                            /\ Upstream.low_surrogate n = false) units ->
        exists text, Upstream.encode_units units = Return text)
  /\ (forall n rest, units = n :: rest ->
        Upstream.low_surrogate n = true
        \/ (Upstream.high_surrogate n = true /\
            match rest with lo :: _ => Upstream.low_surrogate lo = false | [] => True end) ->
        Upstream.encode_units units = Throw Upstream.malformed)
  /\ (forall s, units = Upstream.units_of s ->
        Upstream.encode_units units = Return (Upstream.encodeURIComponent s)
        /\ (forall s', Upstream.encodeURIComponent s' = Upstream.encodeURIComponent s ->
              s' = s)
        /\ (forallb Upstream.unreserved (list_ascii_of_string s) = true ->
              Upstream.encodeURIComponent s = s)).
Proof.
  intros Hunits. split; [|split; [|split]].
  - intros text Htext.
    destruct (encode_units_bounds (length units) units text (le_n _) Hunits Htext)
      as [Hsafe Hlen].
    split; [exact Hsafe|]. split; [|split; [exact Hlen|]].
    + repeat constructor; (apply all_safe_free; [reflexivity|exact Hsafe]).
    + intros Hnarrow. now apply encode_units_narrow.
  - apply encode_units_returns.
  - intros n rest -> Hlone. cbn [Upstream.encode_units].
    assert (Hu : Upstream.unreserved_unit n = false).
    { unfold Upstream.unreserved_unit.
      destruct (N.ltb_spec n 128) as [Hn|]; [|reflexivity].
      destruct (below_surrogates n ltac:(lia)) as [Hh Hl].
      destruct Hlone as [Hlow|[Hhigh _]]; congruence. }
    rewrite Hu. destruct Hlone as [->|[Hhigh Hrest]]; [reflexivity|].
    rewrite Hhigh. destruct (Upstream.low_surrogate n); [reflexivity|].
    destruct rest as [|lo rest']; [reflexivity|]. now rewrite Hrest.
  - intros s ->. split; [apply encode_units_of|]. split.
    + intros s'. apply encodeURIComponent_injective.
    + apply encodeURIComponent_unreserved.
Qed.

(** X19 on the code units of "Riga" with a macron on the i, a space,
    the euro sign and a surrogate pair; and on a high surrogate at the
    end. *)
Lemma encodeURIComponent_escapes_witness :
  let units := [82; 299; 103; 97; 32; 8364; 55357; 56832]%N in
  Upstream.encode_units units = Return "R%C4%ABga%20%E2%82%AC%F0%9F%98%80"
  /\ Upstream.all_safe "R%C4%ABga%20%E2%82%AC%F0%9F%98%80" = true
  /\ (8 <= 33 <= 72)%nat
  /\ Upstream.encode_units [82; 55357]%N = Throw Upstream.malformed.
Proof.
  intros units.
  assert (Hunits : List.Forall (fun n => (n < 65536)%N) units)
    by (repeat constructor).
  assert (Htext : Upstream.encode_units units = Return "R%C4%ABga%20%E2%82%AC%F0%9F%98%80")
    by (vm_compute; reflexivity).
  destruct (proj1 (encodeURIComponent_escapes units Hunits) _ Htext)
    as (Hsafe & _ & Hlen & _).
  split; [exact Htext|]. split; [exact Hsafe|]. split; [exact Hlen|].
  vm_compute. reflexivity.
Defined.

Section Provider.

Lemma aggregate_bounded samples :
  (length (aggregate samples) <= 6)%nat /\ StronglySorted day_before (aggregate samples).
Proof.
  unfold aggregate. cbv zeta. split.
  - etransitivity; [apply summarize_length|apply days_length].
  - apply sorted_by_date. rewrite summarize_dates by apply days_In. apply days_sorted.
Qed.

Lemma inherited_In k :
  inherited k = true <-> In k ["toString"; "valueOf"; "__proto__"].
Proof.
  unfold inherited. rewrite existsb_exists. split.
  - intros (x & Hin & Heq). apply String.eqb_eq in Heq. now subst.
  - intros Hin. exists k. split; [exact Hin|apply String.eqb_refl].
Qed.

Lemma faulty_spec item :
  faulty item = true <->
  In (dateKey item) ["toString"; "valueOf"; "__proto__"]
  /\ (desc item <> "" \/ icon_of item <> "").
Proof.
  unfold faulty. rewrite andb_true_iff, inherited_In, negb_true_iff, andb_false_iff.
  split; intros [Hk Hp]; (split; [exact Hk|]).
  - destruct Hp as [Hp|Hp]; [left|right]; intros He; now rewrite He in Hp.
  - destruct Hp as [Hp|Hp]; [left|right]; now apply falsy_false_ne.
Qed.

Lemma faulty_none samples :
  (forall item, In item samples ->
     In (dateKey item) ["toString"; "valueOf"; "__proto__"] ->
     desc item = "" /\ icon_of item = "") ->
  existsb faulty samples = false.
Proof.
  intros Hall. destruct (existsb faulty samples) eqn:Hex; [|reflexivity].
  apply existsb_exists in Hex as (item & Hin & Hf). apply faulty_spec in Hf as [Hk Hp].
  destruct (Hall item Hin Hk) as [Hd Hi]. tauto.
Qed.

Lemma faulty_some samples item :
  In item samples ->
  In (dateKey item) ["toString"; "valueOf"; "__proto__"] ->
  desc item <> "" \/ icon_of item <> "" ->
  existsb faulty samples = true.
Proof.
  intros Hin Hk Hp. apply existsb_exists. exists item. split; [exact Hin|].
  now apply faulty_spec.
Qed.

End Provider.

(** X20 (GET /api/weather and /api/forecast, lines 379-467, with
    requireOwKey and owGet).  Without an API key both routes answer the
    same 500, also when the city is missing; with a key and no city both
    answer 400 "city is required".  With a key and a city: a provider
    response that is not OK makes /api/forecast answer 500 with
    "OpenWeather error: ", the status in decimal, a space and the body; a
    forecast document in which every sample dated "toString", "valueOf"
    or "__proto__" has neither description nor icon is answered with the
    trimmed city and the aggregation of its list, at most six days in
    ascending order of the date; a document with a sample of such a date
    that has a description or an icon is answered 500 with the message
    of the [TypeError] of the push; a weather document without a
    [weather] array gives empty description and icon; a fetch that fails
    and a body that is not JSON make /api/weather answer 500 with the
    message of the error. *)
Theorem provider_endpoints env q :
  let city := trim (str_or (get q "city") "") in
  let lang := trim (str_or (get q "lang") "en") in
  (Upstream.OW_KEY env = "" ->
     exists missing, Upstream.requireOwKey env = Some missing /\ status missing = 500 /\
       api_weather env q = Json missing /\ api_forecast env q = Json missing)
  /\ (Upstream.OW_KEY env <> "" -> city = "" ->
        api_weather env q = Json (failure "city is required") /\
        api_forecast env q = Json (failure "city is required"))
  /\ (Upstream.OW_KEY env <> "" -> city <> "" ->
        (forall code text,
           Upstream.fetch env (Upstream.owUrl "forecast" env city lang)
             = Upstream.Refused code text ->
           api_forecast env q
           = Json (sendJson 500
                     (JObj [("error",
                             JStr ("OpenWeather error: " ++ Upstream.decimal code ++ " "
                                     ++ match text with Some t => t | None => "" end))])))
        /\ (forall data,
              Upstream.fetch env (Upstream.owUrl "forecast" env city lang)
                = Upstream.Answered (Return data) ->
              ((forall item, In item (Upstream.samples data) ->
                  In (dateKey item) ["toString"; "valueOf"; "__proto__"] ->
                  desc item = "" /\ icon_of item = "") ->
               api_forecast env q
                 = ForecastDays city (aggregate (Upstream.samples data)) /\
               (length (aggregate (Upstream.samples data)) <= 6)%nat /\
               StronglySorted day_before (aggregate (Upstream.samples data)))
              /\ (forall item, In item (Upstream.samples data) ->
                    In (dateKey item) ["toString"; "valueOf"; "__proto__"] ->
                    desc item <> "" \/ icon_of item <> "" ->
                    api_forecast env q
                    = Json (sendJson 500
                              (JObj [("error",
                                      Upstream.message_or no_push "forecast error")]))))
        /\ (forall data,
              Upstream.fetch env (Upstream.owUrl "weather" env city lang)
                = Upstream.Answered (Return data) ->
              Upstream.weather data = [] ->
              api_weather env q
                = WeatherNow (Upstream.name data)
                    (match Upstream.main data with
                     | Some m => Upstream.temp m | None => None end)
                    (match Upstream.main data with
                     | Some m => Upstream.feels_like m | None => None end)
                    "" "")
        /\ (forall e,
              Upstream.fetch env (Upstream.owUrl "weather" env city lang)
                = Upstream.Unreachable e \/
              Upstream.fetch env (Upstream.owUrl "weather" env city lang)
                = Upstream.Answered (Throw e) ->
              api_weather env q
                = Json (sendJson 500
                          (JObj [("error", Upstream.message_or e "weather error")])))).
Proof.
  intros city lang. unfold api_weather, api_forecast, Upstream.requireOwKey.
  fold city lang. split; [|split].
  - intros ->. cbn [falsy]. eexists. repeat split.
  - intros Hkey ->. apply falsy_false_ne in Hkey. rewrite Hkey. cbn [falsy].
    now split.
  - intros Hkey Hcity. apply falsy_false_ne in Hkey, Hcity. rewrite Hkey, Hcity.
    split; [|split; [|split]].
    + intros code text Hfetch. unfold Upstream.owGet. rewrite Hfetch. reflexivity.
    + intros data Hfetch. unfold Upstream.owGet. rewrite Hfetch.
      cbn [bind]. rewrite forecast_aggregate. split.
      * intros Hnone. rewrite (faulty_none _ Hnone).
        split; [reflexivity|apply aggregate_bounded].
      * intros item Hin Hk Hp. now rewrite (faulty_some _ item Hin Hk Hp).
    + intros data Hfetch Hweather. unfold Upstream.owGet. rewrite Hfetch, Hweather.
      reflexivity.
    + intros e [Hfetch|Hfetch]; unfold Upstream.owGet; now rewrite Hfetch.
Qed.

(** X20 with a provider that knows Riga: the first [city] parameter
    counts, another language is a URL the provider refuses, and without a
    key the two routes answer alike; and with a provider whose document
    for Turku has a described sample dated "toString". *)
Lemma provider_endpoints_witness :
  api_forecast Sample.online [("city", " Riga "); ("city", "Oslo")]
  = ForecastDays "Riga" (aggregate Demo.two_days)
  /\ api_forecast Sample.online [("lang", "ru"); ("city", "Riga")]
     = Json (sendJson 500 (JObj [("error", JStr "OpenWeather error: 404 city not found")]))
  /\ api_weather Sample.offline [("city", "Riga")]
     = api_forecast Sample.offline []
  /\ api_weather Sample.down [("city", "Riga")]
     = Json (sendJson 500 (JObj [("error", JStr "fetch failed")]))
  /\ api_forecast Sample.mixed [("city", "Turku")]
     = Json (sendJson 500
               (JObj [("error", JStr "Cannot read properties of undefined (reading 'push')")])).
Proof.
  assert (Hkey : Upstream.OW_KEY Sample.online <> "") by (vm_compute; discriminate).
  split; [|split; [|split; [|split]]].
  - refine (proj1 (proj1 (proj1 (proj2 (proj2 (proj2 (provider_endpoints Sample.online
                      [("city", " Riga "); ("city", "Oslo")])) Hkey _))
                    {| Upstream.name := None; Upstream.main := None;
                       Upstream.weather := []; Upstream.samples := Demo.two_days |} _) _)).
    + vm_compute. discriminate.
    + vm_compute. reflexivity.
    + intros item Hin Hk. exfalso.
      cbn [Upstream.samples Demo.two_days In] in Hin.
      repeat (destruct Hin as [<-|Hin];
              [vm_compute in Hk; repeat (destruct Hk as [Hk|Hk]; try discriminate Hk);
               exact Hk|]).
      exact Hin.
  - refine (proj1 (proj2 (proj2 (provider_endpoints Sample.online
                      [("lang", "ru"); ("city", "Riga")])) Hkey _)
              404%N (Some "city not found") _).
    + vm_compute. discriminate.
    + vm_compute. reflexivity.
  - destruct (proj1 (provider_endpoints Sample.offline [("city", "Riga")]) eq_refl)
      as (missing & Hr & _ & Hw & _).
    destruct (proj1 (provider_endpoints Sample.offline []) eq_refl)
      as (missing' & Hr' & _ & _ & Hf).
    rewrite Hw, Hf. congruence.
  - refine (proj2 (proj2 (proj2 (proj2 (proj2 (provider_endpoints Sample.down
                      [("city", "Riga")])) _ _)))
              (Error "fetch failed") (or_introl eq_refl)).
    + vm_compute. discriminate.
    + vm_compute. discriminate.
  - refine (proj2 (proj1 (proj2 (proj2 (proj2 (provider_endpoints Sample.mixed
                      [("city", "Turku")])) _ _))
                    {| Upstream.name := None; Upstream.main := None;
                       Upstream.weather := []; Upstream.samples := Sample.misdated |} _)
              (Demo.described "toString" 3%float "mist" "50d") _ _ _).
    + vm_compute. discriminate.
    + vm_compute. discriminate.
    + vm_compute. reflexivity.
    + right. left. reflexivity.
    + left. reflexivity.
    + left. discriminate.
Defined.

(** ** Dates and bounds of the forecast *)

Section Dates.
Implicit Types (m : gmap string Day.bucket) (item : Item.sample).






End Dates.


Section Bounds.
Implicit Types (m : gmap string Day.bucket) (item : Item.sample).

Lemma update_bounds seen item :
  Day.min (update seen item)
    = match seen with
      | Some b => Math_min (Day.min b) (tmin item)
      | None => tmin item
      end
  /\ Day.max (update seen item)
    = match seen with
      | Some b => Math_max (Day.max b) (tmax item)
      | None => tmax item
      end.
Proof.
  unfold update. destruct seen as [b|], (falsy (desc item)), (falsy (icon_of item));
    split; reflexivity.
Qed.

Lemma fold_bounds samples m k :
  k <> "" -> inherited k = false ->
  option_map Day.min (fold_left step samples m !! k)
    = fold_left (fun acc item =>
                   Some match acc with
                        | Some v => Math_min v (tmin item)
                        | None => tmin item
                        end)
        (same_day k samples) (option_map Day.min (m !! k))
  /\ option_map Day.max (fold_left step samples m !! k)
    = fold_left (fun acc item =>
                   Some match acc with
                        | Some v => Math_max v (tmax item)
                        | None => tmax item
                        end)
        (same_day k samples) (option_map Day.max (m !! k)).
Proof.
  intros Hk Hown. revert m.
  induction samples as [|item samples IH]; intros m; [now split|].
  cbn [fold_left]. destruct (IH (step m item)) as [IHmin IHmax].
  rewrite IHmin, IHmax. clear IH IHmin IHmax. rewrite step_lookup by exact Hown.
  unfold same_day. cbn [List.filter].
  destruct (String.eqb_spec (dateKey item) k) as [He|Hne].
  - rewrite decide_True by (split; congruence). cbn [fold_left option_map].
    destruct (update_bounds (m !! k) item) as [-> ->].
    destruct (m !! k); split; reflexivity.
  - rewrite decide_False by tauto. now split.
Qed.

Lemma fold_some {A} (g : number -> A -> number) (l : list A) (v : number) (h : A -> number) :
  fold_left (fun acc x => Some match acc with
                               | Some v => g v x
                               | None => h x
                               end) l (Some v)
  = Some (fold_left g l v).
Proof.
  revert v. induction l as [|x l IH]; intros v; [reflexivity|]. cbn [fold_left]. apply IH.
Qed.

Lemma fold_left_mapped {A} (g : number -> number -> number) (h : A -> number)
    (l : list A) (v : number) :
  fold_left (fun acc x => g acc (h x)) l v = fold_left g (List.map h l) v.
Proof.
  revert v. induction l as [|x l IH]; intros v; [reflexivity|]. cbn. apply IH.
Qed.

End Bounds.

(** X22 (the aggregation loop, lines 431-441 and 456-457).  For
    each day of the forecast, the samples of that date are a first one and
    the rest; [min] is [Math.round(x * 10) / 10] of the [Math.min] of the
    [tmin] values folded from the first sample's over the rest in list
    order, and [max] likewise with [Math.max] over the [tmax] values. *)
Theorem forecast_bounds (samples : list Item.sample) (day : ForecastDay) :
  In day (aggregate samples) ->
  exists first rest,
    same_day (date day) samples = first :: rest /\
    Forecast.min day
      = round1 (fold_left Math_min (List.map tmin rest) (tmin first)) /\
    Forecast.max day
      = round1 (fold_left Math_max (List.map tmax rest) (tmax first)).
Proof.
  intros Hin. apply aggregate_In in Hin as ([Hne Hown] & b & Hb & Hmin & Hmax & _).
  destruct (fold_bounds samples ∅ (date day) Hne Hown) as [Hlo Hhi].
  fold (collect samples) in Hlo, Hhi. rewrite Hb, lookup_empty in Hlo, Hhi.
  cbn [option_map] in Hlo, Hhi.
  destruct (same_day (date day) samples) as [|first rest]; [discriminate|].
  exists first, rest. split; [reflexivity|]. cbn [fold_left] in Hlo, Hhi.
  rewrite (fold_some (fun v item => Math_min v (tmin item))) in Hlo.
  rewrite (fold_some (fun v item => Math_max v (tmax item))) in Hhi.
  injection Hlo as Hlo. injection Hhi as Hhi.
  rewrite Hmin, Hmax, Hlo, Hhi.
  rewrite (fold_left_mapped Math_min tmin), (fold_left_mapped Math_max tmax).
  split; reflexivity.
Qed.

(** X22 on the second day of the two-day sample list. *)
Lemma forecast_bounds_witness :
  let day := {| date := "2024-01-02"; Forecast.min := (-1)%float; Forecast.max := 3%float;
                description := ""; icon := "" |} in
  exists first rest,
    same_day "2024-01-02" Demo.two_days = first :: rest /\
    Forecast.min day = round1 (fold_left Math_min (List.map tmin rest) (tmin first)) /\
    Forecast.max day = round1 (fold_left Math_max (List.map tmax rest) (tmax first)).
Proof.
  intros day.
  assert (Hagg : aggregate Demo.two_days
                 = [{| date := "2024-01-01"; Forecast.min := 2%float;
                       Forecast.max := 8%float; description := ""; icon := "" |}; day])
    by (vm_compute; reflexivity).
  apply (forecast_bounds Demo.two_days day). rewrite Hagg. right. left. reflexivity.
Defined.

(** ** The weather page *)

Section Favourites.

Lemma add_unfold seen y :
  add seen y = if existsb (String.eqb y) seen then seen else (seen ++ [y])%list.
Proof. reflexivity. Qed.

Lemma existsb_eqb_In x (l : list string) : existsb (String.eqb x) l = true <-> In x l.
Proof.
  rewrite List.existsb_exists. split.
  - intros (y & Hin & Heq). apply String.eqb_eq in Heq. now subst.
  - intros Hin. exists x. split; [exact Hin|apply String.eqb_refl].
Qed.

Lemma add_In l seen x : In x (fold_left add l seen) <-> In x seen \/ In x l.
Proof.
  revert seen. induction l as [|y l IH]; intros seen; cbn [fold_left]; [cbn [In]; tauto|].
  rewrite IH, add_unfold. destruct (existsb (String.eqb y) seen) eqn:Hy.
  - apply existsb_eqb_In in Hy. cbn [In]. split; [tauto|].
    intros [Hs|[<-|Hl]]; tauto.
  - rewrite List.in_app_iff. cbn [In]. tauto.
Qed.

Lemma add_NoDup l seen : List.NoDup seen -> List.NoDup (fold_left add l seen).
Proof.
  revert seen. induction l as [|y l IH]; intros seen Hnd; cbn [fold_left]; [exact Hnd|].
  apply IH. rewrite add_unfold.
  destruct (existsb (String.eqb y) seen) eqn:Hy; [exact Hnd|].
  apply NoDup_ListNoDup. apply NoDup_app. apply NoDup_ListNoDup in Hnd.
  split; [exact Hnd|]. split; [|apply NoDup_singleton].
  intros x Hx Hx'. apply list_elem_of_singleton in Hx'. subst x.
  apply list_elem_of_In, existsb_eqb_In in Hx. congruence.
Qed.

Lemma add_prefix l seen : exists more, fold_left add l seen = (seen ++ more)%list.
Proof.
  revert seen. induction l as [|y l IH]; intros seen; cbn [fold_left].
  - exists []. now rewrite List.app_nil_r.
  - rewrite add_unfold. destruct (existsb (String.eqb y) seen); [apply IH|].
    destruct (IH (seen ++ [y])%list) as [more ->]. exists (y :: more).
    now rewrite <- List.app_assoc.
Qed.

Lemma add_fresh l seen :
  List.NoDup (seen ++ l) -> fold_left add l seen = (seen ++ l)%list.
Proof.
  revert seen. induction l as [|y l IH]; intros seen Hnd; cbn [fold_left].
  - now rewrite List.app_nil_r.
  - assert (Hy : existsb (String.eqb y) seen = false).
    { destruct (existsb (String.eqb y) seen) eqn:Hy; [|reflexivity].
      apply existsb_eqb_In in Hy. apply List.NoDup_remove_2 in Hnd.
      exfalso. apply Hnd. apply List.in_or_app. now left. }
    rewrite add_unfold, Hy, IH; rewrite <- List.app_assoc; [reflexivity|exact Hnd].
Qed.

Lemma add_filter l seen :
  List.NoDup l ->
  fold_left add l seen
  = (seen ++ List.filter (fun x => negb (existsb (String.eqb x) seen)) l)%list.
Proof.
  intros Hnd. revert seen. induction Hnd as [|y l Hy Hnd IH]; intros seen; cbn [fold_left].
  - cbn. now rewrite List.app_nil_r.
  - cbn [List.filter]. rewrite add_unfold.
    destruct (existsb (String.eqb y) seen) eqn:Hseen; cbn [negb].
    + apply IH.
    + rewrite IH, <- List.app_assoc. cbn [List.app]. f_equal. f_equal.
      apply List.filter_ext_in. intros x Hx. rewrite List.existsb_app. cbn [existsb].
      rewrite orb_false_r.
      destruct (String.eqb_spec x y) as [->|_]; [contradiction|].
      now rewrite orb_false_r.
Qed.

Lemma firstn_NoDup {A} n (l : list A) : List.NoDup l -> List.NoDup (firstn n l).
Proof.
  intros Hnd. revert n. induction Hnd as [|x l Hx Hnd IH]; intros [|n]; cbn [firstn];
    try constructor.
  - intros Hin. apply Hx. now apply firstn_In in Hin.
  - apply IH.
Qed.

End Favourites.

(** X23 (addFavourite and favourites, weather/page.tsx, lines
    301-309).  A city field that is empty after trimming changes nothing.
    Otherwise the trimmed city is the first favourite, also of the six
    shown; the list has no element twice and at most ten, each the city
    or an old favourite; adding the same city again changes nothing; and
    for favourites without repetition the result is the city followed by
    the other old favourites in their order, cut to ten. *)
Theorem addFavourite_front (city : string) (favs : list string) :
  let c := trim city in
  let next := addFavourite city favs in
  (c = "" -> next = favs)
  /\ (c <> "" ->
        head next = Some c
        /\ head (favourites next) = Some c
        /\ List.NoDup next
        /\ (length next <= 10)%nat
        /\ (forall x, In x next -> x = c \/ In x favs)
        /\ addFavourite city next = next
        /\ (List.NoDup favs ->
            next = firstn 10 (c :: List.filter (fun x => negb (String.eqb x c)) favs))).
Proof.
  intros c next. subst next. unfold addFavourite. fold c. split.
  - now intros ->.
  - intros Hc. apply falsy_false_ne in Hc. rewrite Hc.
    unfold from_set. cbn [fold_left]. rewrite add_unfold. cbn [existsb List.app].
    destruct (add_prefix favs [c]) as [more Hmore]. rewrite Hmore. cbn [List.app firstn].
    assert (Hnd : List.NoDup (c :: more)).
    { change (c :: more) with ([c] ++ more)%list. rewrite <- Hmore.
      apply add_NoDup. constructor; [intros []|constructor]. }
    split; [reflexivity|]. split; [reflexivity|]. split; [|split; [|split; [|split]]].
    + apply (firstn_NoDup 10 (c :: more)), Hnd.
    + apply (List.firstn_le_length 10 (c :: more)).
    + intros x Hin. apply (firstn_In 10 (c :: more)) in Hin.
      change (c :: more) with ([c] ++ more)%list in Hin. rewrite <- Hmore in Hin.
      apply add_In in Hin as [[<-|[]]|Hin]; [now left|now right].
    + cbn [fold_left]. rewrite add_unfold. cbn [existsb].
      rewrite String.eqb_refl. cbn [orb].
      rewrite add_fresh.
      * cbn [List.app firstn]. f_equal. rewrite List.firstn_firstn. reflexivity.
      * cbn [List.app]. apply (firstn_NoDup 10 (c :: more)), Hnd.
    + intros Hfavs. f_equal. f_equal. rewrite (add_filter favs [c] Hfavs) in Hmore.
      cbn [List.app] in Hmore. injection Hmore as <-.
      apply List.filter_ext. intros x. cbn [existsb]. now rewrite orb_false_r.
Qed.

(** X23 on three favourites: a city that is already listed moves to the
    front, and a field of spaces changes nothing. *)
Lemma addFavourite_front_witness :
  addFavourite " Oslo " ["Riga"; "Oslo"; "Rome"] = ["Oslo"; "Riga"; "Rome"]
  /\ addFavourite "   " ["Riga"] = ["Riga"].
Proof.
  split.
  - destruct (proj2 (addFavourite_front " Oslo " ["Riga"; "Oslo"; "Rome"]))
      as (_ & _ & _ & _ & _ & _ & Hnext); [discriminate|].
    rewrite Hnext; [reflexivity|]. repeat constructor; cbn; intuition discriminate.
  - apply (proj1 (addFavourite_front "   " ["Riga"])). reflexivity.
Defined.

(** X24 (formatDateShort, weather/page.tsx, lines 89-93).  For
    three parts without a hyphen, "y-m-d" is shown as "m.d", also when
    more follows after a further hyphen; with two parts the day is
    "undefined", and a text without a hyphen gives
    "undefined.undefined". *)
Theorem formatDateShort_parts (y m d : string) :
  free_of "-" y = true -> free_of "-" m = true -> free_of "-" d = true ->
  formatDateShort (y ++ "-" ++ m ++ "-" ++ d) = m ++ "." ++ d
  /\ (forall rest,
        formatDateShort (y ++ "-" ++ m ++ "-" ++ d ++ "-" ++ rest) = m ++ "." ++ d)
  /\ formatDateShort (y ++ "-" ++ m) = m ++ ".undefined"
  /\ formatDateShort y = "undefined.undefined".
Proof.
  intros Hy Hm Hd. unfold formatDateShort.
  change (y ++ "-" ++ m ++ "-" ++ d) with (y ++ String "-" (m ++ String "-" d)).
  change (y ++ "-" ++ m) with (y ++ String "-" m).
  split; [|split; [|split]].
  - rewrite !split_cons by assumption. rewrite (split_free "-" d Hd). reflexivity.
  - intros rest.
    change (y ++ "-" ++ m ++ "-" ++ d ++ "-" ++ rest)
      with (y ++ String "-" (m ++ String "-" (d ++ String "-" rest))).
    rewrite !split_cons by assumption. reflexivity.
  - rewrite split_cons by assumption. rewrite (split_free "-" m Hm). reflexivity.
  - rewrite (split_free "-" y Hy). reflexivity.
Qed.

(** X24 on the date key of a sample taken at 2024-01-02 03:00:00. *)
Lemma formatDateShort_parts_witness :
  formatDateShort (dateKey (Demo.reading "2024-01-02 03:00:00" 3%float)) = "01.02".
Proof.
  exact (proj1 (formatDateShort_parts "2024" "01" "02" eq_refl eq_refl eq_refl)).
Defined.
